(** * Connection objects of libpagekite (pkconn.c)

    A shallow embedding of [src/libpagekite/pkconn.c] (the HAVE_OPENSSL
    build).  A connection is a record holding the fields the C code
    touches; the operating system, the TLS library and the clock are an
    explicit [world] that every operation threads through.  What the
    kernel or the TLS library answers to a call is read from an oracle
    carried by the world, so every statement below quantifies over all
    transport behaviours.  Calls to [pk_log] and the trace macros have no
    effect on a connection and are left out. *)

From Stdlib Require Import ZArith List Bool Lia.
From Stdlib Require Import Strings.Byte.
Import ListNotations.
Local Open Scope Z_scope.

(** ** Platform constants *)

(** <errno.h> on Linux. *)
Definition EINTR : Z := 4.
Definition EIO : Z := 5.
Definition EAGAIN : Z := 11.
Definition EWOULDBLOCK : Z := 11.
Definition ECONNRESET : Z := 104.

(** <openssl/ssl.h>. *)
Definition SSL_ERROR_NONE : Z := 0.
Definition SSL_ERROR_SSL : Z := 1.
Definition SSL_ERROR_WANT_READ : Z := 2.
Definition SSL_ERROR_WANT_WRITE : Z := 3.
Definition SSL_ERROR_SYSCALL : Z := 5.

(** ** Constants of the project's own headers

    pkconn.c takes its macros from pkconn.h and pkerror.h and its
    report formatter from pkproto.c.  Those files are outside the file
    verified here: what pkconn.c uses of them is a field of this class,
    and every definition below is parametric in it. *)
Class pkconn_h : Type := {
  CONN_IO_BUFFER_SIZE : Z;
  CONN_WINDOW_SIZE_KB_INITIAL : Z;
  CONN_REPORT_INCREMENT : Z;
  CONN_STATUS_BITS : Z;
  CONN_STATUS_CHANGING : Z;
  CONN_STATUS_ALLOCATED : Z;
  CONN_STATUS_LISTENING : Z;
  CONN_STATUS_WANT_READ : Z;
  CONN_STATUS_WANT_WRITE : Z;
  CONN_STATUS_BROKEN : Z;
  CONN_STATUS_CLS_READ : Z;
  CONN_STATUS_CLS_WRITE : Z;
  ERR_CONNECT_LISTEN : Z;
  (* the text of a bandwidth report for a session id and a KB count *)
  pk_format_skb : list byte -> Z -> list byte
}.

(** ** Data model *)

(** [pkc->state]. *)
Inductive conn_state : Type :=
| CONN_CLEAR_DATA
| CONN_SSL_DATA
| CONN_SSL_HANDSHAKE.

(** The [mode] argument of [pkc_flush]. *)
Inductive flush_mode : Type :=
| BLOCKING_FLUSH
| NON_BLOCKING_FLUSH.

Definition is_blocking_flush (m : flush_mode) : bool :=
  match m with BLOCKING_FLUSH => true | NON_BLOCKING_FLUSH => false end.

(** [struct pk_conn].  The two buffers are the byte arrays themselves;
    only the first [*_buffer_pos] bytes of each are meaningful.  The
    integer fields are kept as mathematical integers: their C types are
    declared in pkconn.h. *)
Record pk_conn : Type := mk_conn {
  status : Z;
  sockfd : Z;
  activity : Z;
  state : conn_state;
  in_buffer : list byte;
  in_buffer_pos : Z;
  out_buffer : list byte;
  out_buffer_pos : Z;
  send_window_kb : Z;
  read_bytes : Z;
  read_kb : Z;
  sent_kb : Z;
  wrote_bytes : Z;
  reported_kb : Z;
  ssl : option nat;
  want_write : Z
}.

Definition with_status (v : Z) (c : pk_conn) : pk_conn :=
  mk_conn v (sockfd c) (activity c) (state c) (in_buffer c) (in_buffer_pos c)
          (out_buffer c) (out_buffer_pos c) (send_window_kb c) (read_bytes c)
          (read_kb c) (sent_kb c) (wrote_bytes c) (reported_kb c) (ssl c)
          (want_write c).

Definition with_sockfd (v : Z) (c : pk_conn) : pk_conn :=
  mk_conn (status c) v (activity c) (state c) (in_buffer c) (in_buffer_pos c)
          (out_buffer c) (out_buffer_pos c) (send_window_kb c) (read_bytes c)
          (read_kb c) (sent_kb c) (wrote_bytes c) (reported_kb c) (ssl c)
          (want_write c).

Definition with_state (v : conn_state) (c : pk_conn) : pk_conn :=
  mk_conn (status c) (sockfd c) (activity c) v (in_buffer c) (in_buffer_pos c)
          (out_buffer c) (out_buffer_pos c) (send_window_kb c) (read_bytes c)
          (read_kb c) (sent_kb c) (wrote_bytes c) (reported_kb c) (ssl c)
          (want_write c).

(** A successful read: bytes land in the input buffer, the offset, the
    timestamp and the two read counters move. *)
Definition with_input (buf : list byte) (pos act rb rkb : Z) (c : pk_conn)
  : pk_conn :=
  mk_conn (status c) (sockfd c) act (state c) buf pos
          (out_buffer c) (out_buffer_pos c) (send_window_kb c) rb
          rkb (sent_kb c) (wrote_bytes c) (reported_kb c) (ssl c)
          (want_write c).

Definition with_output (buf : list byte) (pos : Z) (c : pk_conn) : pk_conn :=
  mk_conn (status c) (sockfd c) (activity c) (state c) (in_buffer c)
          (in_buffer_pos c) buf pos (send_window_kb c) (read_bytes c)
          (read_kb c) (sent_kb c) (wrote_bytes c) (reported_kb c) (ssl c)
          (want_write c).

Definition with_wrote_bytes (v : Z) (c : pk_conn) : pk_conn :=
  mk_conn (status c) (sockfd c) (activity c) (state c) (in_buffer c)
          (in_buffer_pos c) (out_buffer c) (out_buffer_pos c)
          (send_window_kb c) (read_bytes c) (read_kb c) (sent_kb c) v
          (reported_kb c) (ssl c) (want_write c).

Definition with_reported_kb (v : Z) (c : pk_conn) : pk_conn :=
  mk_conn (status c) (sockfd c) (activity c) (state c) (in_buffer c)
          (in_buffer_pos c) (out_buffer c) (out_buffer_pos c)
          (send_window_kb c) (read_bytes c) (read_kb c) (sent_kb c)
          (wrote_bytes c) v (ssl c) (want_write c).

Definition with_want_write (v : Z) (c : pk_conn) : pk_conn :=
  mk_conn (status c) (sockfd c) (activity c) (state c) (in_buffer c)
          (in_buffer_pos c) (out_buffer c) (out_buffer_pos c)
          (send_window_kb c) (read_bytes c) (read_kb c) (sent_kb c)
          (wrote_bytes c) (reported_kb c) (ssl c) v.

(** [pkc->status |= f], and the test [pkc->status & f]. *)
Definition raise_flag (f : Z) (c : pk_conn) : pk_conn :=
  with_status (Z.lor (status c) f) c.

Definition has_flag (f : Z) (c : pk_conn) : bool :=
  negb (Z.land (status c) f =? 0).

(** [struct addrinfo], with the port of [ai_addr] spelled out. *)
Record addrinfo : Type := mk_addrinfo {
  ai_family : Z;
  ai_socktype : Z;
  ai_protocol : Z;
  ai_port : Z
}.

(** ** The world outside the connection *)

(** What the kernel or the TLS library answers to one call: the return
    value, the value of [errno] once the call is over, what
    [SSL_get_error] says about it, and the bytes a read delivers. *)
Record io_result : Type := mk_io {
  io_ret : Z;
  io_errno : Z;
  io_ssl_error : Z;
  io_data : list byte
}.

(** What an operation does to the outside, in the order it happens. *)
Inductive event : Type :=
| EvWrite (fd : Z) (bytes : list byte)
| EvBlocking (fd : Z)
| EvNonBlocking (fd : Z)
| EvClose (fd : Z)
| EvSslFree (h : nat).

(** [oracle w n len] is the answer to the [n]-th call that reaches the
    kernel or the TLS library, when that call asks for [len] bytes;
    [tick] counts the calls answered so far.  [socks] maps a bound socket
    to its local port and [ephemeral] is the port the kernel hands out
    when port 0 is bound. *)
Record world : Type := mk_world {
  errno : Z;
  pk_error : Z;
  clock : Z;
  tick : nat;
  oracle : nat -> Z -> io_result;
  ephemeral : Z;
  socks : list (Z * Z);
  trace : list event
}.

Definition set_errno (v : Z) (w : world) : world :=
  mk_world v (pk_error w) (clock w) (tick w) (oracle w) (ephemeral w)
           (socks w) (trace w).

Definition set_pk_error (v : Z) (w : world) : world :=
  mk_world (errno w) v (clock w) (tick w) (oracle w) (ephemeral w)
           (socks w) (trace w).

Definition emit (e : event) (w : world) : world :=
  mk_world (errno w) (pk_error w) (clock w) (tick w) (oracle w) (ephemeral w)
           (socks w) (trace w ++ [e]).

Definition bind_port (fd port : Z) (w : world) : world :=
  mk_world (errno w) (pk_error w) (clock w) (tick w) (oracle w) (ephemeral w)
           ((fd, port) :: socks w) (trace w).

(** One call answered by the oracle: the call counter moves on and
    [errno] is whatever the callee left there. *)
Definition transport_io (len : Z) (w : world) : io_result * world :=
  let r := oracle w (tick w) len in
  (r, mk_world (io_errno r) (pk_error w) (clock w) (S (tick w)) (oracle w)
               (ephemeral w) (socks w) (trace w)).

(** The bytes written to socket [fd] so far, in order. *)
Definition sent_by (fd : Z) (e : event) : list byte :=
  match e with
  | EvWrite fd' bytes => if fd' =? fd then bytes else []
  | _ => []
  end.

Definition sent (fd : Z) (w : world) : list byte :=
  flat_map (sent_by fd) (trace w).

(** The blocking mode socket [fd] was last put in, if ever. *)
Definition mode_after (fd : Z) (m : option bool) (e : event) : option bool :=
  match e with
  | EvBlocking fd' => if fd' =? fd then Some true else m
  | EvNonBlocking fd' => if fd' =? fd then Some false else m
  | _ => m
  end.

Definition blocking_mode (fd : Z) (w : world) : option bool :=
  fold_left (mode_after fd) (trace w) None.

(** [memcpy]/[memmove] of [src] into the array [buf] at offset [off].
    The array is modelled on its own: this is the C copy as long as
    [off + length src] lies within the array, which the statements that
    reach a copy ensure by asking for a well-formed connection. *)
Definition mem_write (buf : list byte) (off : nat) (src : list byte)
  : list byte :=
  firstn off buf ++ src ++ skipn (off + length src) buf.

(** [p + n] and the [n] bytes found at [p]: all [n] of them when [p]
    holds that many, which the statements about the bytes written ask
    for; the bytes that C would find behind the end of the array are
    not modelled. *)
Definition ptr_add (p : list byte) (n : Z) : list byte :=
  skipn (Z.to_nat n) p.
Definition bytes_at (p : list byte) (n : Z) : list byte :=
  firstn (Z.to_nat n) p.

(** *** System and library calls *)

Definition PKS_write (fd : Z) (data : list byte) (len : Z) (w : world)
  : Z * world :=
  let '(r, w1) := transport_io len w in
  (io_ret r,
   if 0 <? io_ret r then emit (EvWrite fd (bytes_at data (io_ret r))) w1
   else w1).

Definition SSL_write (fd : Z) (data : list byte) (len : Z) (w : world)
  : io_result * world :=
  let '(r, w1) := transport_io len w in
  (r,
   if 0 <? io_ret r then emit (EvWrite fd (bytes_at data (io_ret r))) w1
   else w1).

Definition PKS_read (len : Z) (w : world) : io_result * world :=
  transport_io len w.

Definition SSL_read (len : Z) (w : world) : io_result * world :=
  transport_io len w.

Definition SSL_do_handshake (w : world) : io_result * world :=
  transport_io 0 w.

Definition SSL_get_error (r : io_result) : Z := io_ssl_error r.

Definition set_blocking (fd : Z) (w : world) : world := emit (EvBlocking fd) w.
Definition set_non_blocking (fd : Z) (w : world) : world :=
  emit (EvNonBlocking fd) w.
Definition PKS_close (fd : Z) (w : world) : world := emit (EvClose fd) w.
Definition SSL_free (h : nat) (w : world) : world := emit (EvSslFree h) w.
(** [pk_time()]: the time of a call is the clock of the world in which
    the call is made.  No operation of this file moves the clock: a call
    made later is a call made in another world. *)
Definition pk_time (w : world) : Z := clock w.

Definition PKS_socket (ai : addrinfo) (w : world) : Z * world :=
  let '(r, w1) := transport_io 0 w in (io_ret r, w1).

(** [bind]: a socket bound to port 0 gets the kernel's ephemeral port. *)
Definition PKS_bind (fd : Z) (ai : addrinfo) (w : world) : Z * world :=
  let '(r, w1) := transport_io 0 w in
  (io_ret r,
   if io_ret r <? 0 then w1
   else bind_port fd (if ai_port ai =? 0 then ephemeral w1 else ai_port ai) w1).

Definition PKS_listen (fd backlog : Z) (w : world) : Z * world :=
  let '(r, w1) := transport_io backlog w in (io_ret r, w1).

Fixpoint local_port (fd : Z) (l : list (Z * Z)) : Z :=
  match l with
  | [] => 0
  | (fd', p) :: l' => if fd' =? fd then p else local_port fd l'
  end.

(** [sin.sin_port] holds the port in network byte order: the high byte
    first.  [htons] stores a port that way and [ntohs] reads it back. *)
Definition htons (p : Z) : Z * Z := ((p / 256) mod 256, p mod 256).
Definition ntohs (sin_port : Z * Z) : Z := fst sin_port * 256 + snd sin_port.

(** [getsockname]: the return value and [sin.sin_port]. *)
Definition getsockname (fd : Z) (w : world) : Z * (Z * Z) * world :=
  let '(r, w1) := transport_io 0 w in
  (io_ret r, htons (local_port fd (socks w1)), w1).

(** Modelled from the spec: the macro [PKS_fail] of pkcommon.h, a header
    outside the file verified here; a call has failed when it returns a
    negative value. *)
Definition PKS_fail (rv : Z) : bool := rv <? 0.

Section Pkconn.

Context {K : pkconn_h}.

(** Modelled from the spec: the macros [PKC_IN_FREE] and [PKC_OUT_FREE]
    of pkconn.h, a header outside the file verified here; the free space
    of a buffer is its capacity less its offset. *)
Definition PKC_IN_FREE (c : pk_conn) : Z :=
  CONN_IO_BUFFER_SIZE - in_buffer_pos c.
Definition PKC_OUT_FREE (c : pk_conn) : Z :=
  CONN_IO_BUFFER_SIZE - out_buffer_pos c.

(** ** pkc_reset_conn *)

Definition pkc_reset_conn (pkc : pk_conn) (new_status : Z) (w : world)
  : pk_conn * world :=
  let w1 := if 0 <=? sockfd pkc then PKS_close (sockfd pkc) w else w in
  let w2 := match ssl pkc with Some h => SSL_free h w1 | None => w1 end in
  (mk_conn (Z.lor (Z.land (status pkc) (Z.lnot CONN_STATUS_BITS)) new_status)
           (-1) (pk_time w) CONN_CLEAR_DATA
           (in_buffer pkc) 0 (out_buffer pkc) 0
           CONN_WINDOW_SIZE_KB_INITIAL 0 0 0 0 0 None 0,
   w2).

(** ** pkc_listen *)

Definition pkc_listen (pkc : pk_conn) (ai : addrinfo) (backlog : Z) (w : world)
  : Z * pk_conn * world :=
  let '(c0, w0) :=
    pkc_reset_conn pkc
      (Z.lor (Z.lor CONN_STATUS_CHANGING CONN_STATUS_ALLOCATED)
             CONN_STATUS_LISTENING) w in
  let fail (fd : Z) (w' : world) :=
    (ERR_CONNECT_LISTEN, with_sockfd (-1) c0,
     set_pk_error ERR_CONNECT_LISTEN
       (if 0 <=? fd then PKS_close fd w' else w')) in
  let '(fd, w1) := PKS_socket ai w0 in
  if fd <? 0 then fail fd w1
  else
    let '(rb, w2) := PKS_bind fd ai w1 in
    if PKS_fail rb then fail fd w2
    else
      let '(rl, w3) := PKS_listen fd backlog w2 in
      if PKS_fail rl then fail fd w3
      else
        let c1 := with_sockfd fd c0 in
        let '(rg, sin_port, w4) := getsockname (sockfd c1) w3 in
        if negb (rg =? -1) then (ntohs sin_port, c1, w4)
        else (1, c1, w4).

(** ** The TLS handshake driver *)

Definition pkc_reset_error_state (w : world) : world := set_errno 0 w.

Definition pkc_start_handshake (pkc : pk_conn) (err : Z) : pk_conn :=
  let c := with_state CONN_SSL_HANDSHAKE pkc in
  if err =? SSL_ERROR_WANT_READ then raise_flag CONN_STATUS_WANT_READ c
  else if err =? SSL_ERROR_WANT_WRITE then raise_flag CONN_STATUS_WANT_WRITE c
  else c.

Definition pkc_end_handshake (pkc : pk_conn) : pk_conn :=
  with_state CONN_SSL_DATA
    (with_status
       (Z.land (status pkc)
               (Z.lnot (Z.lor CONN_STATUS_WANT_WRITE CONN_STATUS_WANT_READ)))
       pkc).

Definition pkc_do_handshake (pkc : pk_conn) (w : world) : pk_conn * world :=
  let w0 := pkc_reset_error_state w in
  let '(r, w1) := SSL_do_handshake w0 in
  if io_ret r =? 1 then (pkc_end_handshake pkc, w1)
  else
    let err := SSL_get_error r in
    if err =? SSL_ERROR_WANT_READ then
      (raise_flag CONN_STATUS_WANT_READ pkc, w1)
    else if err =? SSL_ERROR_WANT_WRITE then
      (raise_flag CONN_STATUS_WANT_WRITE pkc, w1)
    else
      (raise_flag CONN_STATUS_BROKEN pkc, set_errno ECONNRESET w1).

(** The driver invoked [n] times in a row. *)
Fixpoint handshake_steps (n : nat) (pkc : pk_conn) (w : world)
  : pk_conn * world :=
  match n with
  | O => (pkc, w)
  | S n' => let '(c1, w1) := pkc_do_handshake pkc w in handshake_steps n' c1 w1
  end.

(** ** pkc_read *)

(** The loop [while (read_bytes >= 1024) { read_kb += 1; read_bytes -= 1024; }],
    run for at most [n] rounds. *)
Fixpoint fold_kb (n : nat) (rb rkb : Z) : Z * Z :=
  match n with
  | O => (rb, rkb)
  | S n' => if 1024 <=? rb then fold_kb n' (rb - 1024) (rkb + 1) else (rb, rkb)
  end.

(** What [pkc_read] does with the answer [r] of the transport, once
    [bytes] and [ssl_errno] are known. *)
Definition read_result (pkc : pk_conn) (r : io_result) (ssl_errno : Z)
    (w : world) : Z * pk_conn * world :=
  let bytes := io_ret r in
  if 0 <? bytes then
    let buf := mem_write (in_buffer pkc) (Z.to_nat (in_buffer_pos pkc))
                         (bytes_at (io_data r) bytes) in
    let rb := read_bytes pkc + bytes in
    let '(rb', rkb') := fold_kb (Z.to_nat (rb / 1024)) rb (read_kb pkc) in
    (bytes, with_input buf (in_buffer_pos pkc + bytes) (pk_time w) rb' rkb' pkc,
     w)
  else if bytes =? 0 then (bytes, raise_flag CONN_STATUS_CLS_READ pkc, w)
  else if ssl_errno =? SSL_ERROR_WANT_WRITE then
    (bytes, pkc_start_handshake pkc ssl_errno, w)
  else if (ssl_errno =? SSL_ERROR_WANT_READ)
          || (ssl_errno =? SSL_ERROR_SYSCALL)
          || (ssl_errno =? SSL_ERROR_NONE) then
    if (errno w =? 0) || (errno w =? EINTR) || (errno w =? EAGAIN) then
      (bytes, pkc, w)
    else (bytes, raise_flag CONN_STATUS_BROKEN pkc, w)
  else (bytes, raise_flag CONN_STATUS_BROKEN pkc, w).

Definition pkc_read (pkc : pk_conn) (w : world) : Z * pk_conn * world :=
  let plain (w0 : world) :=
    let '(r, w1) := PKS_read (PKC_IN_FREE pkc) w0 in
    read_result pkc r SSL_ERROR_NONE w1 in
  match state pkc with
  | CONN_SSL_DATA =>
      let w0 := pkc_reset_error_state w in
      let '(r, w1) := SSL_read (PKC_IN_FREE pkc) w0 in
      let ssl_errno :=
        if io_ret r <? 0 then SSL_get_error r else SSL_ERROR_NONE in
      read_result pkc r ssl_errno w1
  | CONN_SSL_HANDSHAKE =>
      if negb (has_flag CONN_STATUS_BROKEN pkc) then
        let '(c1, w1) := pkc_do_handshake pkc w in (0, c1, w1)
      else plain w
  | CONN_CLEAR_DATA => plain w
  end.

(** ** pkc_raw_write *)

Definition count_wrote (wrote : Z) (pkc : pk_conn) : pk_conn :=
  if 0 <? wrote then with_wrote_bytes (wrote_bytes pkc + wrote) pkc else pkc.

Definition pkc_raw_write (pkc : pk_conn) (data : list byte) (len : Z)
    (w : world) : Z * pk_conn * world :=
  let w0 := pkc_reset_error_state w in
  match state pkc with
  | CONN_SSL_DATA =>
      let len' := if 0 <? want_write pkc then want_write pkc else len in
      let c0 := with_want_write 0 pkc in
      if len' =? 0 then (0, c0, w0)
      else
        let '(r, w1) := SSL_write (sockfd c0) data len' w0 in
        let wrote := io_ret r in
        if wrote <? 0 then
          let err := SSL_get_error r in
          if err =? SSL_ERROR_NONE then (wrote, c0, w1)
          else if err =? SSL_ERROR_WANT_WRITE then
            (wrote,
             with_want_write len' (raise_flag CONN_STATUS_WANT_WRITE c0), w1)
          else (wrote, c0, if errno w1 =? 0 then set_errno EIO w1 else w1)
        else (wrote, count_wrote wrote c0, w1)
  | CONN_SSL_HANDSHAKE =>
      if negb (has_flag CONN_STATUS_BROKEN pkc) then
        let '(c1, w1) := pkc_do_handshake pkc w0 in (0, c1, w1)
      else (0, pkc, w0)
  | CONN_CLEAR_DATA =>
      if len =? 0 then (0, pkc, w0)
      else
        let '(wrote, w1) := PKS_write (sockfd pkc) data len w0 in
        (wrote, count_wrote wrote pkc, w1)
  end.

(** ** pkc_flush *)

(** [errno] is neither [EINTR] nor 0. *)
Definition hard_errno (w : world) : bool :=
  negb (errno w =? EINTR) && negb (errno w =? 0).

(** [errno] is none of [EAGAIN], [EWOULDBLOCK] and 0: the connection is
    closed for writing. *)
Definition mark_write_error (pkc : pk_conn) (w : world) : pk_conn :=
  if negb (errno w =? EAGAIN) && negb (errno w =? EWOULDBLOCK)
     && negb (errno w =? 0)
  then raise_flag CONN_STATUS_CLS_WRITE pkc else pkc.

(** The first loop of [pkc_flush], which drains the output buffer.  It
    yields the last [wrote], [flushed], [loops_left], and the connection
    and world it leaves; [None] when [fuel] rounds were not enough. *)
Fixpoint flush_drain (fuel : nat) (mode : flush_mode) (pkc : pk_conn)
    (w : world) (flushed loops_left : Z)
  : option (Z * Z * Z * pk_conn * world) :=
  match fuel with
  | O => None
  | S fuel' =>
      let '(wrote, c1, w1) :=
        pkc_raw_write pkc (out_buffer pkc) (out_buffer_pos pkc) w in
      let again (c : pk_conn) (fl : Z) :=
        if is_blocking_flush mode && (0 <? out_buffer_pos c) then
          if 0 <? loops_left
          then flush_drain fuel' mode c w1 fl (loops_left - 1)
          else Some (wrote, fl, loops_left - 1, c, w1)
        else Some (wrote, fl, loops_left, c, w1) in
      if 0 <? wrote then
        let buf :=
          if wrote <? out_buffer_pos c1 then
            mem_write (out_buffer c1) 0
                      (bytes_at (ptr_add (out_buffer c1) wrote)
                                (out_buffer_pos c1 - wrote))
          else out_buffer c1 in
        again (with_output buf (out_buffer_pos c1 - wrote) c1) (flushed + wrote)
      else if hard_errno w1 then Some (wrote, flushed, loops_left, c1, w1)
      else again c1 flushed
  end.

(** The second loop of [pkc_flush], which writes the new data.  It yields
    the last [bytes] and [flushed]. *)
Fixpoint flush_direct (fuel : nat) (pkc : pk_conn) (w : world)
    (data : list byte) (len wrote flushed bytes loops_left : Z)
  : option (Z * Z * pk_conn * world) :=
  match fuel with
  | O => None
  | S fuel' =>
      if wrote <? len then
        let '(b, c1, w1) :=
          pkc_raw_write pkc (ptr_add data wrote) (len - wrote) w in
        if 0 <? b then
          flush_direct fuel' c1 w1 data len (wrote + b) (flushed + b) b
                       loops_left
        else if hard_errno w1 then Some (b, flushed, c1, w1)
        else if loops_left <=? 0 then Some (b, flushed, c1, set_errno EIO w1)
        else flush_direct fuel' c1 w1 data len wrote flushed b (loops_left - 1)
      else Some (bytes, flushed, pkc, w)
  end.

(** [data] is [None] for a [NULL] pointer. *)
Definition pkc_flush (fuel : nat) (pkc : pk_conn) (data : option (list byte))
    (len : Z) (mode : flush_mode) (w : world)
  : option (Z * pk_conn * world) :=
  let w0 := set_errno 0 w in
  if sockfd pkc <? 0 then Some (-1, pkc, w0)
  else
    let w1 :=
      if is_blocking_flush mode then set_blocking (sockfd pkc) w0 else w0 in
    match flush_drain fuel mode pkc w1 0 1000 with
    | None => None
    | Some (wrote, flushed, loops_left, c2, w2) =>
        if loops_left <=? 0 then Some (-1, c2, set_errno EIO w2)
        else
          let finish (fl : Z) (c : pk_conn) (w' : world) :=
            Some (fl, c,
                  if is_blocking_flush mode
                  then set_non_blocking (sockfd c) w' else w') in
          if wrote <? 0 then finish wrote (mark_write_error c2 w2) w2
          else
            match data with
            | Some d =>
                if is_blocking_flush mode && (out_buffer_pos c2 =? 0) then
                  match flush_direct fuel c2 w2 d len 0 0 0 loops_left with
                  | None => None
                  | Some (bytes, fl, c3, w3) =>
                      if bytes <? 0
                      then finish bytes (mark_write_error c3 w3) w3
                      else finish fl c3 w3
                  end
                else finish flushed c2 w2
            | None => finish flushed c2 w2
            end
    end.

(** ** pkc_write *)

(** The loop of step 2, which tries the new data on the transport until
    the attempt is not a retryable failure. *)
Fixpoint write_direct (fuel : nat) (pkc : pk_conn) (data : list byte)
    (len : Z) (w : world) : option (Z * pk_conn * world) :=
  match fuel with
  | O => None
  | S fuel' =>
      let '(wrote, c1, w1) := pkc_raw_write pkc data len w in
      if (wrote <? 0) && ((errno w1 =? EINTR) || (errno w1 =? 0))
      then write_direct fuel' c1 data len w1
      else Some (wrote, c1, w1)
  end.

(** Step 2 of [pkc_write] and what comes after it: the direct write of
    the new data, then buffering (2a) or a blocking flush (2b) of what is
    left. *)
Definition write_new_data (fuel : nat) (c1 : pk_conn) (data : list byte)
    (len : Z) (w1 : world) : option (Z * pk_conn * world) :=
  let step2 :=
    if out_buffer_pos c1 =? 0
    then write_direct fuel c1 data len (set_errno 0 w1)
    else Some (0, c1, w1) in
  match step2 with
  | None => None
  | Some (wrote, c2, w2) =>
      if wrote <? len then
        let wrote' := if wrote <? 0 then 0 else wrote in
        let wleft := len - wrote' in
        if wleft <=? PKC_OUT_FREE c2 then
          Some (len,
                with_output
                  (mem_write (out_buffer c2) (Z.to_nat (out_buffer_pos c2))
                             (bytes_at (ptr_add data wrote') wleft))
                  (out_buffer_pos c2 + wleft) c2,
                w2)
        else
          match pkc_flush fuel c2 (Some (ptr_add data wrote'))
                          (len - wrote') BLOCKING_FLUSH w2 with
          | None => None
          | Some (rv, c3, w3) =>
              if rv <? 0 then Some (-1, c3, w3) else Some (len, c3, w3)
          end
      else Some (len, c2, w2)
  end.

(** Step 1 flushes what is already buffered, whatever comes of it. *)
Definition pkc_write (fuel : nat) (pkc : pk_conn) (data : list byte)
    (len : Z) (w : world) : option (Z * pk_conn * world) :=
  let step1 :=
    if negb (out_buffer_pos pkc =? 0) then
      match pkc_flush fuel pkc None 0 NON_BLOCKING_FLUSH w with
      | Some (_, c, w') => Some (c, w')
      | None => None
      end
    else Some (pkc, w) in
  match step1 with
  | None => None
  | Some (c1, w1) => write_new_data fuel c1 data len w1
  end.

(** ** pkc_report_progress

    [pkc] and [feconn] are two distinct connections; [pk_format_skb]
    fills the message buffer and its result is the length of the text. *)
Definition pkc_report_progress (fuel : nat) (pkc : pk_conn) (sid : list byte)
    (feconn : pk_conn) (w : world) : option (pk_conn * pk_conn * world) :=
  if CONN_REPORT_INCREMENT * 1024 <=? wrote_bytes pkc then
    let c1 :=
      with_reported_kb (reported_kb pkc + Z.quot (wrote_bytes pkc) 1024) pkc in
    let c2 := with_wrote_bytes (Z.rem (wrote_bytes c1) 1024) c1 in
    let buffer := pk_format_skb sid (reported_kb c2) in
    match pkc_write fuel feconn buffer (Z.of_nat (length buffer)) w with
    | None => None
    | Some (_, fe, w') => Some (c2, fe, w')
    end
  else Some (pkc, feconn, w).

End Pkconn.

(** ** A sample configuration

    Concrete values for the header constants, used to run the functions
    on explicit inputs. *)
Definition sample_h (capacity : Z) : pkconn_h :=
  Build_pkconn_h capacity 128 16 65535 2048 128 256 512 1024 64 16 32 (-40003)
    (fun sid kb =>
       sid ++ match Byte.of_N (Z.to_N (kb mod 256)) with
              | Some b => [b]
              | None => []
              end).

(** A fresh connection on socket [fd] whose buffers hold [cap] bytes. *)
Definition fresh_conn (fd : Z) (st : conn_state) (cap : nat) : pk_conn :=
  mk_conn 128 fd 0 st (repeat x00 cap) 0 (repeat x00 cap) 0 128 0 0 0 0 0
          None 0.

Definition world_of (o : nat -> Z -> io_result) : world :=
  mk_world 0 0 1000 0 o 49152 [] [].

(** Transports that answer every call the same way. *)
Definition would_block : nat -> Z -> io_result :=
  fun _ _ => mk_io (-1) EAGAIN SSL_ERROR_NONE [].
Definition interrupted : nat -> Z -> io_result :=
  fun _ _ => mk_io (-1) EINTR SSL_ERROR_NONE [].
Definition all_fine : nat -> Z -> io_result :=
  fun _ _ => mk_io 0 0 SSL_ERROR_NONE [].

(** A TLS library that wants to read twice and then completes the
    handshake. *)
Definition wants_read_twice : nat -> Z -> io_result :=
  fun n _ =>
    match n with
    | O | S O => mk_io (-1) EAGAIN SSL_ERROR_WANT_READ []
    | _ => mk_io 1 0 SSL_ERROR_NONE []
    end.

(** A TLS library that fails every call with a protocol error and
    leaves [errno] at 0. *)
Definition tls_failure : nat -> Z -> io_result :=
  fun _ _ => mk_io (-1) 0 SSL_ERROR_SSL [].

(** A kernel that hands out socket 5 and lets every later call succeed. *)
Definition listen_ok : nat -> Z -> io_result :=
  fun n _ =>
    match n with
    | O => mk_io 5 0 SSL_ERROR_NONE []
    | _ => mk_io 0 0 SSL_ERROR_NONE []
    end.

(** A peer that has closed: every read returns 0. *)
Definition end_of_file : nat -> Z -> io_result :=
  fun _ _ => mk_io 0 0 SSL_ERROR_NONE [].


(** * The rest of pkconn.c *)

(** ** Process-wide configuration

    The fields of the global [pk_state] that pkconn.c reads, but for the
    log mask.  [ssl_cert_names] is the NULL-terminated array of pinned
    certificate names, [None] for a NULL pointer. *)
Record pk_global_state : Type := mk_pk_state {
  socket_timeout_s : Z;
  ssl_ciphers : list byte;
  ssl_cert_names : option (list (list byte))
}.

(** <openssl/ssl.h>. *)
Definition SSL_MODE_ENABLE_PARTIAL_WRITE : Z := 1.
Definition SSL_MODE_ACCEPT_MOVING_WRITE_BUFFER : Z := 2.
Definition SSL_MODE_AUTO_RETRY : Z := 4.
Definition SSL_MODE_RELEASE_BUFFERS : Z := 16.

Definition with_ssl (v : option nat) (c : pk_conn) : pk_conn :=
  mk_conn (status c) (sockfd c) (activity c) (state c) (in_buffer c)
          (in_buffer_pos c) (out_buffer c) (out_buffer_pos c)
          (send_window_kb c) (read_bytes c) (read_kb c) (sent_kb c)
          (wrote_bytes c) (reported_kb c) v (want_write c).

(** *** More system and library calls *)

Definition PKS_setsockopt (fd timeout : Z) (w : world) : Z * world :=
  let '(r, w1) := transport_io timeout w in (io_ret r, w1).

Definition PKS_connect (fd : Z) (ai : addrinfo) (w : world) : Z * world :=
  let '(r, w1) := transport_io 0 w in (io_ret r, w1).

Definition wait_fd (fd timeout_ms : Z) (w : world) : Z * world :=
  let '(r, w1) := transport_io timeout_ms w in (io_ret r, w1).

Definition SSL_pending (w : world) : Z * world :=
  let '(r, w1) := transport_io 0 w in (io_ret r, w1).

(** [SSL_new]: a session handle, or [None] for NULL. *)
Definition SSL_new (w : world) : option nat * world :=
  let '(r, w1) := transport_io 0 w in
  (if io_ret r =? 0 then None else Some (Z.to_nat (io_ret r)), w1).

(** [SSL_set_mode], [SSL_set_app_data], [SSL_set_cipher_list],
    [SSL_set_fd] and [SSL_set_tlsext_host_name]: the value returned. *)
Definition SSL_setter (arg : Z) (w : world) : Z * world :=
  let '(r, w1) := transport_io arg w in (io_ret r, w1).

Section PkconnRest.

Context {K : pkconn_h}.

(** [ERR_CONNECT_CONNECT] of pkerror.h, a header outside the file
    verified here. *)
Variable ERR_CONNECT_CONNECT : Z.

Variable pk_state : pk_global_state.

(** ** pkc_connect *)

Definition pkc_connect (pkc : pk_conn) (ai : addrinfo) (w : world)
  : Z * pk_conn * world :=
  let to := socket_timeout_s pk_state in
  let '(c0, w0) :=
    pkc_reset_conn pkc
      (Z.lor CONN_STATUS_CHANGING CONN_STATUS_ALLOCATED) w in
  let fail (fd : Z) (w' : world) :=
    (ERR_CONNECT_CONNECT, with_sockfd (-1) c0,
     set_pk_error ERR_CONNECT_CONNECT
       (if 0 <=? fd then PKS_close fd w' else w')) in
  let '(fd, w1) := PKS_socket ai w0 in
  if fd <? 0 then fail fd w1
  else
    let '(r1, w2) := PKS_setsockopt fd to w1 in
    if PKS_fail r1 then fail fd w2
    else
      let '(r2, w3) := PKS_setsockopt fd to w2 in
      if PKS_fail r2 then fail fd w3
      else
        let '(r3, w4) := PKS_connect fd ai w3 in
        if PKS_fail r3 then fail fd w4
        else (fd, with_sockfd fd c0, w4).

(** ** pkc_start_ssl *)

(** The mode bits asked of the session. *)
Definition ssl_mode : Z :=
  Z.lor (Z.lor (Z.lor SSL_MODE_ACCEPT_MOVING_WRITE_BUFFER SSL_MODE_AUTO_RETRY)
               SSL_MODE_ENABLE_PARTIAL_WRITE)
        SSL_MODE_RELEASE_BUFFERS.

(** The host name sent to the server: the single pinned certificate
    name if there is exactly one, none if names are pinned otherwise, and
    the caller's own when no names are pinned. *)
Definition sni_hostname (hostname : option (list byte))
  : option (list byte) :=
  match ssl_cert_names pk_state with
  | Some names =>
      match names with
      | [name] => Some name
      | _ => None
      end
  | None => hostname
  end.

Definition pkc_start_ssl (pkc : pk_conn) (hostname : option (list byte))
    (w : world) : Z * pk_conn * world :=
  let mode := ssl_mode in
  let hostname' := sni_hostname hostname in
  let fail (c : pk_conn) (w' : world) :=
    (-1, with_ssl None c,
     match ssl c with Some h => SSL_free h w' | None => w' end) in
  let '(s, w1) := SSL_new w in
  let c1 := with_ssl s pkc in
  match s with
  | None => fail c1 w1
  | Some _ =>
      let '(sm, w2) := SSL_setter mode w1 in
      if negb (mode =? Z.land mode sm) then fail c1 w2
      else
        let '(sa, w3) := SSL_setter 0 w2 in
        if negb (sa =? 1) then fail c1 w3
        else
          let '(sc, w4) := SSL_setter 0 w3 in
          if negb (sc =? 1) then fail c1 w4
          else
            let '(sf, w5) := SSL_setter (sockfd c1) w4 in
            if negb (sf =? 1) then fail c1 w5
            else
              let '(st, w6) :=
                match hostname' with
                | None => (1, w5)
                | Some _ => SSL_setter 0 w5
                end in
              if negb (st =? 1) then fail c1 w6
              else
                let c2 := pkc_start_handshake c1 SSL_ERROR_WANT_WRITE in
                let '(c3, w7) := pkc_do_handshake c2 w6 in
                (if has_flag CONN_STATUS_BROKEN c3 then -1 else 0, c3, w7)
  end.

(** ** pkc_wait *)

(** The loop of [pkc_wait], which waits again while the wait is
    interrupted. *)
Fixpoint wait_loop (fuel : nat) (fd timeout_ms : Z) (w : world)
  : option (Z * world) :=
  match fuel with
  | O => None
  | S fuel' =>
      let '(rv, w1) := wait_fd fd timeout_ms w in
      if (rv <? 0) && (errno w1 =? EINTR)
      then wait_loop fuel' fd timeout_ms w1
      else Some (rv, w1)
  end.

Definition pkc_wait (fuel : nat) (pkc : pk_conn) (timeout_ms : Z) (w : world)
  : option (Z * world) :=
  let w0 := set_non_blocking (sockfd pkc) w in
  match wait_loop fuel (sockfd pkc) timeout_ms w0 with
  | None => None
  | Some (rv, w1) => Some (rv, set_blocking (sockfd pkc) w1)
  end.

(** ** pkc_pending *)

Definition pkc_pending (pkc : pk_conn) (w : world) : Z * world :=
  match state pkc with
  | CONN_SSL_DATA | CONN_SSL_HANDSHAKE => SSL_pending w
  | CONN_CLEAR_DATA => (0, w)
  end.

End PkconnRest.

(** A caller that submits the chunks of [chunks] one after the other and
    stops at the first call that does not return the length it was
    given. *)
Fixpoint write_each {K : pkconn_h} (fuel : nat) (c : pk_conn)
    (chunks : list (list byte)) (w : world) : option (pk_conn * world) :=
  match chunks with
  | [] => Some (c, w)
  | d :: rest =>
      match pkc_write fuel c d (Z.of_nat (length d)) w with
      | Some (rv, c1, w1) =>
          if rv =? Z.of_nat (length d) then write_each fuel c1 rest w1
          else None
      | None => None
      end
  end.

(** A transport that takes all it is given. *)
Definition takes_all : nat -> Z -> io_result :=
  fun _ len => mk_io len 0 SSL_ERROR_NONE [].

(** A wait that is interrupted twice before socket activity is
    reported. *)
Definition interrupted_twice : nat -> Z -> io_result :=
  fun n _ =>
    match n with
    | O | S O => mk_io (-1) EINTR SSL_ERROR_NONE []
    | _ => mk_io 1 0 SSL_ERROR_NONE []
    end.

(** A kernel that hands out socket 5 and then refuses everything. *)
Definition socket_then_refuse : nat -> Z -> io_result :=
  fun n _ =>
    match n with
    | O => mk_io 5 0 SSL_ERROR_NONE []
    | _ => mk_io (-1) 111 SSL_ERROR_NONE []
    end.

(** The transport changes its behaviour: from now on calls are answered
    by [o]. *)
Definition set_oracle (o : nat -> Z -> io_result) (w : world) : world :=
  mk_world (errno w) (pk_error w) (clock w) (tick w) o (ephemeral w)
           (socks w) (trace w).

(** [pkc_read] called [n] times in a row. *)
Fixpoint read_steps {K : pkconn_h} (n : nat) (c : pk_conn) (w : world)
  : pk_conn * world :=
  match n with
  | O => (c, w)
  | S n' => let '(_, c1, w1) := pkc_read c w in read_steps n' c1 w1
  end.

(** A transport that takes or hands over at most two bytes at a time. *)
Definition two_at_a_time : nat -> Z -> io_result :=
  fun _ len => mk_io (Z.min len 2) 0 SSL_ERROR_NONE [x41; x42].

(** A peer that has three bytes to give. *)
Definition serves_three : nat -> Z -> io_result :=
  fun _ len => mk_io (Z.min len 3) 0 SSL_ERROR_NONE [x41; x42; x43].

(** A TLS library that creates session 9 and refuses the first setting
    made on it. *)
Definition session_then_refuse : nat -> Z -> io_result :=
  fun n _ =>
    match n with
    | O => mk_io 9 0 SSL_ERROR_NONE []
    | _ => mk_io 0 0 SSL_ERROR_NONE []
    end.

(** A TLS library that creates session 9, grants the mode bits asked
    for, accepts every setting and completes the handshake at once. *)
Definition tls_ready : nat -> Z -> io_result :=
  fun n len =>
    match n with
    | O => mk_io 9 0 SSL_ERROR_NONE []
    | S O => mk_io len 0 SSL_ERROR_NONE []
    | _ => mk_io 1 0 SSL_ERROR_NONE []
    end.

(** A configuration with a timeout of 30 seconds and no pinned
    certificate names. *)
Definition sample_state : pk_global_state := mk_pk_state 30 [] None.

(** A connection with the three bytes ABC waiting in its output
    buffer. *)
Definition conn_with_abc : pk_conn :=
  with_output ([x41; x42; x43] ++ repeat x00 47) 3
    (fresh_conn 7 CONN_CLEAR_DATA 50).

Definition with_activity (v : Z) (c : pk_conn) : pk_conn :=
  mk_conn (status c) (sockfd c) v (state c) (in_buffer c)
          (in_buffer_pos c) (out_buffer c) (out_buffer_pos c)
          (send_window_kb c) (read_bytes c) (read_kb c) (sent_kb c)
          (wrote_bytes c) (reported_kb c) (ssl c) (want_write c).

(** * Vocabulary of the statements *)

Section PkconnVocabulary.

Context {K : pkconn_h}.

(** A flag set is made of connection status bits only, and the flag set
    of a connection is what its status word holds under that mask. *)
Definition is_flag_set (F : Z) : Prop := Z.land F (Z.lnot CONN_STATUS_BITS) = 0.
Definition flag_set (c : pk_conn) : Z := Z.land (status c) CONN_STATUS_BITS.

(** The platform error codes after which [pkc_read] asks for a retry. *)
Definition retryable_errno (e : Z) : bool :=
  (e =? 0) || (e =? EINTR) || (e =? EAGAIN).

(** A call to [pkc_read] reaches the transport unless the connection is
    in the middle of a handshake that is not broken. *)
Definition reaches_transport (c : pk_conn) : Prop :=
  state c <> CONN_SSL_HANDSHAKE \/ has_flag CONN_STATUS_BROKEN c = true.

(** The TLS conditions that [pkc_read] classifies by [errno]. *)
Definition tls_defers_to_errno (e : Z) : Prop :=
  e = SSL_ERROR_WANT_READ \/ e = SSL_ERROR_SYSCALL \/ e = SSL_ERROR_NONE.

(** The classification of read results by the result and the platform
    error code alone. *)
Definition read_classified_by_errno (c : pk_conn) (w : world) : Prop :=
  let '(rv, c', w') := pkc_read c w in
  (rv = 0 ->
   has_flag CONN_STATUS_CLS_READ c' = true /\
   has_flag CONN_STATUS_BROKEN c' = has_flag CONN_STATUS_BROKEN c) /\
  (rv < 0 -> retryable_errno (errno w') = true -> status c' = status c) /\
  (rv < 0 -> retryable_errno (errno w') = false ->
   has_flag CONN_STATUS_BROKEN c' = true) /\
  (0 < rv -> in_buffer_pos c' = in_buffer_pos c + rv).

(** The three calls that set up a listening socket all succeed. *)
Definition listen_succeeds (backlog : Z) (w : world) : Prop :=
  0 <= io_ret (oracle w (tick w) 0) /\
  0 <= io_ret (oracle w (S (tick w)) 0) /\
  0 <= io_ret (oracle w (S (S (tick w))) backlog).

(** The result of a successful listen read off the requested port
    alone: the assigned port for port 0, the value 1 otherwise. *)
Definition listen_result_by_request (c : pk_conn) (ai : addrinfo)
    (backlog : Z) (w : world) : Prop :=
  let '(rv, c', w') := pkc_listen c ai backlog w in
  (ai_port ai = 0 -> rv = ephemeral w) /\
  (ai_port ai <> 0 -> rv = 1).

(** The bytes of the output buffer that wait to be sent. *)
Definition pending (c : pk_conn) : list byte :=
  bytes_at (out_buffer c) (out_buffer_pos c).

(** The output buffer is an array of [CONN_IO_BUFFER_SIZE] bytes and its
    offset lies within it. *)
Definition conn_wf (c : pk_conn) : Prop :=
  0 <= out_buffer_pos c <= CONN_IO_BUFFER_SIZE /\
  Z.of_nat (length (out_buffer c)) = CONN_IO_BUFFER_SIZE.

(** A transport that, asked to write [len > 0] bytes, never takes more
    than [len] and never reports that it took none. *)
Definition well_behaved (w : world) : Prop :=
  forall n len, 0 < len ->
    io_ret (oracle w n len) <> 0 /\ io_ret (oracle w n len) <= len.



(** The status of [c'] is the status of [c], but for ClosedForWrite which
    may have been raised. *)
Definition status_marked (c c' : pk_conn) : Prop :=
  status c' = status c \/
  status c' = Z.lor (status c) CONN_STATUS_CLS_WRITE.

(** [c1] is [c] but for the counter of bytes written. *)
Definition same_but_counter (c c1 : pk_conn) : Prop :=
  status c1 = status c /\ sockfd c1 = sockfd c /\ state c1 = state c /\
  out_buffer c1 = out_buffer c /\ out_buffer_pos c1 = out_buffer_pos c.

(** From [(c, w)] to [(c', w')] the connection stayed a well-formed
    plain-data connection on the same socket over the same transport, and
    no byte was lost or reordered: what was sent or waits in the buffer
    after is what was sent or waited before, followed by [extra]. *)
Definition stream_kept (c : pk_conn) (w : world) (extra : list byte)
    (c' : pk_conn) (w' : world) : Prop :=
  state c' = CONN_CLEAR_DATA /\ sockfd c' = sockfd c /\ conn_wf c' /\
  oracle w' = oracle w /\
  sent (sockfd c) w' ++ pending c' = sent (sockfd c) w ++ pending c ++ extra.

(** A transport on which every call fails with "would block". *)
Definition always_would_block (w : world) : Prop :=
  forall n len,
    io_ret (oracle w n len) = -1 /\ io_errno (oracle w n len) = EAGAIN.


(** The overflow scenario read literally: after the call the output
    buffer holds [n] bytes. *)
Definition write_fills_buffer (fuel : nat) (c : pk_conn) (data : list byte)
    (w : world) (n : Z) : Prop :=
  exists rv c' w',
    pkc_write fuel c data (Z.of_nat (length data)) w = Some (rv, c', w') /\
    out_buffer_pos c' = n.

(** Step 2b of [pkc_write] was reached and failed.  After the flush of
    step 1 and the direct write of step 2 the connection and the world
    were [c2] and [w2], the first [k] bytes of the data having gone out
    and nothing having been lost; the [len - k] bytes left did not fit
    the free space of the output buffer and were handed to a blocking
    flush, which returned a negative value and left [c'] and [w']. *)
Definition blocking_flush_failed (fuel : nat) (c : pk_conn) (data : list byte)
    (w : world) (c' : pk_conn) (w' : world) : Prop :=
  exists (c2 : pk_conn) (w2 : world) (k r : Z),
    0 <= k <= Z.of_nat (length data) /\
    stream_kept c w (bytes_at data k) c2 w2 /\
    PKC_OUT_FREE c2 < Z.of_nat (length data) - k /\
    pkc_flush fuel c2 (Some (ptr_add data k)) (Z.of_nat (length data) - k)
              BLOCKING_FLUSH w2 = Some (r, c', w') /\
    r < 0.



End PkconnVocabulary.

(** * Vocabulary of the further statements *)

Section PkconnMoreVocabulary.

Context {K : pkconn_h}.

(** The events of the write path on socket [fd]: bytes written to it and
    changes of its blocking mode. *)
Definition write_event (fd : Z) (e : event) : Prop :=
  match e with
  | EvWrite f _ | EvBlocking f | EvNonBlocking f => f = fd
  | EvClose _ | EvSslFree _ => False
  end.

(** What the write path leaves alone in a connection: the socket, the
    input side, the flow-control and report counters and the TLS session;
    and the counter of bytes written does not go down. *)
Definition conn_frame (c c' : pk_conn) : Prop :=
  sockfd c' = sockfd c /\ in_buffer c' = in_buffer c /\
  in_buffer_pos c' = in_buffer_pos c /\ activity c' = activity c /\
  read_bytes c' = read_bytes c /\ read_kb c' = read_kb c /\
  sent_kb c' = sent_kb c /\ send_window_kb c' = send_window_kb c /\
  reported_kb c' = reported_kb c /\ ssl c' = ssl c /\
  wrote_bytes c <= wrote_bytes c'.

(** What the write path on socket [fd] does to the world: calls are
    answered, and the events added all belong to the write path on
    [fd]. *)
Definition world_frame (fd : Z) (w w' : world) : Prop :=
  oracle w' = oracle w /\ clock w' = clock w /\ socks w' = socks w /\
  ephemeral w' = ephemeral w /\ pk_error w' = pk_error w /\
  (tick w <= tick w')%nat /\
  exists l, trace w' = trace w ++ l /\ Forall (write_event fd) l.

Definition write_frame (c : pk_conn) (w : world) (c' : pk_conn) (w' : world)
  : Prop :=
  conn_frame c c' /\ world_frame (sockfd c) w w'.

(** A transport that never hands a read more bytes than it asked for. *)
Definition reads_bounded (w : world) : Prop :=
  forall n len, 0 <= len -> io_ret (oracle w n len) <= len.

(** The bytes read so far, as the two read counters hold them. *)
Definition read_total (c : pk_conn) : Z := 1024 * read_kb c + read_bytes c.

(** The bytes written and not yet reported, with those reported. *)
Definition written_total (c : pk_conn) : Z :=
  1024 * reported_kb c + wrote_bytes c.

(** What a read leaves alone in a connection: the socket, the output
    side, the write and report counters, the TLS session and the
    remembered write length. *)
Definition read_frame (c c' : pk_conn) : Prop :=
  sockfd c' = sockfd c /\ out_buffer c' = out_buffer c /\
  out_buffer_pos c' = out_buffer_pos c /\ wrote_bytes c' = wrote_bytes c /\
  reported_kb c' = reported_kb c /\ sent_kb c' = sent_kb c /\
  send_window_kb c' = send_window_kb c /\ ssl c' = ssl c /\
  want_write c' = want_write c.

(** The input buffer is an array of [CONN_IO_BUFFER_SIZE] bytes and its
    offset lies within it. *)
Definition in_wf (c : pk_conn) : Prop :=
  0 <= in_buffer_pos c <= CONN_IO_BUFFER_SIZE /\
  Z.of_nat (length (in_buffer c)) = CONN_IO_BUFFER_SIZE.

(** The bytes read and still held in the input buffer. *)
Definition received (c : pk_conn) : list byte :=
  bytes_at (in_buffer c) (in_buffer_pos c).


End PkconnMoreVocabulary.


Section PkconnRestVocabulary.

Context {K : pkconn_h}.
Variable pk_state : pk_global_state.

(** The four calls that set up an outgoing socket all succeed. *)
Definition connect_succeeds (w : world) : Prop :=
  0 <= io_ret (oracle w (tick w) 0) /\
  0 <= io_ret (oracle w (1 + tick w)%nat (socket_timeout_s pk_state)) /\
  0 <= io_ret (oracle w (2 + tick w)%nat (socket_timeout_s pk_state)) /\
  0 <= io_ret (oracle w (3 + tick w)%nat 0).

(** The event that releases a socket the kernel handed out: none when
    the kernel refused. *)
Definition closes_created (fd : Z) : list event :=
  if fd <? 0 then [] else [EvClose fd].

(** The TLS library creates a session and accepts each of the settings
    made on it; the host name is only set when one is to be sent. *)
Definition ssl_setup_succeeds (c : pk_conn) (hostname : option (list byte))
    (w : world) : Prop :=
  io_ret (oracle w (tick w) 0) <> 0 /\
  ssl_mode = Z.land ssl_mode (io_ret (oracle w (1 + tick w)%nat ssl_mode)) /\
  io_ret (oracle w (2 + tick w)%nat 0) = 1 /\
  io_ret (oracle w (3 + tick w)%nat 0) = 1 /\
  io_ret (oracle w (4 + tick w)%nat (sockfd c)) = 1 /\
  (sni_hostname pk_state hostname <> None ->
   io_ret (oracle w (5 + tick w)%nat 0) = 1).

(** The number of library calls made before the handshake starts. *)
Definition ssl_setup_calls (hostname : option (list byte)) : nat :=
  match sni_hostname pk_state hostname with
  | None => 5
  | Some _ => 6
  end.

(** A wait that is interrupted. *)
Definition wait_interrupted (r : io_result) : Prop :=
  io_ret r < 0 /\ io_errno r = EINTR.

End PkconnRestVocabulary.
(** * Properties *)

(** ** Bit masks *)

Lemma mask_replace (s B F : Z) :
  Z.land F (Z.lnot B) = 0 ->
  Z.land (Z.lor (Z.land s (Z.lnot B)) F) B = F.
Proof.
  intros HF. apply Z.bits_inj'. intros n Hn.
  assert (Hb : Z.testbit (Z.land F (Z.lnot B)) n = false)
    by (rewrite HF; apply Z.bits_0).
  rewrite Z.land_spec, Z.lnot_spec in Hb by lia.
  rewrite Z.land_spec, Z.lor_spec, Z.land_spec, Z.lnot_spec by lia.
  destruct (Z.testbit s n), (Z.testbit B n), (Z.testbit F n);
    simpl in *; congruence.
Qed.

Lemma mask_keep (s B F : Z) :
  Z.land s (Z.lnot B) = 0 ->
  Z.lor (Z.land s (Z.lnot B)) F = F.
Proof. intros ->. apply Z.lor_0_l. Qed.

Lemma land_cleared_l (s a b : Z) :
  Z.land (Z.land s (Z.lnot (Z.lor a b))) a = 0.
Proof.
  apply Z.bits_inj'. intros n Hn.
  rewrite !Z.land_spec, Z.lnot_spec, Z.lor_spec, Z.bits_0 by lia.
  destruct (Z.testbit s n), (Z.testbit a n), (Z.testbit b n); reflexivity.
Qed.

Lemma land_cleared_r (s a b : Z) :
  Z.land (Z.land s (Z.lnot (Z.lor a b))) b = 0.
Proof.
  apply Z.bits_inj'. intros n Hn.
  rewrite !Z.land_spec, Z.lnot_spec, Z.lor_spec, Z.bits_0 by lia.
  destruct (Z.testbit s n), (Z.testbit a n), (Z.testbit b n); reflexivity.
Qed.

Lemma land_raised (s f : Z) : Z.land (Z.lor s f) f = f.
Proof.
  apply Z.bits_inj'. intros n Hn.
  rewrite Z.land_spec, Z.lor_spec.
  destruct (Z.testbit s n), (Z.testbit f n); reflexivity.
Qed.

Lemma land_raised_other (s f g : Z) :
  Z.land f g = 0 -> Z.land (Z.lor s f) g = Z.land s g.
Proof.
  intros H. rewrite Z.land_lor_distr_l, H. apply Z.lor_0_r.
Qed.

Lemma conn_state_eq_dec (a b : conn_state) : {a = b} + {a <> b}.
Proof. decide equality. Defined.

(** ** The world *)

Lemma sent_emit (fd : Z) (e : event) (w : world) :
  sent fd (emit e w) = sent fd w ++ sent_by fd e.
Proof.
  unfold sent, emit. simpl. rewrite flat_map_app. simpl.
  now rewrite app_nil_r.
Qed.

Lemma sent_set_errno (fd v : Z) (w : world) :
  sent fd (set_errno v w) = sent fd w.
Proof. reflexivity. Qed.

Lemma blocking_mode_emit (fd : Z) (e : event) (w : world) :
  blocking_mode fd (emit e w) = mode_after fd (blocking_mode fd w) e.
Proof.
  unfold blocking_mode, emit. simpl. now rewrite fold_left_app.
Qed.

(** ** Bytes and buffers *)

Lemma bytes_at_all (d : list byte) (n : Z) :
  Z.of_nat (length d) <= n -> bytes_at d n = d.
Proof. intros H. unfold bytes_at. apply firstn_all2. lia. Qed.

Lemma bytes_at_nil (d : list byte) (n : Z) : n <= 0 -> bytes_at d n = [].
Proof.
  intros H. unfold bytes_at. replace (Z.to_nat n) with O by lia. reflexivity.
Qed.

Lemma bytes_at_split (d : list byte) (n m : Z) :
  0 <= n -> 0 <= m ->
  bytes_at d (n + m) = bytes_at d n ++ bytes_at (ptr_add d n) m.
Proof.
  intros Hn Hm. unfold bytes_at, ptr_add.
  rewrite Z2Nat.inj_add by lia.
  rewrite <- (firstn_skipn (Z.to_nat n) d) at 1.
  rewrite firstn_app, firstn_firstn.
  rewrite length_firstn.
  rewrite (Nat.min_r (Z.to_nat n + Z.to_nat m) (Z.to_nat n)) by lia.
  destruct (Nat.le_gt_cases (Z.to_nat n) (length d)) as [Hle|Hgt].
  - rewrite Nat.min_l by lia. f_equal. f_equal. lia.
  - rewrite (skipn_all2 d) by lia. now rewrite !firstn_nil.
Qed.

Lemma ptr_add_add (d : list byte) (n m : Z) :
  0 <= n -> 0 <= m -> ptr_add (ptr_add d n) m = ptr_add d (n + m).
Proof.
  intros Hn Hm. unfold ptr_add. rewrite skipn_skipn.
  f_equal. lia.
Qed.

Lemma ptr_add_0 (d : list byte) : ptr_add d 0 = d.
Proof. reflexivity. Qed.

Lemma bytes_at_length (d : list byte) (n : Z) :
  0 <= n <= Z.of_nat (length d) -> Z.of_nat (length (bytes_at d n)) = n.
Proof.
  intros H. unfold bytes_at. rewrite length_firstn. lia.
Qed.

Lemma ptr_add_length (d : list byte) (n : Z) :
  0 <= n <= Z.of_nat (length d) ->
  Z.of_nat (length (ptr_add d n)) = Z.of_nat (length d) - n.
Proof.
  intros H. unfold ptr_add. rewrite length_skipn. lia.
Qed.

Lemma mem_write_length (buf : list byte) (off : nat) (src : list byte) :
  (off + length src <= length buf)%nat ->
  length (mem_write buf off src) = length buf.
Proof.
  intros H. unfold mem_write.
  rewrite !length_app, length_firstn, length_skipn. lia.
Qed.

Lemma mem_write_prefix (buf : list byte) (off : nat) (src : list byte) :
  (off <= length buf)%nat ->
  firstn (off + length src) (mem_write buf off src) = firstn off buf ++ src.
Proof.
  intros H. unfold mem_write. rewrite app_assoc.
  rewrite firstn_app.
  rewrite length_app, length_firstn, Nat.min_l by lia.
  replace (off + length src - (off + length src))%nat with O by lia.
  rewrite firstn_O, app_nil_r. apply firstn_all2.
  rewrite length_app, length_firstn. lia.
Qed.


Section PkconnFacts.

Context {K : pkconn_h}.

(** ** Reset *)

(** C2.  After [pkc_reset_conn] with the flag set [F], whatever the
    connection was: the socket handle is -1, both buffer offsets and the
    five counters are 0, the send window is the initial constant, the
    state is plain data and the flag set of the connection is exactly
    [F].  The status word itself is [F] on top of the bits the mask
    [CONN_STATUS_BITS] does not cover, so it is [F] itself when the
    connection carried no such bit. *)
Theorem reset_conn_baseline (c : pk_conn) (F : Z) (w : world) :
  is_flag_set F ->
  let c' := fst (pkc_reset_conn c F w) in
  sockfd c' = -1 /\
  in_buffer_pos c' = 0 /\ out_buffer_pos c' = 0 /\
  read_bytes c' = 0 /\ read_kb c' = 0 /\ sent_kb c' = 0 /\
  wrote_bytes c' = 0 /\ reported_kb c' = 0 /\
  send_window_kb c' = CONN_WINDOW_SIZE_KB_INITIAL /\
  state c' = CONN_CLEAR_DATA /\
  flag_set c' = F /\
  status c' = Z.lor (Z.land (status c) (Z.lnot CONN_STATUS_BITS)) F /\
  (Z.land (status c) (Z.lnot CONN_STATUS_BITS) = 0 -> status c' = F).
Proof.
  intros HF c'. subst c'. unfold pkc_reset_conn, flag_set. simpl.
  repeat split; try reflexivity.
  - now apply mask_replace.
  - intros Hc. now apply mask_keep.
Qed.

(** ** The handshake driver *)

Lemma do_handshake_tick (c : pk_conn) (w : world) :
  tick (snd (pkc_do_handshake c w)) = S (tick w) /\
  oracle (snd (pkc_do_handshake c w)) = oracle w.
Proof.
  unfold pkc_do_handshake, SSL_do_handshake, transport_io,
    pkc_reset_error_state. simpl.
  destruct (io_ret _ =? 1); [now split|].
  destruct (SSL_get_error _ =? SSL_ERROR_WANT_READ); [now split|].
  destruct (SSL_get_error _ =? SSL_ERROR_WANT_WRITE); now split.
Qed.

Lemma do_handshake_done (c : pk_conn) (w : world) :
  io_ret (oracle w (tick w) 0) = 1 ->
  fst (pkc_do_handshake c w) = pkc_end_handshake c.
Proof.
  intros H. unfold pkc_do_handshake, SSL_do_handshake, transport_io,
    pkc_reset_error_state. simpl. rewrite H. reflexivity.
Qed.

Lemma do_handshake_want_read (c : pk_conn) (w : world) :
  io_ret (oracle w (tick w) 0) <> 1 ->
  io_ssl_error (oracle w (tick w) 0) = SSL_ERROR_WANT_READ ->
  fst (pkc_do_handshake c w) = raise_flag CONN_STATUS_WANT_READ c.
Proof.
  intros H1 H2. unfold pkc_do_handshake, SSL_do_handshake, transport_io,
    pkc_reset_error_state, SSL_get_error. simpl.
  apply Z.eqb_neq in H1. rewrite H1, H2. reflexivity.
Qed.

Lemma end_handshake_clear (c : pk_conn) :
  state (pkc_end_handshake c) = CONN_SSL_DATA /\
  Z.land (status (pkc_end_handshake c)) CONN_STATUS_WANT_READ = 0 /\
  Z.land (status (pkc_end_handshake c)) CONN_STATUS_WANT_WRITE = 0.
Proof.
  unfold pkc_end_handshake. simpl. split; [reflexivity|]. split.
  - apply land_cleared_r.
  - apply land_cleared_l.
Qed.

Lemma handshake_steps_complete (n : nat) :
  forall (c : pk_conn) (w : world),
    (forall k, (k < n)%nat ->
       io_ret (oracle w (tick w + k)%nat 0) <> 1 /\
       io_ssl_error (oracle w (tick w + k)%nat 0) = SSL_ERROR_WANT_READ) ->
    io_ret (oracle w (tick w + n)%nat 0) = 1 ->
    exists c0, fst (handshake_steps (S n) c w) = pkc_end_handshake c0.
Proof.
  induction n as [|n IH]; intros c w Hwant Hdone.
  - exists c. rewrite Nat.add_0_r in Hdone. simpl.
    pose proof (do_handshake_done c w Hdone) as E.
    destruct (pkc_do_handshake c w) as [c1 w1]. simpl in *. now subst.
  - change (handshake_steps (S (S n)) c w)
      with (let '(c1, w1) := pkc_do_handshake c w in
            handshake_steps (S n) c1 w1).
    destruct (do_handshake_tick c w) as [Ht Ho].
    destruct (pkc_do_handshake c w) as [c1 w1]. simpl in Ht, Ho.
    apply IH.
    + intros k Hk. rewrite Ht, Ho.
      replace (S (tick w) + k)%nat with (tick w + S k)%nat by lia.
      apply Hwant. lia.
    + rewrite Ht, Ho.
      replace (S (tick w) + n)%nat with (tick w + S n)%nat by lia.
      exact Hdone.
Qed.

(** C4.  One step of the handshake driver ends in one of three ways,
    decided by what the TLS library answers: when it reports completion,
    WantRead and WantWrite are both clear and the state is TLS data; when
    it wants to read (or to write), WantRead (or WantWrite) is set and
    the state is as before, so it stays at TLS handshake; on any other
    error Broken is set and errno is ECONNRESET.  And a handshake that
    wants to read [n] times and then completes, driven [n + 1] times,
    ends in TLS data with both flags clear. *)
Theorem do_handshake_outcomes (c : pk_conn) (w : world) :
  let r := oracle w (tick w) 0 in
  let c' := fst (pkc_do_handshake c w) in
  let w' := snd (pkc_do_handshake c w) in
  ((io_ret r = 1 /\
    Z.land (status c') CONN_STATUS_WANT_READ = 0 /\
    Z.land (status c') CONN_STATUS_WANT_WRITE = 0 /\
    state c' = CONN_SSL_DATA)
   \/
   (io_ret r <> 1 /\
    ((io_ssl_error r = SSL_ERROR_WANT_READ /\
      status c' = Z.lor (status c) CONN_STATUS_WANT_READ /\
      Z.land (status c') CONN_STATUS_WANT_READ = CONN_STATUS_WANT_READ)
     \/
     (io_ssl_error r = SSL_ERROR_WANT_WRITE /\
      status c' = Z.lor (status c) CONN_STATUS_WANT_WRITE /\
      Z.land (status c') CONN_STATUS_WANT_WRITE = CONN_STATUS_WANT_WRITE)) /\
    state c' = state c /\
    (state c = CONN_SSL_HANDSHAKE -> state c' = CONN_SSL_HANDSHAKE))
   \/
   (io_ret r <> 1 /\
    io_ssl_error r <> SSL_ERROR_WANT_READ /\
    io_ssl_error r <> SSL_ERROR_WANT_WRITE /\
    status c' = Z.lor (status c) CONN_STATUS_BROKEN /\
    Z.land (status c') CONN_STATUS_BROKEN = CONN_STATUS_BROKEN /\
    errno w' = ECONNRESET /\
    state c' = state c))
  /\
  (forall n : nat,
     (forall k, (k < n)%nat ->
        io_ret (oracle w (tick w + k)%nat 0) <> 1 /\
        io_ssl_error (oracle w (tick w + k)%nat 0) = SSL_ERROR_WANT_READ) ->
     io_ret (oracle w (tick w + n)%nat 0) = 1 ->
     let cn := fst (handshake_steps (S n) c w) in
     state cn = CONN_SSL_DATA /\
     Z.land (status cn) CONN_STATUS_WANT_READ = 0 /\
     Z.land (status cn) CONN_STATUS_WANT_WRITE = 0).
Proof.
  intros r c' w'. split.
  - subst r c' w'.
    unfold pkc_do_handshake, SSL_do_handshake, transport_io,
      pkc_reset_error_state, SSL_get_error. simpl.
    destruct (io_ret (oracle w (tick w) 0) =? 1) eqn:E1.
    { left. apply Z.eqb_eq in E1.
      destruct (end_handshake_clear c) as (Hs & Hr & Hw). simpl. tauto. }
    apply Z.eqb_neq in E1. right.
    destruct (io_ssl_error (oracle w (tick w) 0) =? SSL_ERROR_WANT_READ)
      eqn:E2.
    { left. apply Z.eqb_eq in E2. simpl.
      repeat split; auto. left. repeat split; auto. apply land_raised. }
    destruct (io_ssl_error (oracle w (tick w) 0) =? SSL_ERROR_WANT_WRITE)
      eqn:E3.
    { left. apply Z.eqb_eq in E3. simpl.
      repeat split; auto. right. repeat split; auto. apply land_raised. }
    right. apply Z.eqb_neq in E2, E3. simpl.
    repeat split; auto. apply land_raised.
  - intros n Hwant Hdone cn. subst cn.
    destruct (handshake_steps_complete n c w Hwant Hdone) as [c0 ->].
    apply end_handshake_clear.
Qed.

(** ** Flush on a connection without a socket *)

(** C10.  On a connection whose socket handle is negative, [pkc_flush]
    in either mode, with or without new data and with any fuel, returns
    -1 at once: the connection (output buffer, counters and status
    flags included) is the one it was given, no call reaches the
    transport and the blocking mode of no socket is touched. *)
Theorem flush_invalid_socket (fuel : nat) (c : pk_conn)
    (data : option (list byte)) (len : Z) (mode : flush_mode) (w : world) :
  sockfd c < 0 ->
  exists w',
    pkc_flush fuel c data len mode w = Some (-1, c, w') /\
    trace w' = trace w /\
    tick w' = tick w /\
    (forall fd, blocking_mode fd w' = blocking_mode fd w).
Proof.
  intros Hfd. exists (set_errno 0 w). unfold pkc_flush.
  apply Z.ltb_lt in Hfd. rewrite Hfd. repeat split; reflexivity.
Qed.

(** ** Listen *)

Lemma reset_conn_world (c : pk_conn) (F : Z) (w : world) :
  let w' := snd (pkc_reset_conn c F w) in
  tick w' = tick w /\ oracle w' = oracle w /\ ephemeral w' = ephemeral w.
Proof.
  unfold pkc_reset_conn. simpl.
  destruct (0 <=? sockfd c), (ssl c); simpl; auto.
Qed.

Lemma ntohs_htons (p : Z) : 0 <= p < 65536 -> ntohs (htons p) = p.
Proof.
  intros Hp. unfold ntohs, htons. simpl.
  rewrite (Z.mod_small (p / 256) 256).
  - pose proof (Z.div_mod p 256). lia.
  - split; [apply Z.div_pos; lia | apply Z.div_lt_upper_bound; lia].
Qed.

(** C7, as the code has it.  When socket creation, bind and listen all
    succeed, the connection holds the new socket, and the result is
    decided by the local-address query: when the query succeeds the call
    returns the port the socket is bound to, which is the port the kernel
    assigned when port 0 was requested and the requested port itself
    otherwise; when the query fails the call returns 1. *)
Theorem listen_result (c : pk_conn) (ai : addrinfo) (backlog : Z) (w : world) :
  listen_succeeds backlog w ->
  0 <= ai_port ai < 65536 ->
  0 <= ephemeral w < 65536 ->
  let '(rv, c', w') := pkc_listen c ai backlog w in
  sockfd c' = io_ret (oracle w (tick w) 0) /\
  (io_ret (oracle w (S (S (S (tick w)))) 0) <> -1 ->
   rv = if ai_port ai =? 0 then ephemeral w else ai_port ai) /\
  (io_ret (oracle w (S (S (S (tick w)))) 0) = -1 -> rv = 1).
Proof.
  intros (Hs & Hb & Hl) Hp He. unfold pkc_listen.
  pose proof (reset_conn_world c
    (Z.lor (Z.lor CONN_STATUS_CHANGING CONN_STATUS_ALLOCATED)
           CONN_STATUS_LISTENING) w) as Hw.
  destruct (pkc_reset_conn c _ w) as [c0 w0]. simpl in Hw.
  destruct Hw as (Ht & Ho & Hep).
  unfold PKS_socket, PKS_bind, PKS_listen, getsockname, transport_io, PKS_fail.
  simpl. rewrite Ht, Ho, Hep.
  assert (E1 : (io_ret (oracle w (tick w) 0) <? 0) = false) by lia.
  assert (E2 : (io_ret (oracle w (S (tick w)) 0) <? 0) = false) by lia.
  assert (E3 : (io_ret (oracle w (S (S (tick w))) backlog) <? 0) = false)
    by lia.
  rewrite E1, E2. simpl. rewrite E3. simpl.
  rewrite Z.eqb_refl.
  destruct (io_ret (oracle w (S (S (S (tick w)))) 0) =? -1) eqn:E4; simpl.
  - apply Z.eqb_eq in E4. split; [reflexivity|].
    split; intros H; [congruence | reflexivity].
  - apply Z.eqb_neq in E4. split; [reflexivity|].
    split; intros H; [|congruence].
    change (ntohs (htons (if ai_port ai =? 0 then ephemeral w
                                    else ai_port ai)) =
                      (if ai_port ai =? 0 then ephemeral w else ai_port ai)).
    apply ntohs_htons. destruct (ai_port ai =? 0); lia.
Qed.

(** ** Read *)

Lemma fold_kb_spec (n : nat) :
  forall rb rkb : Z,
    0 <= rb -> rb / 1024 <= Z.of_nat n ->
    fold_kb n rb rkb = (rb mod 1024, rkb + rb / 1024).
Proof.
  induction n as [|n IH]; intros rb rkb Hrb Hn; simpl fold_kb.
  - assert (rb < 1024).
    { destruct (Z_lt_ge_dec rb 1024) as [|Hge]; [assumption|].
      assert (1 <= rb / 1024) by (apply Z.div_le_lower_bound; lia). lia. }
    rewrite Z.mod_small, Z.div_small by lia. f_equal. lia.
  - destruct (1024 <=? rb) eqn:E.
    + apply Z.leb_le in E.
      replace rb with ((rb - 1024) + 1 * 1024) at 2 3 by lia.
      rewrite Z.mod_add, Z.div_add by lia.
      rewrite IH.
      * f_equal. lia.
      * lia.
      * replace rb with ((rb - 1024) + 1 * 1024) in Hn by lia.
        rewrite Z.div_add in Hn by lia. lia.
    + apply Z.leb_gt in E.
      rewrite Z.mod_small, Z.div_small by lia. f_equal. lia.
Qed.

Lemma fold_kb_enough (rb rkb : Z) :
  0 <= rb ->
  fold_kb (Z.to_nat (rb / 1024)) rb rkb = (rb mod 1024, rkb + rb / 1024).
Proof.
  intros Hrb. apply fold_kb_spec; [assumption|].
  rewrite Z2Nat.id; [lia | apply Z.div_pos; lia].
Qed.

(** What [read_result] does, case by case. *)
Lemma read_result_cases (c : pk_conn) (r : io_result) (e : Z) (w : world) :
  let '(rv, c', w') := read_result c r e w in
  rv = io_ret r /\ w' = w /\
  (io_ret r = 0 -> c' = raise_flag CONN_STATUS_CLS_READ c) /\
  (io_ret r < 0 -> e = SSL_ERROR_WANT_WRITE ->
   c' = pkc_start_handshake c e) /\
  (io_ret r < 0 -> tls_defers_to_errno e ->
   (retryable_errno (errno w) = true -> c' = c) /\
   (retryable_errno (errno w) = false ->
    c' = raise_flag CONN_STATUS_BROKEN c)) /\
  (io_ret r < 0 -> e <> SSL_ERROR_WANT_WRITE -> ~ tls_defers_to_errno e ->
   c' = raise_flag CONN_STATUS_BROKEN c) /\
  (0 < io_ret r ->
   in_buffer_pos c' = in_buffer_pos c + io_ret r /\
   activity c' = clock w /\
   status c' = status c /\
   state c' = state c /\
   (0 <= read_bytes c ->
    read_bytes c' = (read_bytes c + io_ret r) mod 1024 /\
    read_kb c' = read_kb c + (read_bytes c + io_ret r) / 1024)).
Proof.
  unfold read_result, tls_defers_to_errno, retryable_errno.
  unfold SSL_ERROR_WANT_WRITE, SSL_ERROR_WANT_READ, SSL_ERROR_SYSCALL,
    SSL_ERROR_NONE.
  destruct (0 <? io_ret r) eqn:Epos.
  { apply Z.ltb_lt in Epos.
    destruct (fold_kb _ _ _) as [rb' rkb'] eqn:Ek.
    repeat (split || intro); try lia; simpl;
      rewrite fold_kb_enough in Ek by lia; congruence. }
  apply Z.ltb_ge in Epos.
  destruct (io_ret r =? 0) eqn:Ez.
  { apply Z.eqb_eq in Ez. repeat (split || intro); try lia; reflexivity. }
  apply Z.eqb_neq in Ez.
  destruct (e =? 3) eqn:Eww.
  { apply Z.eqb_eq in Eww. subst e.
    repeat (split || intro); try lia; try reflexivity. }
  apply Z.eqb_neq in Eww.
  destruct ((e =? 2) || (e =? 5) || (e =? 0)) eqn:Ed.
  - destruct ((errno w =? 0) || (errno w =? EINTR) || (errno w =? EAGAIN))
      eqn:Er; repeat (split || intro); try lia; try reflexivity;
      try congruence.
  - repeat (split || intro); try lia; try reflexivity.
Qed.

(** C5, as the code has it.  For a call to [pkc_read] that reaches the
    transport (the connection is not in an unbroken TLS handshake), with
    ClosedForRead and Broken distinct bits, the call returns the
    transport's result, and: a zero result sets ClosedForRead and leaves
    Broken as it was; a negative result on a plain transport, or under
    the TLS conditions want-read, syscall and none, changes nothing when
    errno is 0, EINTR or EAGAIN and sets Broken for any other errno; a
    negative result under TLS want-write moves the connection back to the
    handshake with WantWrite set, and under any other TLS error sets
    Broken, whatever errno says; a positive result advances the input
    offset by the count, takes the clock as the activity timestamp and
    folds the count into the byte and KB counters. *)
Theorem read_outcomes (c : pk_conn) (w : world) :
  Z.land CONN_STATUS_CLS_READ CONN_STATUS_BROKEN = 0 ->
  reaches_transport c ->
  let r := oracle w (tick w) (PKC_IN_FREE c) in
  let '(rv, c', w') := pkc_read c w in
  rv = io_ret r /\ errno w' = io_errno r /\
  (io_ret r = 0 ->
   status c' = Z.lor (status c) CONN_STATUS_CLS_READ /\
   Z.land (status c') CONN_STATUS_CLS_READ = CONN_STATUS_CLS_READ /\
   has_flag CONN_STATUS_BROKEN c' = has_flag CONN_STATUS_BROKEN c) /\
  (io_ret r < 0 ->
   (state c = CONN_SSL_DATA -> tls_defers_to_errno (io_ssl_error r)) ->
   (retryable_errno (io_errno r) = true -> c' = c) /\
   (retryable_errno (io_errno r) = false ->
    status c' = Z.lor (status c) CONN_STATUS_BROKEN /\
    Z.land (status c') CONN_STATUS_BROKEN = CONN_STATUS_BROKEN)) /\
  (io_ret r < 0 -> state c = CONN_SSL_DATA ->
   io_ssl_error r = SSL_ERROR_WANT_WRITE ->
   state c' = CONN_SSL_HANDSHAKE /\
   status c' = Z.lor (status c) CONN_STATUS_WANT_WRITE) /\
  (io_ret r < 0 -> state c = CONN_SSL_DATA ->
   io_ssl_error r <> SSL_ERROR_WANT_WRITE ->
   ~ tls_defers_to_errno (io_ssl_error r) ->
   status c' = Z.lor (status c) CONN_STATUS_BROKEN) /\
  (0 < io_ret r ->
   in_buffer_pos c' = in_buffer_pos c + io_ret r /\
   activity c' = clock w /\
   status c' = status c /\
   (0 <= read_bytes c ->
    read_bytes c' = (read_bytes c + io_ret r) mod 1024 /\
    read_kb c' = read_kb c + (read_bytes c + io_ret r) / 1024)).
Proof.
  intros Hind Hreach r. subst r.
  set (r := oracle w (tick w) (PKC_IN_FREE c)).
  assert (Hplain :
    state c <> CONN_SSL_DATA ->
    pkc_read c w =
    read_result c r SSL_ERROR_NONE
      (mk_world (io_errno r) (pk_error w) (clock w) (S (tick w)) (oracle w)
                (ephemeral w) (socks w) (trace w))).
  { intros Hns. unfold pkc_read, PKS_read, transport_io. fold r.
    destruct (state c) eqn:Hst; try reflexivity; [congruence|].
    destruct Hreach as [Hr|Hr]; [congruence|]. now rewrite Hr. }
  assert (Hssl :
    state c = CONN_SSL_DATA ->
    pkc_read c w =
    read_result c r
      (if io_ret r <? 0 then io_ssl_error r else SSL_ERROR_NONE)
      (mk_world (io_errno r) (pk_error w) (clock w) (S (tick w)) (oracle w)
                (ephemeral w) (socks w) (trace w))).
  { intros Hs. unfold pkc_read, SSL_read, transport_io,
      pkc_reset_error_state, SSL_get_error. rewrite Hs. reflexivity. }
  destruct (conn_state_eq_dec (state c) CONN_SSL_DATA) as [Hs|Hns].
  - rewrite (Hssl Hs). clear Hssl Hplain.
    pose proof (read_result_cases c r
      (if io_ret r <? 0 then io_ssl_error r else SSL_ERROR_NONE)
      (mk_world (io_errno r) (pk_error w) (clock w) (S (tick w)) (oracle w)
                (ephemeral w) (socks w) (trace w))) as HR.
    revert HR. destruct (read_result _ _ _ _) as [[rv c'] w'].
    cbv beta iota. intros (Hrv & Hw & Hz & Hww & Hd & Hb & Hp). subst w'. simpl.
    split; [assumption|]. split; [reflexivity|].
    split; [|split; [|split; [|split]]].
    + intros H0. rewrite (Hz H0). simpl. split; [reflexivity|].
      split; [apply land_raised|].
      unfold has_flag. simpl. now rewrite land_raised_other.
    + intros Hneg Hdef. assert (E : (io_ret r <? 0) = true) by lia.
      rewrite E in Hd. destruct (Hd Hneg (Hdef Hs)) as [Hd1 Hd2]. simpl in *.
      split; [assumption|]. intros Hnr. rewrite (Hd2 Hnr). simpl.
      split; [reflexivity | apply land_raised].
    + intros Hneg _ Hw. assert (E : (io_ret r <? 0) = true) by lia.
      rewrite E in Hww. rewrite (Hww Hneg Hw). rewrite Hw.
      unfold pkc_start_handshake. simpl. split; reflexivity.
    + intros Hneg _ Hnw Hnd. assert (E : (io_ret r <? 0) = true) by lia.
      rewrite E in Hb. rewrite (Hb Hneg Hnw Hnd). reflexivity.
    + intros Hpos. destruct (Hp Hpos) as (H1 & H2 & H3 & _ & H5).
      simpl in H2. tauto.
  - rewrite (Hplain Hns). clear Hssl Hplain.
    pose proof (read_result_cases c r SSL_ERROR_NONE
      (mk_world (io_errno r) (pk_error w) (clock w) (S (tick w)) (oracle w)
                (ephemeral w) (socks w) (trace w))) as HR.
    revert HR. destruct (read_result _ _ _ _) as [[rv c'] w'].
    cbv beta iota. intros (Hrv & Hw & Hz & Hww & Hd & Hb & Hp). subst w'. simpl.
    split; [assumption|]. split; [reflexivity|].
    split; [|split; [|split; [|split]]].
    + intros H0. rewrite (Hz H0). simpl. split; [reflexivity|].
      split; [apply land_raised|].
      unfold has_flag. simpl. now rewrite land_raised_other.
    + intros Hneg _.
      assert (Hn : tls_defers_to_errno SSL_ERROR_NONE) by (right; now right).
      destruct (Hd Hneg Hn) as [Hd1 Hd2]. simpl in *.
      split; [assumption|]. intros Hnr. rewrite (Hd2 Hnr). simpl.
      split; [reflexivity | apply land_raised].
    + intros _ Hs. congruence.
    + intros _ Hs. congruence.
    + intros Hpos. destruct (Hp Hpos) as (H1 & H2 & H3 & _ & H5).
      simpl in H2. tauto.
Qed.

(** ** The write path on a plain-data connection *)

Lemma count_wrote_same (x : Z) (c : pk_conn) :
  same_but_counter c (count_wrote x c).
Proof.
  unfold same_but_counter, count_wrote.
  destruct (0 <? x); simpl; repeat split; reflexivity.
Qed.

Lemma raw_write_plain (c : pk_conn) (d : list byte) (len : Z) (w : world) :
  state c = CONN_CLEAR_DATA ->
  let '(wrote, c1, w1) := pkc_raw_write c d len w in
  same_but_counter c c1 /\ oracle w1 = oracle w /\
  sent (sockfd c) w1 =
    sent (sockfd c) w ++ (if 0 <? wrote then bytes_at d wrote else []) /\
  (forall fd, blocking_mode fd w1 = blocking_mode fd w) /\
  (len = 0 -> wrote = 0 /\ errno w1 = 0 /\ tick w1 = tick w) /\
  (len <> 0 ->
   wrote = io_ret (oracle w (tick w) len) /\
   errno w1 = io_errno (oracle w (tick w) len) /\
   tick w1 = S (tick w)).
Proof.
  intros Hst. unfold pkc_raw_write. rewrite Hst.
  destruct (len =? 0) eqn:E.
  - apply Z.eqb_eq in E. simpl.
    repeat split; try reflexivity; try lia.
    now rewrite app_nil_r.
  - apply Z.eqb_neq in E.
    unfold PKS_write, transport_io, pkc_reset_error_state. simpl.
    split; [apply count_wrote_same|].
    destruct (0 <? io_ret (oracle w (tick w) len)) eqn:Ep.
    + repeat split; try reflexivity; try lia.
      * rewrite sent_emit. simpl. now rewrite Z.eqb_refl.
      * intros fd. now rewrite blocking_mode_emit.
    + repeat split; try reflexivity; try lia.
      now rewrite app_nil_r.
Qed.

(** On a well-behaved transport a raw write takes no more than it was
    given, and takes nothing only when it was given nothing. *)
Lemma raw_write_plain_bounds (c : pk_conn) (d : list byte) (len : Z)
    (w : world) :
  state c = CONN_CLEAR_DATA -> well_behaved w -> 0 <= len ->
  let '(wrote, c1, w1) := pkc_raw_write c d len w in
  wrote <= len /\ (wrote = 0 -> len = 0).
Proof.
  intros Hst Hwb Hlen. pose proof (raw_write_plain c d len w Hst) as H.
  revert H. destruct (pkc_raw_write c d len w) as [[wrote c1] w1].
  intros (_ & _ & _ & _ & H0 & H1).
  destruct (Z.eq_dec len 0) as [E|E].
  - destruct (H0 E) as (-> & _). lia.
  - destruct (H1 E) as (-> & _).
    destruct (Hwb (tick w) len) as [Hnz Hle]; lia.
Qed.

Lemma pending_drained (buf : list byte) (pos wrote : Z) :
  0 < wrote <= pos -> pos <= Z.of_nat (length buf) ->
  bytes_at
    (if wrote <? pos
     then mem_write buf 0 (bytes_at (ptr_add buf wrote) (pos - wrote))
     else buf) (pos - wrote) =
  bytes_at (ptr_add buf wrote) (pos - wrote).
Proof.
  intros Hw Hp. destruct (wrote <? pos) eqn:E.
  - assert (Hl : Z.of_nat (length (bytes_at (ptr_add buf wrote) (pos - wrote)))
                 = pos - wrote).
    { apply bytes_at_length. rewrite ptr_add_length; lia. }
    unfold bytes_at at 1.
    replace (Z.to_nat (pos - wrote))
      with (0 + length (bytes_at (ptr_add buf wrote) (pos - wrote)))%nat
      by lia.
    rewrite mem_write_prefix by lia. reflexivity.
  - replace (pos - wrote) with 0 by lia. reflexivity.
Qed.

Lemma drained_length (buf : list byte) (pos wrote : Z) :
  0 < wrote <= pos -> pos <= Z.of_nat (length buf) ->
  length
    (if wrote <? pos
     then mem_write buf 0 (bytes_at (ptr_add buf wrote) (pos - wrote))
     else buf) = length buf.
Proof.
  intros Hw Hp. destruct (wrote <? pos); [|reflexivity].
  apply mem_write_length.
  assert (Hl : Z.of_nat (length (bytes_at (ptr_add buf wrote) (pos - wrote)))
               = pos - wrote).
  { apply bytes_at_length. rewrite ptr_add_length; lia. }
  lia.
Qed.

Lemma stream_kept_same (c : pk_conn) (w : world) (c' : pk_conn) (w' : world) :
  state c' = CONN_CLEAR_DATA -> sockfd c' = sockfd c -> conn_wf c' ->
  oracle w' = oracle w ->
  sent (sockfd c) w' ++ pending c' = sent (sockfd c) w ++ pending c ->
  stream_kept c w [] c' w'.
Proof.
  intros H1 H2 H3 H4 H5. unfold stream_kept. rewrite app_nil_r. tauto.
Qed.

Lemma stream_kept_refl (c : pk_conn) (w : world) :
  state c = CONN_CLEAR_DATA -> conn_wf c -> stream_kept c w [] c w.
Proof.
  intros Hs Hwf. unfold stream_kept. repeat split; auto; try apply Hwf.
  now rewrite app_nil_r.
Qed.

Lemma stream_kept_trans (c : pk_conn) (w : world) (e1 e2 : list byte)
    (c1 : pk_conn) (w1 : world) (c2 : pk_conn) (w2 : world) :
  stream_kept c w e1 c1 w1 -> stream_kept c1 w1 e2 c2 w2 ->
  stream_kept c w (e1 ++ e2) c2 w2.
Proof.
  intros (Hs1 & Hf1 & Hw1 & Ho1 & Hk1) (Hs2 & Hf2 & Hw2 & Ho2 & Hk2).
  unfold stream_kept. rewrite Hf1 in *.
  repeat split; try congruence; try apply Hw2.
  rewrite Hk2, app_assoc, Hk1. now rewrite <- !app_assoc.
Qed.

(** The drain loop neither loses nor reorders bytes, leaves the status
    alone, and in blocking mode it stops short of the ceiling with a
    non-negative result only once the buffer is empty. *)
Lemma flush_drain_plain (fuel : nat) :
  forall (mode : flush_mode) (c : pk_conn) (w : world) (fl ll : Z)
         (wrote fl' ll' : Z) (c' : pk_conn) (w' : world),
    state c = CONN_CLEAR_DATA -> conn_wf c -> well_behaved w ->
    flush_drain fuel mode c w fl ll = Some (wrote, fl', ll', c', w') ->
    stream_kept c w [] c' w' /\ status c' = status c /\
    (0 <= wrote -> is_blocking_flush mode = true -> 0 < ll' ->
     out_buffer_pos c' = 0).
Proof.
  induction fuel as [|fuel IH];
    intros mode c w fl ll wrote fl' ll' c' w' Hst Hwf Hwb Hrun;
    [discriminate|].
  simpl in Hrun.
  pose proof (raw_write_plain c (out_buffer c) (out_buffer_pos c) w Hst) as HP.
  pose proof (raw_write_plain_bounds c (out_buffer c) (out_buffer_pos c) w
                Hst Hwb (proj1 (proj1 Hwf))) as HB.
  destruct (pkc_raw_write c (out_buffer c) (out_buffer_pos c) w)
    as [[wr c1] w1].
  destruct HP as ((Hstat & Hfd & Hst1 & Hbuf & Hpos) & Ho & Hsent & _ & _ & _).
  destruct HB as [Hle Hz].
  destruct Hwf as [[Hp0 Hp1] Hlen].
  assert (Hwb1 : well_behaved w1) by (unfold well_behaved; now rewrite Ho).
  (* what leaving or re-entering the loop means for a connection [c2] *)
  assert (Hagain : forall c2 fl2,
    state c2 = CONN_CLEAR_DATA -> sockfd c2 = sockfd c -> conn_wf c2 ->
    status c2 = status c ->
    sent (sockfd c) w1 ++ pending c2 = sent (sockfd c) w ++ pending c ->
    (if is_blocking_flush mode && (0 <? out_buffer_pos c2)
     then if 0 <? ll then flush_drain fuel mode c2 w1 fl2 (ll - 1)
          else Some (wr, fl2, ll - 1, c2, w1)
     else Some (wr, fl2, ll, c2, w1)) = Some (wrote, fl', ll', c', w') ->
    stream_kept c w [] c' w' /\ status c' = status c /\
    (0 <= wrote -> is_blocking_flush mode = true -> 0 < ll' ->
     out_buffer_pos c' = 0)).
  { intros c2 fl2 Hs2 Hf2 Hwf2 Hstat2 Hk2 Hgo.
    destruct (is_blocking_flush mode && (0 <? out_buffer_pos c2)) eqn:Ec.
    - destruct (0 <? ll) eqn:Ell.
      + destruct (IH _ _ _ _ _ _ _ _ _ _ Hs2 Hwf2 Hwb1 Hgo)
          as ((Hs' & Hf' & Hwf' & Ho' & Hk') & Hstat' & Hz').
        split; [|split; [congruence | exact Hz']].
        apply stream_kept_same; try congruence.
        rewrite Hf2, app_nil_r in Hk'. congruence.
      + injection Hgo as <- <- <- <- <-.
        split; [|split; [assumption | intros; lia]].
        apply stream_kept_same; congruence.
    - injection Hgo as <- <- <- <- <-.
      split; [|split; [assumption|]].
      + apply stream_kept_same; congruence.
      + intros _ Hb _. rewrite Hb in Ec. simpl in Ec.
        destruct Hwf2 as [[? ?] _]. lia. }
  destruct (0 <? wr) eqn:Ewr.
  - apply Z.ltb_lt in Ewr.
    assert (Hwp : 0 < wr <= out_buffer_pos c) by lia.
    refine (Hagain
      (with_output
         (if wr <? out_buffer_pos c1
          then mem_write (out_buffer c1) 0
                 (bytes_at (ptr_add (out_buffer c1) wr)
                           (out_buffer_pos c1 - wr))
          else out_buffer c1)
         (out_buffer_pos c1 - wr) c1) (fl + wr) _ _ _ _ _ Hrun); auto.
    + simpl. congruence.
    + unfold conn_wf. simpl. rewrite Hbuf, Hpos.
      rewrite drained_length by lia. lia.
    + unfold pending. simpl. rewrite Hbuf, Hpos.
      rewrite pending_drained by lia.
      rewrite Hsent. rewrite <- app_assoc. f_equal.
      rewrite <- bytes_at_split by lia. f_equal. lia.
  - apply Z.ltb_ge in Ewr. rewrite app_nil_r in Hsent.
    assert (Hc1 : conn_wf c1) by (unfold conn_wf; rewrite Hbuf, Hpos; lia).
    assert (Hk1 : sent (sockfd c) w1 ++ pending c1 =
                  sent (sockfd c) w ++ pending c)
      by (unfold pending; now rewrite Hbuf, Hpos, Hsent).
    destruct (hard_errno w1).
    + injection Hrun as <- <- <- <- <-.
      split; [|split; [assumption|]].
      * apply stream_kept_same; congruence.
      * intros Hz0 _ _. rewrite Hpos. apply Hz. lia.
    + refine (Hagain c1 fl _ _ _ _ _ Hrun); congruence || assumption.
Qed.

Lemma same_but_counter_refl (c : pk_conn) : same_but_counter c c.
Proof. unfold same_but_counter. tauto. Qed.

Lemma same_but_counter_trans (a b c : pk_conn) :
  same_but_counter a b -> same_but_counter b c -> same_but_counter a c.
Proof.
  unfold same_but_counter.
  intros (?&?&?&?&?) (?&?&?&?&?). repeat split; congruence.
Qed.

(** The loop that writes the new data either ends on a negative result
    or has sent all that was left of the data. *)
Lemma flush_direct_plain (fuel : nat) :
  forall (c : pk_conn) (w : world) (data : list byte)
         (len wrote fl bytes ll b' fl' : Z) (c' : pk_conn) (w' : world),
    state c = CONN_CLEAR_DATA -> well_behaved w ->
    0 <= wrote <= len -> (0 <= bytes \/ wrote < len) ->
    flush_direct fuel c w data len wrote fl bytes ll = Some (b', fl', c', w') ->
    same_but_counter c c' /\ oracle w' = oracle w /\
    (b' < 0 \/
     sent (sockfd c) w' =
       sent (sockfd c) w ++ bytes_at (ptr_add data wrote) (len - wrote)).
Proof.
  induction fuel as [|fuel IH];
    intros c w data len wrote fl bytes ll b' fl' c' w' Hst Hwb Hwr Hby Hrun;
    [discriminate|].
  simpl in Hrun. destruct (wrote <? len) eqn:Emore.
  - apply Z.ltb_lt in Emore.
    pose proof (raw_write_plain c (ptr_add data wrote) (len - wrote) w Hst)
      as HP.
    pose proof (raw_write_plain_bounds c (ptr_add data wrote) (len - wrote) w
                  Hst Hwb ltac:(lia)) as HB.
    destruct (pkc_raw_write c (ptr_add data wrote) (len - wrote) w)
      as [[b c1] w1].
    destruct HP as (Hsame & Ho & Hsent & _ & _ & _).
    destruct HB as [Hle Hz].
    assert (Hst1 : state c1 = CONN_CLEAR_DATA)
      by (destruct Hsame as (_ & _ & -> & _); assumption).
    assert (Hfd1 : sockfd c1 = sockfd c) by apply Hsame.
    assert (Hwb1 : well_behaved w1) by (unfold well_behaved; now rewrite Ho).
    destruct (0 <? b) eqn:Eb.
    + apply Z.ltb_lt in Eb.
      eapply IH in Hrun; [|assumption|assumption|lia|left; lia].
      destruct Hrun as (Hs' & Ho' & Hres).
      split; [eapply same_but_counter_trans; eassumption|].
      split; [congruence|].
      destruct Hres as [Hneg|Hall]; [now left|right].
      rewrite Hfd1 in Hall. rewrite Hall, Hsent, <- app_assoc. f_equal.
      rewrite <- ptr_add_add by lia.
      rewrite <- bytes_at_split by lia. f_equal. lia.
    + apply Z.ltb_ge in Eb. assert (b < 0) by lia.
      destruct (hard_errno w1).
      { injection Hrun as <- <- <- <-. split; [assumption|].
        split; [assumption | now left]. }
      destruct (ll <=? 0).
      { injection Hrun as <- <- <- <-. split; [assumption|].
        split; [assumption | now left]. }
      eapply IH in Hrun; [|assumption|assumption|lia|right; lia].
      destruct Hrun as (Hs' & Ho' & Hres).
      split; [eapply same_but_counter_trans; eassumption|].
      split; [congruence|].
      destruct Hres as [Hneg|Hall]; [now left|right].
      rewrite Hfd1 in Hall. rewrite Hall, Hsent. now rewrite app_nil_r.
  - apply Z.ltb_ge in Emore. injection Hrun as <- <- <- <-.
    split; [apply same_but_counter_refl|]. split; [reflexivity|].
    right. rewrite bytes_at_nil by lia. now rewrite app_nil_r.
Qed.

Lemma mark_write_error_status (c : pk_conn) (w : world) :
  status_marked c (mark_write_error c w) /\
  state (mark_write_error c w) = state c /\
  sockfd (mark_write_error c w) = sockfd c /\
  out_buffer (mark_write_error c w) = out_buffer c /\
  out_buffer_pos (mark_write_error c w) = out_buffer_pos c.
Proof.
  unfold mark_write_error, status_marked.
  destruct (negb (errno w =? EAGAIN) && negb (errno w =? EWOULDBLOCK)
            && negb (errno w =? 0)); simpl; tauto.
Qed.

Lemma stream_kept_fields (c : pk_conn) (w : world) (e : list byte)
    (c1 : pk_conn) (w1 : world) (c2 : pk_conn) (w2 : world) :
  stream_kept c w e c1 w1 ->
  state c2 = state c1 -> sockfd c2 = sockfd c1 ->
  out_buffer c2 = out_buffer c1 -> out_buffer_pos c2 = out_buffer_pos c1 ->
  oracle w2 = oracle w1 -> sent (sockfd c) w2 = sent (sockfd c) w1 ->
  stream_kept c w e c2 w2.
Proof.
  intros (Hs & Hf & Hwf & Ho & Hk) H1 H2 H3 H4 H5 H6.
  unfold stream_kept, conn_wf, pending in *.
  rewrite H1, H2, H3, H4, H5, H6. tauto.
Qed.

(** A flush on a plain-data connection: the buffered bytes are never
    lost, the status changes by ClosedForWrite at most, and a blocking
    flush with new data either fails or has taken all of it. *)
Lemma flush_plain (fuel : nat) (c : pk_conn) (data : option (list byte))
    (len : Z) (mode : flush_mode) (w : world)
    (rv : Z) (c' : pk_conn) (w' : world) :
  state c = CONN_CLEAR_DATA -> conn_wf c -> well_behaved w ->
  pkc_flush fuel c data len mode w = Some (rv, c', w') ->
  status_marked c c' /\
  (data = None \/ mode = NON_BLOCKING_FLUSH -> stream_kept c w [] c' w') /\
  (forall d, data = Some d -> mode = BLOCKING_FLUSH ->
             len = Z.of_nat (length d) ->
             rv < 0 \/ stream_kept c w d c' w').
Proof.
  intros Hst Hwf Hwb Hrun. unfold pkc_flush in Hrun.
  destruct (sockfd c <? 0).
  { injection Hrun as <- <- <-.
    split; [now left|]. split.
    - intros _.
      eapply stream_kept_fields;
        [apply stream_kept_refl; assumption | reflexivity ..].
    - intros d _ _ _. left. lia. }
  set (w1 := if is_blocking_flush mode
             then set_blocking (sockfd c) (set_errno 0 w)
             else set_errno 0 w) in Hrun.
  assert (Ho1 : oracle w1 = oracle w)
    by (subst w1; destruct (is_blocking_flush mode); reflexivity).
  assert (Hs1 : sent (sockfd c) w1 = sent (sockfd c) w).
  { subst w1. destruct (is_blocking_flush mode); [|reflexivity].
    unfold set_blocking. rewrite sent_emit. simpl. now rewrite app_nil_r. }
  assert (Hwb1 : well_behaved w1) by (unfold well_behaved; now rewrite Ho1).
  destruct (flush_drain fuel mode c w1 0 1000)
    as [[[[[wrote fl] ll] c2] w2]|] eqn:Ed; [|discriminate].
  destruct (flush_drain_plain fuel mode c w1 0 1000 wrote fl ll c2 w2
              Hst Hwf Hwb1 Ed) as (Hk & Hstat & Hempty).
  assert (Hk0 : stream_kept c w [] c2 w2).
  { destruct Hk as (? & ? & ? & ? & Hk).
    apply stream_kept_same; try congruence.
    rewrite Hk, Hs1. now rewrite app_nil_r. }
  clear Hk.
  destruct (ll <=? 0) eqn:Ell.
  { injection Hrun as <- <- <-.
    split; [now left|]. split.
    - intros _. eapply stream_kept_fields; try exact Hk0; reflexivity.
    - intros d _ _ _. left. lia. }
  apply Z.leb_gt in Ell.
  (* leaving through the common exit *)
  assert (Hfinish :
    forall (flx : Z) (cx : pk_conn) (wx : world) (e : list byte),
    stream_kept c w e cx wx ->
    stream_kept c w e cx
      (if is_blocking_flush mode then set_non_blocking (sockfd cx) wx else wx)).
  { intros flx cx wx e Hkx.
    eapply stream_kept_fields; try exact Hkx; try reflexivity.
    - destruct (is_blocking_flush mode); reflexivity.
    - destruct (is_blocking_flush mode); [|reflexivity].
      unfold set_non_blocking. rewrite sent_emit. simpl.
      now rewrite app_nil_r. }
  destruct (wrote <? 0) eqn:Ewr.
  { injection Hrun as <- <- <-.
    destruct (mark_write_error_status c2 w2) as (Hm & Hms & Hmf & Hmb & Hmp).
    split; [unfold status_marked in *; rewrite <- Hstat; exact Hm|].
    apply Z.ltb_lt in Ewr. split.
    - intros _. apply (Hfinish 0).
      eapply stream_kept_fields; try exact Hk0; auto.
    - intros d _ _ _. now left. }
  apply Z.ltb_ge in Ewr.
  assert (Hplainexit :
    Some (fl, c2,
          if is_blocking_flush mode then set_non_blocking (sockfd c2) w2
          else w2) = Some (rv, c', w') ->
    (data = None \/ mode = NON_BLOCKING_FLUSH \/ out_buffer_pos c2 <> 0) ->
    status_marked c c' /\
    (data = None \/ mode = NON_BLOCKING_FLUSH -> stream_kept c w [] c' w') /\
    (forall d, data = Some d -> mode = BLOCKING_FLUSH ->
               len = Z.of_nat (length d) ->
               rv < 0 \/ stream_kept c w d c' w')).
  { intros Hx Hwhy. injection Hx as <- <- <-.
    split; [left; assumption|]. split.
    - intros _. now apply (Hfinish 0).
    - intros d Hd Hm _. exfalso.
      destruct Hwhy as [Hn|[Hn|Hn]]; [congruence | congruence |].
      apply Hn, Hempty; [assumption | now rewrite Hm | assumption]. }
  destruct data as [d|]; [|apply Hplainexit; auto].
  destruct (is_blocking_flush mode && (out_buffer_pos c2 =? 0)) eqn:Eb.
  2:{ apply Hplainexit; auto. right.
      destruct mode; simpl in Eb; [right; lia | now left]. }
  apply andb_prop in Eb. destruct Eb as [Ebl Epos].
  assert (Hmode : mode = BLOCKING_FLUSH)
    by (destruct mode; [auto|discriminate]).
  apply Z.eqb_eq in Epos.
  destruct (flush_direct fuel c2 w2 d len 0 0 0 ll)
    as [[[[b fl3] c3] w3]|] eqn:Edir; [|discriminate].
  destruct Hk0 as (Hs2 & Hf2 & Hwf2 & Ho2 & Hk2).
  assert (Hwb2 : well_behaved w2) by (unfold well_behaved; now rewrite Ho2).
  assert (Hcases : 0 <= len \/ len < 0) by lia.
  assert (Hgen : status_marked c c' /\
    (forall d0, Some d = Some d0 -> mode = BLOCKING_FLUSH ->
                len = Z.of_nat (length d0) ->
                rv < 0 \/ stream_kept c w d0 c' w')).
  { destruct (b <? 0) eqn:Eneg.
    - injection Hrun as <- <- <-. apply Z.ltb_lt in Eneg.
      split; [|intros; now left].
      destruct (mark_write_error_status c3 w3) as (Hm & _).
      destruct Hcases as [Hlen|Hlen].
      + destruct (flush_direct_plain fuel c2 w2 d len 0 0 0 ll b fl3 c3 w3
                    Hs2 Hwb2 ltac:(lia) ltac:(left; lia) Edir)
          as ((Hst3 & _) & _).
        unfold status_marked in *. rewrite <- Hstat, <- Hst3. exact Hm.
      + destruct fuel; [discriminate|]. simpl in Edir.
        assert (E : (0 <? len) = false) by lia. rewrite E in Edir.
        injection Edir as <- <- <- <-. lia.
    - injection Hrun as <- <- <-. apply Z.ltb_ge in Eneg.
      destruct Hcases as [Hlen|Hlen].
      + destruct (flush_direct_plain fuel c2 w2 d len 0 0 0 ll b fl3 c3 w3
                    Hs2 Hwb2 ltac:(lia) ltac:(left; lia) Edir)
          as ((Hst3 & Hfd3 & Hss3 & Hb3 & Hp3) & Ho3 & Hres).
        split; [left; congruence|].
        intros d0 Hd0 _ Hl0. injection Hd0 as <-. right.
        destruct Hres as [Hneg|Hall]; [lia|].
        rewrite Hf2 in Hall.
        assert (Hkd : stream_kept c w d c3 w3).
        { unfold stream_kept, conn_wf, pending in *.
          rewrite Hss3, Hfd3, Hb3, Hp3, Ho3. repeat split; try tauto.
          rewrite Hall. rewrite Epos in *. simpl bytes_at in *.
          rewrite app_nil_r in *. rewrite Hk2.
          rewrite ptr_add_0, Z.sub_0_r, (bytes_at_all d) by lia.
          now rewrite app_nil_r, <- app_assoc. }
        now apply (Hfinish 0).
      + destruct fuel; [discriminate|]. simpl in Edir.
        assert (E : (0 <? len) = false) by lia. rewrite E in Edir.
        injection Edir as <- <- <- <-.
        split; [left; assumption|].
        intros d0 Hd0 _ Hl0. lia. }
  destruct Hgen as [Hg1 Hg2]. split; [assumption|]. split; [|assumption].
  intros [Hn|Hn]; congruence.
Qed.

Lemma write_direct_plain (fuel : nat) :
  forall (c : pk_conn) (w : world) (data : list byte) (len wrote : Z)
         (c' : pk_conn) (w' : world),
    state c = CONN_CLEAR_DATA -> well_behaved w -> 0 <= len ->
    write_direct fuel c data len w = Some (wrote, c', w') ->
    same_but_counter c c' /\ oracle w' = oracle w /\ wrote <= len /\
    sent (sockfd c) w' =
      sent (sockfd c) w ++ (if 0 <? wrote then bytes_at data wrote else []).
Proof.
  induction fuel as [|fuel IH];
    intros c w data len wrote c' w' Hst Hwb Hlen Hrun; [discriminate|].
  simpl in Hrun.
  pose proof (raw_write_plain c data len w Hst) as HP.
  pose proof (raw_write_plain_bounds c data len w Hst Hwb Hlen) as HB.
  destruct (pkc_raw_write c data len w) as [[wr c1] w1].
  destruct HP as (Hsame & Ho & Hsent & _ & _ & _).
  destruct HB as [Hle _].
  destruct ((wr <? 0) && ((errno w1 =? EINTR) || (errno w1 =? 0))) eqn:Eretry.
  - apply andb_prop in Eretry. destruct Eretry as [Eneg _].
    assert (E : (0 <? wr) = false) by lia. rewrite E, app_nil_r in Hsent.
    assert (Hst1 : state c1 = CONN_CLEAR_DATA)
      by (destruct Hsame as (_ & _ & -> & _); assumption).
    assert (Hfd1 : sockfd c1 = sockfd c) by apply Hsame.
    assert (Hwb1 : well_behaved w1) by (unfold well_behaved; now rewrite Ho).
    eapply IH in Hrun; [|assumption|assumption|assumption].
    destruct Hrun as (Hs' & Ho' & Hle' & Hsent').
    split; [eapply same_but_counter_trans; eassumption|].
    split; [congruence|]. split; [assumption|].
    rewrite Hfd1 in Hsent'. now rewrite Hsent', Hsent.
  - injection Hrun as <- <- <-. tauto.
Qed.

Lemma status_marked_refl (c : pk_conn) : status_marked c c.
Proof. now left. Qed.

Lemma status_marked_trans (a b c : pk_conn) :
  status_marked a b -> status_marked b c -> status_marked a c.
Proof.
  unfold status_marked. intros [H1|H1] [H2|H2]; rewrite H2, H1; auto.
  right. now rewrite <- Z.lor_assoc, Z.lor_diag.
Qed.

Lemma status_marked_same (a b c : pk_conn) :
  status_marked a b -> status c = status b -> status_marked a c.
Proof. unfold status_marked. intros H ->. exact H. Qed.

(** Steps 2, 2a and 2b on a plain-data connection. *)
Lemma write_new_data_plain (fuel : nat) (c : pk_conn) (data : list byte)
    (len : Z) (w : world) (rv : Z) (c' : pk_conn) (w' : world) :
  state c = CONN_CLEAR_DATA -> conn_wf c -> well_behaved w ->
  len = Z.of_nat (length data) ->
  write_new_data fuel c data len w = Some (rv, c', w') ->
  status_marked c c' /\
  ((rv = len /\ stream_kept c w data c' w') \/ rv = -1).
Proof.
  intros Hst Hwf Hwb Hlen Hrun. unfold write_new_data in Hrun.
  (* step 2 *)
  assert (Hstep2 : forall wrote c2 w2,
    (if out_buffer_pos c =? 0
     then write_direct fuel c data len (set_errno 0 w)
     else Some (0, c, w)) = Some (wrote, c2, w2) ->
    same_but_counter c c2 /\ oracle w2 = oracle w /\ wrote <= len /\
    sent (sockfd c) w2 =
      sent (sockfd c) w ++ (if 0 <? wrote then bytes_at data wrote else []) /\
    (0 < wrote -> out_buffer_pos c = 0)).
  { intros wrote c2 w2 H2. destruct (out_buffer_pos c =? 0) eqn:Ep.
    - apply Z.eqb_eq in Ep.
      apply write_direct_plain in H2; [|assumption|assumption|lia].
      destruct H2 as (Ha & Hb & Hc & Hd).
      split; [exact Ha|]. split; [exact Hb|]. split; [exact Hc|].
      split; [exact Hd | intros; exact Ep].
    - injection H2 as <- <- <-.
      split; [apply same_but_counter_refl|]. split; [reflexivity|].
      split; [lia|]. split; [now rewrite app_nil_r | lia]. }
  destruct (if out_buffer_pos c =? 0
            then write_direct fuel c data len (set_errno 0 w)
            else Some (0, c, w)) as [[[wrote c2] w2]|]; [|discriminate].
  destruct (Hstep2 wrote c2 w2 eq_refl)
    as ((Hstat & Hfd & Hst2 & Hbuf & Hpos) & Ho & Hle & Hsent & Hdirect).
  clear Hstep2.
  destruct Hwf as [[Hp0 Hp1] Hcap].
  assert (Hwf2 : conn_wf c2) by (unfold conn_wf; rewrite Hbuf, Hpos; lia).
  assert (Hwb2 : well_behaved w2) by (unfold well_behaved; now rewrite Ho).
  (* what has been sent directly, and what is left *)
  set (wrote' := if wrote <? 0 then 0 else wrote) in *.
  assert (Hw' : 0 <= wrote' <= len)
    by (subst wrote'; destruct (wrote <? 0) eqn:E; lia).
  assert (Hsent' : sent (sockfd c) w2 =
                   sent (sockfd c) w ++ bytes_at data wrote').
  { rewrite Hsent. f_equal. subst wrote'.
    destruct (0 <? wrote) eqn:E1, (wrote <? 0) eqn:E2; try lia; try reflexivity.
    rewrite bytes_at_nil by lia. reflexivity. }
  assert (Hpend : 0 < wrote' -> pending c = []).
  { intros H. assert (0 < wrote) by (subst wrote'; destruct (wrote <? 0); lia).
    unfold pending. rewrite (Hdirect H0). reflexivity. }
  assert (Hjoin : sent (sockfd c) w2 ++ pending c ++ ptr_add data wrote' =
                  sent (sockfd c) w ++ pending c ++ data).
  { rewrite Hsent', <- app_assoc. f_equal.
    destruct (Z.eq_dec wrote' 0) as [E|E].
    - rewrite E. reflexivity.
    - rewrite Hpend by lia. simpl.
      unfold bytes_at, ptr_add. apply firstn_skipn. }
  destruct (wrote <? len) eqn:Emore.
  - destruct (len - wrote' <=? PKC_OUT_FREE c2) eqn:Efit.
    + (* 2a *)
      injection Hrun as <- <- <-.
      split; [left; simpl; congruence|]. left. split; [reflexivity|].
      apply Z.leb_le in Efit. unfold PKC_OUT_FREE in Efit.
      assert (Hl : Z.of_nat (length (bytes_at (ptr_add data wrote')
                                              (len - wrote'))) = len - wrote').
      { apply bytes_at_length. rewrite ptr_add_length; lia. }
      unfold stream_kept, conn_wf, pending. simpl.
      rewrite Hst2, Hfd, Hbuf, Hpos in *.
      split; [assumption|]. split; [reflexivity|]. split.
      { split; [lia|]. rewrite mem_write_length by lia. assumption. }
      split; [assumption|].
      unfold bytes_at at 1.
      replace (Z.to_nat (out_buffer_pos c + (len - wrote')))
        with (Z.to_nat (out_buffer_pos c)
              + length (bytes_at (ptr_add data wrote') (len - wrote')))%nat
        by lia.
      rewrite mem_write_prefix by lia.
      rewrite (bytes_at_all (ptr_add data wrote'))
        by (rewrite ptr_add_length; lia).
      exact Hjoin.
    + (* 2b *)
      destruct (pkc_flush fuel c2 (Some (ptr_add data wrote')) (len - wrote')
                          BLOCKING_FLUSH w2) as [[[r3 c3] w3]|] eqn:Ef;
        [|discriminate].
      assert (Hst2' : state c2 = CONN_CLEAR_DATA) by congruence.
      destruct (flush_plain _ _ _ _ _ _ _ _ _ Hst2' Hwf2 Hwb2 Ef)
        as (Hm & _ & Hdata).
      assert (Hm0 : status_marked c c3).
      { unfold status_marked in *. now rewrite <- Hstat. }
      destruct (r3 <? 0) eqn:Er.
      * injection Hrun as <- <- <-. split; [assumption | now right].
      * injection Hrun as <- <- <-. split; [assumption|]. left.
        split; [reflexivity|].
        destruct (Hdata _ eq_refl eq_refl) as [Hneg|Hk].
        { rewrite ptr_add_length; lia. }
        { lia. }
        destruct Hk as (Hs3 & Hf3 & Hwf3 & Ho3 & Hk3).
        unfold stream_kept. rewrite Hfd in *.
        repeat split; try congruence; try apply Hwf3.
        rewrite Hk3. unfold pending at 1. rewrite Hbuf, Hpos.
        exact Hjoin.
  - injection Hrun as <- <- <-.
    split; [left; assumption|]. left. split; [reflexivity|].
    apply Z.ltb_ge in Emore. assert (wrote = len) by lia.
    assert (wrote' = len)
      by (subst wrote'; destruct (wrote <? 0) eqn:E; lia).
    unfold stream_kept. rewrite Hfd, Hst2.
    split; [assumption|]. split; [reflexivity|]. split; [assumption|].
    split; [assumption|].
    unfold pending at 1. rewrite Hbuf, Hpos. fold (pending c).
    rewrite <- Hjoin. f_equal. f_equal.
    unfold ptr_add. rewrite skipn_all2 by lia. now rewrite app_nil_r.
Qed.

(** When step 2 and what follows it return -1, it is the blocking flush
    of step 2b that failed. *)
Lemma write_new_data_failed (fuel : nat) (c : pk_conn) (data : list byte)
    (len : Z) (w : world) (rv : Z) (c' : pk_conn) (w' : world) :
  state c = CONN_CLEAR_DATA -> conn_wf c -> well_behaved w ->
  len = Z.of_nat (length data) ->
  write_new_data fuel c data len w = Some (rv, c', w') ->
  rv = -1 ->
  blocking_flush_failed fuel c data w c' w'.
Proof.
  intros Hst Hwf Hwb Hlen Hrun Hrv. unfold write_new_data in Hrun.
  (* step 2 *)
  assert (Hstep2 : forall wrote c2 w2,
    (if out_buffer_pos c =? 0
     then write_direct fuel c data len (set_errno 0 w)
     else Some (0, c, w)) = Some (wrote, c2, w2) ->
    same_but_counter c c2 /\ oracle w2 = oracle w /\ wrote <= len /\
    sent (sockfd c) w2 =
      sent (sockfd c) w ++ (if 0 <? wrote then bytes_at data wrote else []) /\
    (0 < wrote -> out_buffer_pos c = 0)).
  { intros wrote c2 w2 H2. destruct (out_buffer_pos c =? 0) eqn:Ep.
    - apply Z.eqb_eq in Ep.
      apply write_direct_plain in H2; [|assumption|assumption|lia].
      destruct H2 as (Ha & Hb & Hc & Hd).
      split; [exact Ha|]. split; [exact Hb|]. split; [exact Hc|].
      split; [exact Hd | intros; exact Ep].
    - injection H2 as <- <- <-.
      split; [apply same_but_counter_refl|]. split; [reflexivity|].
      split; [lia|]. split; [now rewrite app_nil_r | lia]. }
  destruct (if out_buffer_pos c =? 0
            then write_direct fuel c data len (set_errno 0 w)
            else Some (0, c, w)) as [[[wrote c2] w2]|]; [|discriminate].
  destruct (Hstep2 wrote c2 w2 eq_refl)
    as ((Hstat & Hfd & Hst2 & Hbuf & Hpos) & Ho & Hle & Hsent & Hdirect).
  clear Hstep2.
  destruct Hwf as [[Hp0 Hp1] Hcap].
  assert (Hwf2 : conn_wf c2) by (unfold conn_wf; rewrite Hbuf, Hpos; lia).
  assert (Hwb2 : well_behaved w2) by (unfold well_behaved; now rewrite Ho).
  (* what has been sent directly, and what is left *)
  set (wrote' := if wrote <? 0 then 0 else wrote) in *.
  assert (Hw' : 0 <= wrote' <= len)
    by (subst wrote'; destruct (wrote <? 0) eqn:E; lia).
  assert (Hsent' : sent (sockfd c) w2 =
                   sent (sockfd c) w ++ bytes_at data wrote').
  { rewrite Hsent. f_equal. subst wrote'.
    destruct (0 <? wrote) eqn:E1, (wrote <? 0) eqn:E2; try lia; try reflexivity.
    rewrite bytes_at_nil by lia. reflexivity. }
  assert (Hpend : 0 < wrote' -> pending c = []).
  { intros H. assert (0 < wrote) by (subst wrote'; destruct (wrote <? 0); lia).
    unfold pending. rewrite (Hdirect H0). reflexivity. }
  assert (Hjoin : sent (sockfd c) w2 ++ pending c ++ ptr_add data wrote' =
                  sent (sockfd c) w ++ pending c ++ data).
  { rewrite Hsent', <- app_assoc. f_equal.
    destruct (Z.eq_dec wrote' 0) as [E|E].
    - rewrite E. reflexivity.
    - rewrite Hpend by lia. simpl.
      unfold bytes_at, ptr_add. apply firstn_skipn. }
  assert (Hkept : stream_kept c w (bytes_at data wrote') c2 w2).
  { unfold stream_kept. split; [congruence|]. split; [assumption|].
    split; [assumption|]. split; [assumption|].
    unfold pending at 1. rewrite Hbuf, Hpos. fold (pending c).
    rewrite Hsent', <- app_assoc. f_equal.
    destruct (Z.eq_dec wrote' 0) as [E|E].
    - rewrite E. simpl. now rewrite app_nil_r.
    - rewrite Hpend by lia. now rewrite app_nil_r. }
  destruct (wrote <? len) eqn:Emore.
  - destruct (len - wrote' <=? PKC_OUT_FREE c2) eqn:Efit.
    + injection Hrun as <- <- <-. lia.
    + destruct (pkc_flush fuel c2 (Some (ptr_add data wrote')) (len - wrote')
                          BLOCKING_FLUSH w2) as [[[r3 c3] w3]|] eqn:Ef;
        [|discriminate].
      apply Z.leb_gt in Efit.
      destruct (r3 <? 0) eqn:Er.
      * injection Hrun as _ <- <-. apply Z.ltb_lt in Er.
        exists c2, w2, wrote', r3. rewrite <- Hlen.
        split; [exact Hw'|]. split; [exact Hkept|]. split; [exact Efit|].
        split; [exact Ef | exact Er].
      * injection Hrun as <- <- <-. lia.
  - injection Hrun as <- <- <-. lia.
Qed.


(** The whole of [pkc_write] on a plain-data connection. *)
Lemma pkc_write_plain (fuel : nat) (c : pk_conn) (data : list byte)
    (len : Z) (w : world) (rv : Z) (c' : pk_conn) (w' : world) :
  state c = CONN_CLEAR_DATA -> conn_wf c -> well_behaved w ->
  len = Z.of_nat (length data) ->
  pkc_write fuel c data len w = Some (rv, c', w') ->
  status_marked c c' /\
  ((rv = len /\ stream_kept c w data c' w') \/ rv = -1).
Proof.
  intros Hst Hwf Hwb Hlen Hrun. unfold pkc_write in Hrun.
  destruct (negb (out_buffer_pos c =? 0)).
  - destruct (pkc_flush fuel c None 0 NON_BLOCKING_FLUSH w)
      as [[[r1 c1] w1]|] eqn:Ef; [|discriminate].
    destruct (flush_plain _ _ _ _ _ _ _ _ _ Hst Hwf Hwb Ef)
      as (Hm & Hk & _).
    specialize (Hk (or_introl eq_refl)).
    pose proof Hk as (Hs1 & Hf1 & Hwf1 & Ho1 & _).
    assert (Hwb1 : well_behaved w1) by (unfold well_behaved; now rewrite Ho1).
    destruct (write_new_data_plain _ _ _ _ _ _ _ _ Hs1 Hwf1 Hwb1 Hlen Hrun)
      as (Hm2 & Hres).
    split; [eapply status_marked_trans; eassumption|].
    destruct Hres as [[Hrv Hk2]|Hrv]; [left|now right].
    split; [assumption|].
    apply (stream_kept_trans c w [] data c1 w1 c' w' Hk Hk2).
  - apply (write_new_data_plain _ _ _ _ _ _ _ _ Hst Hwf Hwb Hlen Hrun).
Qed.

Lemma pkc_write_failed (fuel : nat) (c : pk_conn) (data : list byte)
    (len : Z) (w : world) (rv : Z) (c' : pk_conn) (w' : world) :
  state c = CONN_CLEAR_DATA -> conn_wf c -> well_behaved w ->
  len = Z.of_nat (length data) ->
  pkc_write fuel c data len w = Some (rv, c', w') ->
  rv = -1 ->
  blocking_flush_failed fuel c data w c' w'.
Proof.
  intros Hst Hwf Hwb Hlen Hrun Hrv. unfold pkc_write in Hrun.
  destruct (negb (out_buffer_pos c =? 0)).
  - destruct (pkc_flush fuel c None 0 NON_BLOCKING_FLUSH w)
      as [[[r1 c1] w1]|] eqn:Ef; [|discriminate].
    destruct (flush_plain _ _ _ _ _ _ _ _ _ Hst Hwf Hwb Ef)
      as (_ & Hk & _).
    specialize (Hk (or_introl eq_refl)).
    pose proof Hk as (Hs1 & Hf1 & Hwf1 & Ho1 & _).
    assert (Hwb1 : well_behaved w1) by (unfold well_behaved; now rewrite Ho1).
    destruct (write_new_data_failed _ _ _ _ _ _ _ _
                Hs1 Hwf1 Hwb1 Hlen Hrun Hrv)
      as (c2 & w2 & k & r & Hk2 & Hkept & Hfit & Hfl & Hr).
    exists c2, w2, k, r. split; [exact Hk2|]. split.
    { apply (stream_kept_trans c w [] (bytes_at data k) c1 w1 c2 w2 Hk Hkept). }
    split; [exact Hfit|]. split; [exact Hfl | exact Hr].
  - apply (write_new_data_failed _ _ _ _ _ _ _ _
             Hst Hwf Hwb Hlen Hrun Hrv).
Qed.


(** ** Termination of the write path *)

(** The drain loop ends within [loops_left + 1] rounds, whatever the
    transport answers, and never hands back more loops than it got. *)
Lemma flush_drain_total (fuel : nat) :
  forall (mode : flush_mode) (c : pk_conn) (w : world) (fl ll : Z),
    (Z.to_nat ll < fuel)%nat ->
    exists wrote fl' ll' c' w',
      flush_drain fuel mode c w fl ll = Some (wrote, fl', ll', c', w') /\
      ll' <= ll.
Proof.
  induction fuel as [|fuel IH]; intros mode c w fl ll Hfuel; [lia|].
  simpl.
  destruct (pkc_raw_write c (out_buffer c) (out_buffer_pos c) w)
    as [[wr c1] w1].
  assert (Hagain : forall c2 fl2,
    exists wrote fl' ll' c' w',
      (if is_blocking_flush mode && (0 <? out_buffer_pos c2)
       then if 0 <? ll then flush_drain fuel mode c2 w1 fl2 (ll - 1)
            else Some (wr, fl2, ll - 1, c2, w1)
       else Some (wr, fl2, ll, c2, w1)) = Some (wrote, fl', ll', c', w') /\
      ll' <= ll).
  { intros c2 fl2.
    destruct (is_blocking_flush mode && (0 <? out_buffer_pos c2)).
    - destruct (0 <? ll) eqn:Ell.
      + destruct (IH mode c2 w1 fl2 (ll - 1) ltac:(lia))
          as (a & b & l & d & e & Hr & Hl).
        exists a, b, l, d, e. split; [exact Hr | lia].
      + do 5 eexists. split; [reflexivity | lia].
    - do 5 eexists. split; [reflexivity | lia]. }
  destruct (0 <? wr).
  - match goal with
    | |- context [flush_drain fuel mode ?c2 w1 ?fl2 (ll - 1)] =>
        exact (Hagain c2 fl2)
    end.
  - destruct (hard_errno w1).
    + do 5 eexists. split; [reflexivity | lia].
    + exact (Hagain c1 fl).
Qed.

(** The loop that writes the new data ends within as many rounds as
    there are bytes to write plus loops left, whatever the transport
    answers. *)
Lemma flush_direct_total (fuel : nat) :
  forall (c : pk_conn) (w : world) (data : list byte)
         (len wrote fl bytes ll : Z),
    (Z.to_nat (len - wrote) + Z.to_nat ll < fuel)%nat ->
    flush_direct fuel c w data len wrote fl bytes ll <> None.
Proof.
  induction fuel as [|fuel IH]; intros c w data len wrote fl bytes ll Hfuel;
    [lia|].
  simpl. destruct (wrote <? len) eqn:Emore; [|discriminate].
  apply Z.ltb_lt in Emore.
  destruct (pkc_raw_write c (ptr_add data wrote) (len - wrote) w)
    as [[b c1] w1].
  destruct (0 <? b) eqn:Eb.
  - apply Z.ltb_lt in Eb. apply IH. lia.
  - destruct (hard_errno w1); [discriminate|].
    destruct (ll <=? 0) eqn:Ell; [discriminate|].
    apply Z.leb_gt in Ell. apply IH. lia.
Qed.

(** [pkc_flush] ends, whatever the state of the connection and whatever
    the transport answers. *)
Lemma pkc_flush_total (fuel : nat) (c : pk_conn) (data : option (list byte))
    (len : Z) (mode : flush_mode) (w : world) :
  (Z.to_nat len + 1000 < fuel)%nat ->
  pkc_flush fuel c data len mode w <> None.
Proof.
  intros Hfuel. unfold pkc_flush.
  destruct (sockfd c <? 0); [discriminate|].
  match goal with
  | |- context [flush_drain fuel mode c ?w1 0 1000] =>
      destruct (flush_drain_total fuel mode c w1 0 1000 ltac:(lia))
        as (wrote & fl & ll & c2 & w2 & -> & Hll)
  end.
  destruct (ll <=? 0); [discriminate|].
  destruct (wrote <? 0); [discriminate|].
  destruct data as [d|]; [|discriminate].
  destruct (is_blocking_flush mode && (out_buffer_pos c2 =? 0));
    [|discriminate].
  pose proof (flush_direct_total fuel c2 w2 d len 0 0 0 ll) as Hd.
  destruct (flush_direct fuel c2 w2 d len 0 0 0 ll) as [[[[b f3] c3] w3]|].
  - destruct (b <? 0); discriminate.
  - exfalso. apply Hd; [|reflexivity].
    rewrite Z.sub_0_r. lia.
Qed.



(** ** Write *)


(** A raw write that the transport turns down leaves the connection as
    it was. *)
Lemma raw_write_refused (c : pk_conn) (d : list byte) (len : Z) (w : world) :
  state c = CONN_CLEAR_DATA -> len <> 0 ->
  io_ret (oracle w (tick w) len) = -1 ->
  pkc_raw_write c d len w =
  (-1, c,
   mk_world (io_errno (oracle w (tick w) len)) (pk_error w) (clock w)
            (S (tick w)) (oracle w) (ephemeral w) (socks w) (trace w)).
Proof.
  intros Hst Hlen Hret. unfold pkc_raw_write. rewrite Hst.
  apply Z.eqb_neq in Hlen. rewrite Hlen.
  unfold PKS_write, transport_io, pkc_reset_error_state. simpl.
  rewrite Hret. reflexivity.
Qed.

Lemma raw_write_nothing (c : pk_conn) (d : list byte) (w : world) :
  state c = CONN_CLEAR_DATA ->
  pkc_raw_write c d 0 w = (0, c, set_errno 0 w).
Proof. intros Hst. unfold pkc_raw_write. now rewrite Hst. Qed.

(** C9, as the code has it.  When [pkc_write] is called with 100 bytes
    on a plain-data connection with a valid socket, an empty output
    buffer of capacity 50 and a transport on which every write attempt
    would block: nothing is buffered, the data is never split; the direct
    attempt fails, all 100 bytes go to a blocking flush (the socket is
    put in blocking mode, one more write is attempted, the socket is put
    back in non-blocking mode), and the call returns -1 with the
    connection, its empty buffer and its status flags as they were. *)
Theorem write_blocked_overflow (fuel : nat) (c : pk_conn) (data : list byte)
    (w : world) :
  CONN_IO_BUFFER_SIZE = 50 -> length data = 100%nat ->
  state c = CONN_CLEAR_DATA -> 0 <= sockfd c -> out_buffer_pos c = 0 ->
  always_would_block w ->
  exists w',
    pkc_write (S fuel) c data 100 w = Some (-1, c, w') /\
    trace w' =
      trace w ++ [EvBlocking (sockfd c); EvNonBlocking (sockfd c)] /\
    tick w' = S (S (tick w)) /\ errno w' = EAGAIN.
Proof.
  intros Hcap Hlen Hst Hfd Hpos Hblk.
  assert (Hfd' : (sockfd c <? 0) = false) by lia.
  unfold pkc_write. rewrite Hpos. simpl negb. cbv iota.
  unfold write_new_data. rewrite Hpos. simpl (0 =? 0). cbv iota.
  (* the direct attempt *)
  simpl write_direct.
  rewrite raw_write_refused;
    [|assumption|lia|apply Hblk].
  simpl errno. destruct (Hblk (tick w) 100) as [_ ->].
  simpl. unfold PKC_OUT_FREE. rewrite Hpos, Hcap. simpl.
  (* the blocking flush *)
  unfold pkc_flush. rewrite Hfd'. simpl flush_drain. rewrite Hpos.
  rewrite raw_write_nothing by assumption.
  simpl. rewrite Hpos. simpl.
  rewrite raw_write_refused; [|assumption|lia|apply Hblk].
  simpl. destruct (Hblk (S (tick w)) 100) as [_ ->].
  simpl. rewrite Hpos. simpl. unfold mark_write_error. simpl.
  eexists. split; [reflexivity|].
  simpl. rewrite <- app_assoc. repeat split.
Qed.

(** ** Bandwidth reports *)


(** ** Blocking flush and the mode of the socket *)

(** Every return of a blocking flush on a valid socket other than the
    abort at the ceiling of the drain loop goes through the common exit,
    which puts the socket back in non-blocking mode. *)
Lemma flush_blocking_restores (fuel : nat) (c : pk_conn)
    (data : option (list byte)) (len : Z) (w : world)
    (rv : Z) (c' : pk_conn) (w' : world) :
  0 <= sockfd c ->
  pkc_flush fuel c data len BLOCKING_FLUSH w = Some (rv, c', w') ->
  blocking_mode (sockfd c') w' = Some false \/ (rv = -1 /\ errno w' = EIO).
Proof.
  intros Hfd Hrun. unfold pkc_flush in Hrun.
  assert (E : (sockfd c <? 0) = false) by lia. rewrite E in Hrun.
  destruct (flush_drain _ _ _ _ _ _) as [[[[[wrote fl] ll] c2] w2]|];
    [|discriminate].
  destruct (ll <=? 0).
  { injection Hrun as <- <- <-. right. split; reflexivity. }
  left.
  assert (Hexit : forall flx cx wx,
    Some (flx, cx, set_non_blocking (sockfd cx) wx) = Some (rv, c', w') ->
    blocking_mode (sockfd c') w' = Some false).
  { intros flx cx wx Hx. injection Hx as <- <- <-.
    unfold set_non_blocking. rewrite blocking_mode_emit. simpl.
    now rewrite Z.eqb_refl. }
  simpl in Hrun.
  destruct (wrote <? 0); [eapply Hexit; exact Hrun|].
  destruct data as [d|]; [|eapply Hexit; exact Hrun].
  destruct (out_buffer_pos c2 =? 0); [|eapply Hexit; exact Hrun].
  destruct (flush_direct _ _ _ _ _ _ _ _ _) as [[[[b f3] c3] w3]|];
    [|discriminate].
  destruct (b <? 0); eapply Hexit; exact Hrun.
Qed.

End PkconnFacts.

(** * Further properties *)

Section PkconnMoreFacts.

Context {K : pkconn_h}.

(** ** What the write path leaves alone *)

Lemma conn_frame_refl (c : pk_conn) : conn_frame c c.
Proof. unfold conn_frame. repeat split; lia. Qed.

Lemma conn_frame_trans (a b c : pk_conn) :
  conn_frame a b -> conn_frame b c -> conn_frame a c.
Proof.
  unfold conn_frame.
  intros (?&?&?&?&?&?&?&?&?&?&?) (?&?&?&?&?&?&?&?&?&?&?).
  repeat split; try congruence. lia.
Qed.

Lemma world_frame_refl (fd : Z) (w : world) : world_frame fd w w.
Proof.
  unfold world_frame. repeat split; try lia.
  exists []. split; [now rewrite app_nil_r | constructor].
Qed.

Lemma world_frame_trans (fd : Z) (a b c : world) :
  world_frame fd a b -> world_frame fd b c -> world_frame fd a c.
Proof.
  unfold world_frame.
  intros (?&?&?&?&?&?& l1 & Hl1 & Hf1) (?&?&?&?&?&?& l2 & Hl2 & Hf2).
  repeat split; try congruence; try lia.
  exists (l1 ++ l2). split.
  - now rewrite Hl2, Hl1, app_assoc.
  - apply Forall_app. now split.
Qed.

Lemma world_frame_errno (fd v : Z) (w : world) :
  world_frame fd w (set_errno v w).
Proof.
  unfold world_frame. simpl. repeat split; try lia.
  exists []. split; [now rewrite app_nil_r | constructor].
Qed.

Lemma world_frame_io (fd len : Z) (w : world) :
  world_frame fd w (snd (transport_io len w)).
Proof.
  unfold world_frame. simpl. repeat split; try lia.
  exists []. split; [now rewrite app_nil_r | constructor].
Qed.

Lemma world_frame_emit (fd : Z) (e : event) (w : world) :
  write_event fd e -> world_frame fd w (emit e w).
Proof.
  intros He. unfold world_frame. simpl. repeat split; try lia.
  exists [e]. split; [reflexivity | now constructor].
Qed.

Lemma write_frame_refl (c : pk_conn) (w : world) : write_frame c w c w.
Proof. split; [apply conn_frame_refl | apply world_frame_refl]. Qed.

Lemma write_frame_trans (c : pk_conn) (w : world) (c1 : pk_conn) (w1 : world)
    (c2 : pk_conn) (w2 : world) :
  write_frame c w c1 w1 -> write_frame c1 w1 c2 w2 -> write_frame c w c2 w2.
Proof.
  intros [Hc1 Hw1] [Hc2 Hw2]. split.
  - eapply conn_frame_trans; eassumption.
  - destruct Hc1 as (Hfd & _). rewrite Hfd in Hw2.
    eapply world_frame_trans; eassumption.
Qed.

(** A connection that differs from [c] in status, state, remembered
    length, output buffer or byte counter only. *)
Lemma write_frame_conn (c : pk_conn) (w : world) (c' : pk_conn) :
  conn_frame c c' -> write_frame c w c' w.
Proof. intros H. split; [exact H | apply world_frame_refl]. Qed.

Lemma write_frame_world (c : pk_conn) (w w' : world) :
  world_frame (sockfd c) w w' -> write_frame c w c w'.
Proof. intros H. split; [apply conn_frame_refl | exact H]. Qed.

Lemma count_wrote_frame (x : Z) (c : pk_conn) : conn_frame c (count_wrote x c).
Proof.
  unfold conn_frame, count_wrote. destruct (0 <? x) eqn:E; simpl;
    repeat split; lia.
Qed.

Lemma world_frame_fields (fd : Z) (w w' : world) (l : list event) :
  oracle w' = oracle w -> clock w' = clock w -> socks w' = socks w ->
  ephemeral w' = ephemeral w -> pk_error w' = pk_error w ->
  (tick w <= tick w')%nat ->
  trace w' = trace w ++ l -> Forall (write_event fd) l ->
  world_frame fd w w'.
Proof. intros. unfold world_frame. repeat split; auto. now exists l. Qed.

Ltac all_cases :=
  repeat match goal with
         | |- context [if ?b then _ else _] => destruct b eqn:?
         end.

Ltac frame_world :=
  eapply world_frame_fields; cbn in *; try reflexivity; try lia;
  try (symmetry; apply app_nil_r); try (repeat constructor).

Ltac frame_conn := unfold conn_frame; cbn in *; repeat split; lia.

Lemma do_handshake_frame (c : pk_conn) (w : world) :
  let '(c', w') := pkc_do_handshake c w in
  write_frame c w c' w' /\ wrote_bytes c' = wrote_bytes c /\
  out_buffer c' = out_buffer c /\ out_buffer_pos c' = out_buffer_pos c /\
  (tick w' <= S (tick w))%nat /\ trace w' = trace w.
Proof.
  unfold pkc_do_handshake, SSL_do_handshake, transport_io,
    pkc_reset_error_state, SSL_get_error, pkc_end_handshake, raise_flag.
  cbv zeta. all_cases;
    (split; [split; [frame_conn | frame_world] | cbn; repeat split; lia]).
Qed.

(** One raw write, in any state of the connection: at most one call
    reaches the transport, at most one event is added, a write on the
    connection's own socket, and the output buffer is not touched. *)
Lemma raw_write_frame (c : pk_conn) (d : list byte) (len : Z) (w : world) :
  let '(rv, c', w') := pkc_raw_write c d len w in
  write_frame c w c' w' /\
  out_buffer c' = out_buffer c /\ out_buffer_pos c' = out_buffer_pos c /\
  (tick w' <= S (tick w))%nat /\
  (trace w' = trace w \/
   exists bytes, trace w' = trace w ++ [EvWrite (sockfd c) bytes]).
Proof.
  unfold pkc_raw_write. destruct (state c).
  - unfold PKS_write, transport_io, pkc_reset_error_state, count_wrote.
    cbv zeta. all_cases;
      (split; [split; [frame_conn | frame_world]
              | cbn in *; repeat split; try lia;
                first [now left | right; eexists; reflexivity]]).
  - unfold SSL_write, transport_io, pkc_reset_error_state, SSL_get_error,
      count_wrote, raise_flag.
    cbv zeta. all_cases;
      (split; [split; [frame_conn | frame_world]
              | cbn in *; repeat split; try lia;
                first [now left | right; eexists; reflexivity]]).
  - destruct (negb (has_flag CONN_STATUS_BROKEN c)).
    + pose proof (do_handshake_frame c (pkc_reset_error_state w)) as H.
      destruct (pkc_do_handshake c (pkc_reset_error_state w)) as [c1 w1].
      destruct H as (Hf & Hwb & Hb & Hp & Ht & Htr).
      split.
      * eapply write_frame_trans; [|exact Hf].
        apply write_frame_world, world_frame_errno.
      * repeat split; try assumption. now left.
    + split; [apply write_frame_world, world_frame_errno|].
      simpl. repeat split; try lia. now left.
Qed.

Lemma with_output_frame (buf : list byte) (pos : Z) (c : pk_conn) :
  conn_frame c (with_output buf pos c).
Proof. frame_conn. Qed.

Lemma mark_write_error_frame (c : pk_conn) (w : world) :
  conn_frame c (mark_write_error c w).
Proof.
  unfold mark_write_error, raise_flag. all_cases; frame_conn.
Qed.

Lemma flush_drain_frame (fuel : nat) :
  forall (mode : flush_mode) (c : pk_conn) (w : world) (fl ll : Z)
         (wrote fl' ll' : Z) (c' : pk_conn) (w' : world),
    flush_drain fuel mode c w fl ll = Some (wrote, fl', ll', c', w') ->
    write_frame c w c' w' /\ (tick w' <= tick w + fuel)%nat.
Proof.
  induction fuel as [|fuel IH];
    intros mode c w fl ll wrote fl' ll' c' w' Hrun; [discriminate|].
  simpl in Hrun.
  pose proof (raw_write_frame c (out_buffer c) (out_buffer_pos c) w) as HR.
  destruct (pkc_raw_write c (out_buffer c) (out_buffer_pos c) w)
    as [[wr c1] w1].
  destruct HR as (Hf & _ & _ & Ht & _).
  assert (Hagain : forall c2 fl2,
    write_frame c w c2 w1 ->
    (if is_blocking_flush mode && (0 <? out_buffer_pos c2)
     then if 0 <? ll then flush_drain fuel mode c2 w1 fl2 (ll - 1)
          else Some (wr, fl2, ll - 1, c2, w1)
     else Some (wr, fl2, ll, c2, w1)) = Some (wrote, fl', ll', c', w') ->
    write_frame c w c' w' /\ (tick w' <= tick w + S fuel)%nat).
  { intros c2 fl2 Hf2 Hgo.
    destruct (is_blocking_flush mode && (0 <? out_buffer_pos c2)).
    - destruct (0 <? ll).
      + apply IH in Hgo. destruct Hgo as [Hf3 Ht3]. split; [|lia].
        eapply write_frame_trans; eassumption.
      + injection Hgo as <- <- <- <- <-. split; [assumption | lia].
    - injection Hgo as <- <- <- <- <-. split; [assumption | lia]. }
  destruct (0 <? wr).
  - match type of Hrun with
    | context [flush_drain fuel mode ?c2 w1 ?fl2 (ll - 1)] =>
        refine (Hagain c2 fl2 _ Hrun)
    end.
    eapply write_frame_trans; [exact Hf|].
    apply write_frame_conn, with_output_frame.
  - destruct (hard_errno w1).
    + injection Hrun as <- <- <- <- <-. split; [assumption | lia].
    + exact (Hagain c1 fl Hf Hrun).
Qed.

Lemma flush_direct_frame (fuel : nat) :
  forall (c : pk_conn) (w : world) (data : list byte)
         (len wrote fl bytes ll b' fl' : Z) (c' : pk_conn) (w' : world),
    flush_direct fuel c w data len wrote fl bytes ll = Some (b', fl', c', w') ->
    write_frame c w c' w' /\ (tick w' <= tick w + fuel)%nat.
Proof.
  induction fuel as [|fuel IH];
    intros c w data len wrote fl bytes ll b' fl' c' w' Hrun; [discriminate|].
  simpl in Hrun. destruct (wrote <? len).
  - pose proof (raw_write_frame c (ptr_add data wrote) (len - wrote) w) as HR.
    destruct (pkc_raw_write c (ptr_add data wrote) (len - wrote) w)
      as [[b c1] w1].
    destruct HR as (Hf & _ & _ & Ht & _).
    destruct (0 <? b).
    + apply IH in Hrun. destruct Hrun as [Hf2 Ht2]. split; [|lia].
      eapply write_frame_trans; eassumption.
    + destruct (hard_errno w1).
      { injection Hrun as <- <- <- <-. split; [assumption | lia]. }
      destruct (ll <=? 0).
      { injection Hrun as <- <- <- <-. split; [|simpl; lia].
        eapply write_frame_trans; [exact Hf|].
        apply write_frame_world, world_frame_errno. }
      apply IH in Hrun. destruct Hrun as [Hf2 Ht2]. split; [|lia].
      eapply write_frame_trans; eassumption.
  - injection Hrun as <- <- <- <-. split; [apply write_frame_refl | lia].
Qed.

Lemma pkc_flush_frame (fuel : nat) (c : pk_conn) (data : option (list byte))
    (len : Z) (mode : flush_mode) (w : world)
    (rv : Z) (c' : pk_conn) (w' : world) :
  pkc_flush fuel c data len mode w = Some (rv, c', w') ->
  write_frame c w c' w' /\ (tick w' <= tick w + 2 * fuel)%nat.
Proof.
  intros Hrun. unfold pkc_flush in Hrun.
  destruct (sockfd c <? 0).
  { injection Hrun as <- <- <-.
    split; [apply write_frame_world, world_frame_errno | simpl; lia]. }
  set (w1 := if is_blocking_flush mode
             then set_blocking (sockfd c) (set_errno 0 w)
             else set_errno 0 w) in Hrun.
  assert (Hw1 : write_frame c w c w1 /\ tick w1 = tick w).
  { subst w1. destruct (is_blocking_flush mode).
    - split; [|reflexivity]. apply write_frame_world.
      eapply world_frame_trans; [apply world_frame_errno|].
      apply world_frame_emit. reflexivity.
    - split; [|reflexivity]. apply write_frame_world, world_frame_errno. }
  destruct Hw1 as [Hf1 Ht1].
  destruct (flush_drain fuel mode c w1 0 1000)
    as [[[[[wrote fl] ll] c2] w2]|] eqn:Ed; [|discriminate].
  apply flush_drain_frame in Ed. destruct Ed as [Hf2 Ht2].
  assert (Hf02 : write_frame c w c2 w2)
    by (eapply write_frame_trans; eassumption).
  destruct (ll <=? 0).
  { injection Hrun as <- <- <-. split; [|simpl; lia].
    eapply write_frame_trans; [exact Hf02|].
    apply write_frame_world, world_frame_errno. }
  (* the common exit *)
  assert (Hexit : forall flx cx wx,
    write_frame c w cx wx -> (tick wx <= tick w + 2 * fuel)%nat ->
    Some (flx, cx,
          if is_blocking_flush mode then set_non_blocking (sockfd cx) wx
          else wx) = Some (rv, c', w') ->
    write_frame c w c' w' /\ (tick w' <= tick w + 2 * fuel)%nat).
  { intros flx cx wx Hfx Htx Hx. injection Hx as <- <- <-.
    destruct (is_blocking_flush mode); [|now split].
    split; [|simpl; lia].
    eapply write_frame_trans; [exact Hfx|].
    apply write_frame_world, world_frame_emit. reflexivity. }
  assert (Hmark : forall cx wx,
    write_frame c w cx wx -> write_frame c w (mark_write_error cx wx) wx).
  { intros cx wx Hfx. eapply write_frame_trans; [exact Hfx|].
    apply write_frame_conn, mark_write_error_frame. }
  destruct (wrote <? 0).
  { eapply Hexit; [| |exact Hrun]; [now apply Hmark | lia]. }
  destruct data as [d|]; [|eapply Hexit; [| |exact Hrun]; [assumption|lia]].
  destruct (is_blocking_flush mode && (out_buffer_pos c2 =? 0));
    [|eapply Hexit; [| |exact Hrun]; [assumption|lia]].
  destruct (flush_direct fuel c2 w2 d len 0 0 0 ll)
    as [[[[b f3] c3] w3]|] eqn:Edir; [|discriminate].
  apply flush_direct_frame in Edir. destruct Edir as [Hf3 Ht3].
  assert (Hf03 : write_frame c w c3 w3)
    by (eapply write_frame_trans; eassumption).
  destruct (b <? 0).
  - eapply Hexit; [| |exact Hrun]; [now apply Hmark | lia].
  - eapply Hexit; [| |exact Hrun]; [assumption | lia].
Qed.

Lemma write_direct_frame (fuel : nat) :
  forall (c : pk_conn) (w : world) (data : list byte) (len wrote : Z)
         (c' : pk_conn) (w' : world),
    write_direct fuel c data len w = Some (wrote, c', w') ->
    write_frame c w c' w'.
Proof.
  induction fuel as [|fuel IH]; intros c w data len wrote c' w' Hrun;
    [discriminate|].
  simpl in Hrun.
  pose proof (raw_write_frame c data len w) as HR.
  destruct (pkc_raw_write c data len w) as [[wr c1] w1].
  destruct HR as (Hf & _).
  destruct ((wr <? 0) && ((errno w1 =? EINTR) || (errno w1 =? 0))).
  - apply IH in Hrun. eapply write_frame_trans; eassumption.
  - injection Hrun as <- <- <-. assumption.
Qed.

Lemma write_new_data_frame (fuel : nat) (c : pk_conn) (data : list byte)
    (len : Z) (w : world) (rv : Z) (c' : pk_conn) (w' : world) :
  write_new_data fuel c data len w = Some (rv, c', w') ->
  write_frame c w c' w' /\ (rv = len \/ rv = -1).
Proof.
  intros Hrun. unfold write_new_data in Hrun.
  assert (H2 : forall wrote c2 w2,
    (if out_buffer_pos c =? 0
     then write_direct fuel c data len (set_errno 0 w)
     else Some (0, c, w)) = Some (wrote, c2, w2) ->
    write_frame c w c2 w2).
  { intros wrote c2 w2 H. destruct (out_buffer_pos c =? 0).
    - apply write_direct_frame in H.
      eapply write_frame_trans; [|exact H].
      apply write_frame_world, world_frame_errno.
    - injection H as <- <- <-. apply write_frame_refl. }
  destruct (if out_buffer_pos c =? 0
            then write_direct fuel c data len (set_errno 0 w)
            else Some (0, c, w)) as [[[wrote c2] w2]|]; [|discriminate].
  specialize (H2 wrote c2 w2 eq_refl).
  destruct (wrote <? len).
  - match type of Hrun with
    | (if ?b then _ else _) = _ => destruct b
    end.
    + injection Hrun as <- <- <-. split; [|now left].
      eapply write_frame_trans; [exact H2|].
      apply write_frame_conn, with_output_frame.
    + match type of Hrun with
      | match ?f with _ => _ end = _ =>
          destruct f as [[[r3 c3] w3]|] eqn:Ef; [|discriminate]
      end.
      apply pkc_flush_frame in Ef. destruct Ef as [Hf3 _].
      assert (Hf : write_frame c w c3 w3)
        by (eapply write_frame_trans; eassumption).
      destruct (r3 <? 0); injection Hrun as <- <- <-; split; auto.
  - injection Hrun as <- <- <-. split; [assumption | now left].
Qed.

Lemma write_events_other (fd fd' : Z) (l : list event) :
  Forall (write_event fd) l -> fd' <> fd ->
  flat_map (sent_by fd') l = [] /\
  forall m, fold_left (mode_after fd') l m = m.
Proof.
  intros Hall Hne. apply Z.eqb_neq in Hne.
  induction l as [|e l IH]; [split; reflexivity|].
  inversion Hall as [|e' l' He Hl]; subst.
  destruct (IH Hl) as [IH1 IH2]. cbn [flat_map fold_left].
  rewrite IH1, app_nil_r. split.
  - destruct e; cbn in *; try reflexivity. subst.
    now rewrite Z.eqb_sym, Hne.
  - intros m. rewrite IH2.
    destruct e; cbn in *; try reflexivity; subst;
      now rewrite Z.eqb_sym, Hne.
Qed.

(** The write path on socket [fd] sends nothing on another socket and
    leaves the blocking mode of another socket alone. *)
Lemma world_frame_other (fd : Z) (w w' : world) (fd' : Z) :
  world_frame fd w w' -> fd' <> fd ->
  sent fd' w' = sent fd' w /\ blocking_mode fd' w' = blocking_mode fd' w.
Proof.
  intros (_ & _ & _ & _ & _ & _ & l & Htr & Hall) Hne.
  destruct (write_events_other fd fd' l Hall Hne) as [H1 H2].
  unfold sent, blocking_mode.
  rewrite Htr, flat_map_app, fold_left_app, H1, H2, app_nil_r.
  split; reflexivity.
Qed.

(** [pkc_write] stays within the frame of the write path and returns
    the length it was given or -1. *)
Lemma pkc_write_frame (fuel : nat) (c : pk_conn) (data : list byte)
    (len : Z) (w : world) (rv : Z) (c' : pk_conn) (w' : world) :
  pkc_write fuel c data len w = Some (rv, c', w') ->
  write_frame c w c' w' /\ (rv = len \/ rv = -1).
Proof.
  intros Hrun. unfold pkc_write in Hrun.
  destruct (negb (out_buffer_pos c =? 0)).
  - destruct (pkc_flush fuel c None 0 NON_BLOCKING_FLUSH w)
      as [[[r1 c1] w1]|] eqn:Ef; [|discriminate].
    apply pkc_flush_frame in Ef. destruct Ef as [Hf1 _].
    eapply write_new_data_frame in Hrun. destruct Hrun as [Hf2 Hrv].
    split; [|assumption]. eapply write_frame_trans; eassumption.
  - eapply write_new_data_frame; eassumption.
Qed.

(** A flush of a well-formed plain-data connection over a well-behaved
    transport leaves a well-formed plain-data connection on the same
    socket, whatever it returns. *)
Lemma flush_plain_wf (fuel : nat) (c : pk_conn) (data : option (list byte))
    (len : Z) (mode : flush_mode) (w : world)
    (rv : Z) (c' : pk_conn) (w' : world) :
  state c = CONN_CLEAR_DATA -> conn_wf c -> well_behaved w -> 0 <= len ->
  pkc_flush fuel c data len mode w = Some (rv, c', w') ->
  conn_wf c' /\ state c' = CONN_CLEAR_DATA /\ sockfd c' = sockfd c.
Proof.
  intros Hst Hwf Hwb Hlen Hrun. unfold pkc_flush in Hrun.
  destruct (sockfd c <? 0).
  { injection Hrun as <- <- <-. tauto. }
  set (w1 := if is_blocking_flush mode
             then set_blocking (sockfd c) (set_errno 0 w)
             else set_errno 0 w) in Hrun.
  assert (Hwb1 : well_behaved w1).
  { unfold well_behaved. subst w1.
    destruct (is_blocking_flush mode); exact Hwb. }
  destruct (flush_drain fuel mode c w1 0 1000)
    as [[[[[wrote fl] ll] c2] w2]|] eqn:Ed; [|discriminate].
  destruct (flush_drain_plain fuel mode c w1 0 1000 wrote fl ll c2 w2
              Hst Hwf Hwb1 Ed) as ((Hs2 & Hf2 & Hwf2 & Ho2 & _) & _ & _).
  assert (Hwb2 : well_behaved w2) by (unfold well_behaved; now rewrite Ho2).
  assert (Hmark : forall cx wx,
    conn_wf cx -> state cx = CONN_CLEAR_DATA -> sockfd cx = sockfd c ->
    conn_wf (mark_write_error cx wx) /\
    state (mark_write_error cx wx) = CONN_CLEAR_DATA /\
    sockfd (mark_write_error cx wx) = sockfd c).
  { intros cx wx Hw Hs Hf.
    destruct (mark_write_error_status cx wx) as (_ & Ha & Hb & Hc & Hd).
    unfold conn_wf in *. rewrite Ha, Hb, Hc, Hd. tauto. }
  destruct (ll <=? 0).
  { injection Hrun as <- <- <-. tauto. }
  cbv zeta in Hrun.
  destruct (wrote <? 0).
  { injection Hrun as <- <- <-. now apply Hmark. }
  destruct data as [d|]; [|injection Hrun as <- <- <-; tauto].
  destruct (is_blocking_flush mode && (out_buffer_pos c2 =? 0));
    [|injection Hrun as <- <- <-; tauto].
  destruct (flush_direct fuel c2 w2 d len 0 0 0 ll)
    as [[[[b fl3] c3] w3]|] eqn:Edir; [|discriminate].
  destruct (flush_direct_plain fuel c2 w2 d len 0 0 0 ll b fl3 c3 w3
              Hs2 Hwb2 ltac:(lia) ltac:(left; lia) Edir)
    as ((_ & Hfd3 & Hss3 & Hb3 & Hp3) & _).
  assert (Hwf3 : conn_wf c3) by (unfold conn_wf in *; rewrite Hb3, Hp3; tauto).
  assert (Hs3 : state c3 = CONN_CLEAR_DATA) by congruence.
  assert (Hf3 : sockfd c3 = sockfd c) by congruence.
  destruct (b <? 0); injection Hrun as <- <- <-;
    [now apply Hmark | tauto].
Qed.

(** X1.  [pkc_write] of data of the length submitted, on a well-formed
    plain-data connection over a well-behaved transport, whatever else
    the transport answers: a call that returns gives the length it was
    given or -1 and leaves a well-formed plain-data connection, so that
    every copy into the output buffer stayed within it; it never touches
    the socket handle, the input buffer and its offset, the activity
    timestamp, the read counters, the send window, the reported KB or
    the TLS session; the counter of bytes written never goes down; and
    all it does to the outside is to write to its own socket and to
    change the blocking mode of that socket: it closes nothing, frees
    nothing and binds nothing, and on every other socket the bytes sent
    and the blocking mode are as they were. *)
Theorem write_leaves_rest_alone (fuel : nat) (c : pk_conn) (data : list byte)
    (w : world) (rv : Z) (c' : pk_conn) (w' : world) :
  state c = CONN_CLEAR_DATA -> conn_wf c -> well_behaved w ->
  pkc_write fuel c data (Z.of_nat (length data)) w = Some (rv, c', w') ->
  write_frame c w c' w' /\ (rv = Z.of_nat (length data) \/ rv = -1) /\
  conn_wf c' /\ state c' = CONN_CLEAR_DATA /\
  (forall fd, fd <> sockfd c ->
     sent fd w' = sent fd w /\ blocking_mode fd w' = blocking_mode fd w).
Proof.
  intros Hst Hwf Hwb Hrun.
  destruct (pkc_write_frame _ _ _ _ _ _ _ _ Hrun) as [Hf Hrv].
  split; [exact Hf|]. split; [exact Hrv|].
  assert (Hok : conn_wf c' /\ state c' = CONN_CLEAR_DATA).
  { destruct (pkc_write_plain _ _ _ _ _ _ _ _ Hst Hwf Hwb eq_refl Hrun)
      as (_ & [[_ (Hs & _ & Hw & _)]|Hneg]); [tauto|].
    destruct (pkc_write_failed _ _ _ _ _ _ _ _ Hst Hwf Hwb eq_refl Hrun Hneg)
      as (c2 & w2 & k & r & Hk & (Hs2 & _ & Hwf2 & Ho2 & _) & _ & Hfl & _).
    assert (Hwb2 : well_behaved w2)
      by (unfold well_behaved; now rewrite Ho2).
    assert (Hl2 : 0 <= Z.of_nat (length data) - k) by lia.
    destruct (flush_plain_wf _ _ _ _ _ _ _ _ _ Hs2 Hwf2 Hwb2 Hl2 Hfl)
      as (Ha & Hb & _).
    tauto. }
  split; [apply Hok|]. split; [apply Hok|].
  intros fd Hfd. apply (world_frame_other (sockfd c)); [apply Hf | exact Hfd].
Qed.


(** X2.  [pkc_flush] always returns, in any state of the connection and
    whatever the transport answers: with [len] bytes of new data,
    [len + 1001] rounds of each of its two loops are enough, and no more
    than twice that many calls reach the transport.  Like [pkc_write] it
    leaves the rest of the connection and of the world alone. *)
Theorem flush_always_returns (c : pk_conn) (data : option (list byte))
    (len : Z) (mode : flush_mode) (w : world) :
  exists rv c' w',
    pkc_flush (Z.to_nat len + 1001) c data len mode w = Some (rv, c', w') /\
    (tick w' <= tick w + 2 * (Z.to_nat len + 1001))%nat /\
    write_frame c w c' w'.
Proof.
  pose proof (pkc_flush_total (Z.to_nat len + 1001) c data len mode w
                ltac:(lia)) as Ht.
  destruct (pkc_flush (Z.to_nat len + 1001) c data len mode w)
    as [[[rv c'] w']|] eqn:Ef; [|congruence].
  exists rv, c', w'. split; [reflexivity|].
  apply pkc_flush_frame in Ef. tauto.
Qed.

(** ** Non-blocking flush *)

(** X3.  A non-blocking flush, in any state of the connection, is a
    single pass: it returns after at most one call to the transport, adds
    at most one event, a write on the connection's own socket, never
    changes the blocking mode of a socket, and never writes new data it
    was handed. *)
Theorem flush_non_blocking_single_pass (fuel : nat) (c : pk_conn)
    (data : option (list byte)) (len : Z) (w : world) :
  exists rv c' w',
    pkc_flush (S fuel) c data len NON_BLOCKING_FLUSH w = Some (rv, c', w') /\
    (tick w' <= S (tick w))%nat /\
    (trace w' = trace w \/
     exists bytes, trace w' = trace w ++ [EvWrite (sockfd c) bytes]) /\
    (forall fd, blocking_mode fd w' = blocking_mode fd w) /\
    pkc_flush (S fuel) c data len NON_BLOCKING_FLUSH w =
    pkc_flush (S fuel) c None 0 NON_BLOCKING_FLUSH w.
Proof.
  assert (Hmode : forall w1 : world,
    (trace w1 = trace w \/
     exists bytes, trace w1 = trace w ++ [EvWrite (sockfd c) bytes]) ->
    forall fd, blocking_mode fd w1 = blocking_mode fd w).
  { intros w1 [Ht|[bytes Ht]] fd; unfold blocking_mode; rewrite Ht;
      [reflexivity|]. now rewrite fold_left_app. }
  unfold pkc_flush. destruct (sockfd c <? 0).
  { do 3 eexists. split; [reflexivity|]. simpl.
    split; [lia|]. split; [now left|]. split; reflexivity. }
  cbn [is_blocking_flush flush_drain andb].
  pose proof (raw_write_frame c (out_buffer c) (out_buffer_pos c)
                (set_errno 0 w)) as HR.
  destruct (pkc_raw_write c (out_buffer c) (out_buffer_pos c) (set_errno 0 w))
    as [[wr c1] w1].
  destruct HR as (_ & _ & _ & Ht & Htr). simpl in Ht, Htr.
  assert (E : (1000 <=? 0) = false) by reflexivity.
  destruct (0 <? wr) eqn:Ewr.
  - rewrite E. assert (En : (wr <? 0) = false) by lia. rewrite En.
    destruct data; do 3 eexists; (split; [reflexivity|]); auto.
  - destruct (hard_errno w1); rewrite E; destruct (wr <? 0);
      destruct data; do 3 eexists; (split; [reflexivity|]); auto.
Qed.

Lemma raw_write_accepted (c : pk_conn) (d : list byte) (len : Z) (w : world) :
  state c = CONN_CLEAR_DATA -> len <> 0 ->
  0 < io_ret (oracle w (tick w) len) ->
  pkc_raw_write c d len w =
  (io_ret (oracle w (tick w) len),
   with_wrote_bytes (wrote_bytes c + io_ret (oracle w (tick w) len)) c,
   emit (EvWrite (sockfd c) (bytes_at d (io_ret (oracle w (tick w) len))))
     (mk_world (io_errno (oracle w (tick w) len)) (pk_error w) (clock w)
               (S (tick w)) (oracle w) (ephemeral w) (socks w) (trace w))).
Proof.
  intros Hst Hlen Hret. unfold pkc_raw_write. rewrite Hst.
  apply Z.eqb_neq in Hlen. rewrite Hlen.
  unfold PKS_write, transport_io, pkc_reset_error_state, count_wrote.
  cbn [tick oracle set_errno pk_error clock ephemeral socks trace].
  apply Z.ltb_lt in Hret. rewrite Hret. reflexivity.
Qed.

(** The result of a non-blocking flush when the transport takes [k > 0]
    of the buffered bytes. *)
Lemma flush_accepts_result (fuel : nat) (c : pk_conn)
    (data : option (list byte)) (len : Z) (w : world) :
  state c = CONN_CLEAR_DATA -> 0 <= sockfd c -> 0 < out_buffer_pos c ->
  let k := io_ret (oracle w (tick w) (out_buffer_pos c)) in
  0 < k ->
  pkc_flush (S fuel) c data len NON_BLOCKING_FLUSH w
  = Some (k,
          with_output
            (if k <? out_buffer_pos c
             then mem_write (out_buffer c) 0
                    (bytes_at (ptr_add (out_buffer c) k)
                              (out_buffer_pos c - k))
             else out_buffer c) (out_buffer_pos c - k)
            (with_wrote_bytes (wrote_bytes c + k) c),
          emit (EvWrite (sockfd c) (bytes_at (out_buffer c) k))
            (mk_world (io_errno (oracle w (tick w) (out_buffer_pos c)))
               (pk_error w) (clock w) (S (tick w)) (oracle w) (ephemeral w)
               (socks w) (trace w))).
Proof.
  intros Hst Hfd Hpos k Hk. subst k.
  unfold pkc_flush. assert (E : (sockfd c <? 0) = false) by lia. rewrite E.
  cbn [is_blocking_flush flush_drain andb].
  rewrite raw_write_accepted; [|assumption| |exact Hk].
  2:{ cbn. lia. }
  cbn [tick oracle set_errno].
  set (k := io_ret (oracle w (tick w) (out_buffer_pos c))) in *.
  assert (E1 : (0 <? k) = true) by lia. rewrite E1.
  assert (E2 : (1000 <=? 0) = false) by reflexivity. rewrite E2.
  assert (E3 : (k <? 0) = false) by lia. rewrite E3.
  destruct data; reflexivity.
Qed.

(** X4.  A non-blocking flush of a plain-data connection of which the
    transport takes [k] of the [pos] buffered bytes returns [k]: the
    first [k] buffered bytes have gone out on the socket, the bytes
    behind them have moved to the front of the buffer in their order, the
    offset is [pos - k], the counter of bytes written has grown by [k]
    and the status flags are as they were. *)
Theorem flush_partial_drain (fuel : nat) (c : pk_conn)
    (data : option (list byte)) (len : Z) (w : world) :
  state c = CONN_CLEAR_DATA -> conn_wf c -> 0 <= sockfd c ->
  let pos := out_buffer_pos c in
  let k := io_ret (oracle w (tick w) pos) in
  0 < k <= pos ->
  exists c' w',
    pkc_flush (S fuel) c data len NON_BLOCKING_FLUSH w = Some (k, c', w') /\
    sent (sockfd c) w' = sent (sockfd c) w ++ bytes_at (out_buffer c) k /\
    pending c' = bytes_at (ptr_add (out_buffer c) k) (pos - k) /\
    out_buffer_pos c' = pos - k /\
    wrote_bytes c' = wrote_bytes c + k /\
    status c' = status c /\ conn_wf c' /\ tick w' = S (tick w).
Proof.
  intros Hst Hwf Hfd pos k Hk. subst pos k.
  destruct Hwf as [[Hp0 Hp1] Hcap].
  rewrite flush_accepts_result by (assumption || lia).
  set (k := io_ret (oracle w (tick w) (out_buffer_pos c))) in *.
  do 2 eexists. split; [reflexivity|].
  split; [rewrite sent_emit; simpl; now rewrite Z.eqb_refl|].
  split; [unfold pending; simpl; apply pending_drained; lia|].
  split; [reflexivity|]. split; [reflexivity|]. split; [reflexivity|].
  split; [|reflexivity].
  unfold conn_wf. simpl. rewrite drained_length by lia. lia.
Qed.


(** X5.  A flush of the buffered bytes of a well-formed plain-data
    connection over a well-behaved transport, in either mode, returns
    and loses nothing: the bytes sent on the socket followed by those
    still in the buffer are, in order, the bytes that had been sent
    followed by those that were buffered; the connection is still well
    formed and in plain data, and its status flags changed by
    ClosedForWrite at most. *)
Theorem flush_keeps_stream (c : pk_conn) (mode : flush_mode) (w : world) :
  state c = CONN_CLEAR_DATA -> conn_wf c -> well_behaved w ->
  exists rv c' w',
    pkc_flush 1001 c None 0 mode w = Some (rv, c', w') /\
    sent (sockfd c) w' ++ pending c' = sent (sockfd c) w ++ pending c /\
    conn_wf c' /\ state c' = CONN_CLEAR_DATA /\ status_marked c c'.
Proof.
  intros Hst Hwf Hwb.
  pose proof (pkc_flush_total 1001 c None 0 mode w ltac:(simpl; lia)) as Ht.
  destruct (pkc_flush 1001 c None 0 mode w) as [[[rv c'] w']|] eqn:Ef;
    [|congruence].
  exists rv, c', w'. split; [reflexivity|].
  destruct (flush_plain _ _ _ _ _ _ _ _ _ Hst Hwf Hwb Ef) as (Hm & Hk & _).
  destruct (Hk (or_introl eq_refl)) as (Hs & _ & Hw & _ & Hkept).
  rewrite app_nil_r in Hkept. tauto.
Qed.

(** ** The fast path and the buffer *)

(** X6.  [pkc_write] on a plain-data connection with an empty output
    buffer, when the transport takes [k] of the [len] bytes and the rest
    fits the buffer: exactly one call reaches the transport, the first
    [k] bytes have gone out on the socket, the rest and nothing else
    waits in the buffer, the counter of bytes written has grown by [k],
    the status flags are as they were and the call returns [len]. *)
Theorem write_direct_then_buffer (fuel : nat) (c : pk_conn)
    (data : list byte) (w : world) :
  state c = CONN_CLEAR_DATA -> conn_wf c -> out_buffer_pos c = 0 ->
  let len := Z.of_nat (length data) in
  let k := io_ret (oracle w (tick w) len) in
  0 < k <= len -> len - k <= CONN_IO_BUFFER_SIZE ->
  exists c' w',
    pkc_write (S fuel) c data len w = Some (len, c', w') /\
    tick w' = S (tick w) /\
    sent (sockfd c) w' = sent (sockfd c) w ++ bytes_at data k /\
    pending c' = ptr_add data k /\
    wrote_bytes c' = wrote_bytes c + k /\
    status c' = status c /\ conn_wf c'.
Proof.
  intros Hst Hwf Hpos len k Hk Hfit. subst len k.
  destruct Hwf as [[Hp0 Hp1] Hcap].
  set (len := Z.of_nat (length data)) in *.
  unfold pkc_write. rewrite Hpos. cbn [Z.eqb negb].
  unfold write_new_data. rewrite Hpos. cbn [Z.eqb].
  cbn [write_direct].
  rewrite raw_write_accepted; [|assumption| |exact (proj1 Hk)].
  2:{ cbn. lia. }
  cbn [tick oracle set_errno].
  set (k := io_ret (oracle w (tick w) len)) in *.
  assert (E1 : (k <? 0) = false) by lia. rewrite E1. cbn [andb].
  destruct (k <? len) eqn:Emore.
  - unfold PKC_OUT_FREE. cbn [out_buffer_pos with_wrote_bytes].
    rewrite Hpos. rewrite E1.
    assert (E2 : (len - k <=? CONN_IO_BUFFER_SIZE - 0) = true) by lia.
    rewrite E2.
    assert (Hl : Z.of_nat (length (bytes_at (ptr_add data k) (len - k)))
                 = len - k).
    { apply bytes_at_length. rewrite ptr_add_length; lia. }
    do 2 eexists. split; [reflexivity|]. split; [reflexivity|].
    split; [rewrite sent_emit; simpl; now rewrite Z.eqb_refl|].
    split.
    { unfold pending. cbn [out_buffer out_buffer_pos with_output].
      unfold bytes_at at 1.
      replace (Z.to_nat (0 + (len - k)))
        with (Z.to_nat 0
              + length (bytes_at (ptr_add data k) (len - k)))%nat by lia.
      rewrite mem_write_prefix by lia.
      cbn [Z.to_nat firstn app].
      apply bytes_at_all. rewrite ptr_add_length; lia. }
    split; [reflexivity|]. split; [reflexivity|].
    unfold conn_wf. cbn [out_buffer out_buffer_pos with_output].
    cbn [out_buffer with_wrote_bytes].
    rewrite mem_write_length by (cbn [Z.to_nat]; lia). lia.
  - assert (k = len) by lia.
    do 2 eexists. split; [reflexivity|]. split; [reflexivity|].
    split; [rewrite sent_emit; simpl; now rewrite Z.eqb_refl|].
    split.
    { unfold pending. cbn [out_buffer out_buffer_pos with_wrote_bytes].
      rewrite Hpos. unfold ptr_add. rewrite skipn_all2 by lia. reflexivity. }
    split; [reflexivity|]. split; [reflexivity|].
    unfold conn_wf. cbn [out_buffer out_buffer_pos with_wrote_bytes]. lia.
Qed.

(** One write on a blocked transport, of data that fits the buffer. *)
Lemma write_blocked_step (fuel : nat) (c : pk_conn) (data : list byte)
    (w : world) :
  state c = CONN_CLEAR_DATA -> conn_wf c -> always_would_block w ->
  Z.of_nat (length data) <= PKC_OUT_FREE c ->
  exists c' w',
    pkc_write (S fuel) c data (Z.of_nat (length data)) w
      = Some (Z.of_nat (length data), c', w') /\
    pending c' = pending c ++ data /\
    out_buffer_pos c' = out_buffer_pos c + Z.of_nat (length data) /\
    trace w' = trace w /\ oracle w' = oracle w /\
    state c' = CONN_CLEAR_DATA /\ conn_wf c' /\ status c' = status c /\
    wrote_bytes c' = wrote_bytes c.
Proof.
  intros Hst Hwf Hblk Hfit. unfold PKC_OUT_FREE in Hfit.
  destruct Hwf as [[Hp0 Hp1] Hcap].
  set (len := Z.of_nat (length data)) in *.
  (* buffering the whole of the data behind what is buffered *)
  assert (Hbuf : forall w1 : world,
    trace w1 = trace w -> oracle w1 = oracle w ->
    exists c' w',
      Some (len,
            with_output
              (mem_write (out_buffer c) (Z.to_nat (out_buffer_pos c))
                         (bytes_at (ptr_add data 0) (len - 0)))
              (out_buffer_pos c + (len - 0)) c, w1)
        = Some (len, c', w') /\
      pending c' = pending c ++ data /\
      out_buffer_pos c' = out_buffer_pos c + len /\
      trace w' = trace w /\ oracle w' = oracle w /\
      state c' = CONN_CLEAR_DATA /\ conn_wf c' /\ status c' = status c /\
      wrote_bytes c' = wrote_bytes c).
  { intros w1 Ht Ho. do 2 eexists. split; [reflexivity|].
    rewrite ptr_add_0, Z.sub_0_r, (bytes_at_all data) by (subst len; lia).
    split.
    { unfold pending. cbn [out_buffer out_buffer_pos with_output].
      unfold bytes_at at 1.
      replace (Z.to_nat (out_buffer_pos c + len))
        with (Z.to_nat (out_buffer_pos c) + length data)%nat
        by (subst len; lia).
      rewrite mem_write_prefix by lia. reflexivity. }
    split; [reflexivity|]. split; [assumption|]. split; [assumption|].
    split; [assumption|]. split; [|split; reflexivity].
    unfold conn_wf. cbn [out_buffer out_buffer_pos with_output].
    rewrite mem_write_length by (subst len; lia). subst len. lia. }
  unfold pkc_write. destruct (out_buffer_pos c =? 0) eqn:Epos.
  - (* nothing buffered: the direct attempt *)
    cbn [negb]. unfold write_new_data. rewrite Epos.
    cbn [write_direct].
    destruct (Z.eq_dec len 0) as [E0|E0].
    + rewrite E0. rewrite raw_write_nothing by assumption.
      cbn [Z.ltb Z.compare andb].
      assert (data = [])
        by (destruct data; [reflexivity|subst len; cbn [length] in E0; lia]).
      subst data. do 2 eexists. split; [reflexivity|].
      rewrite app_nil_r. repeat split; try assumption; try lia.
    + rewrite raw_write_refused; [|assumption|assumption|apply Hblk].
      cbn [errno set_errno tick oracle].
      destruct (Hblk (tick w) len) as [_ ->].
      assert (E1 : (-1 <? len) = true) by (subst len; lia).
      assert (E3 : ((-1 <? 0) && ((EAGAIN =? EINTR) || (EAGAIN =? 0)))
                   = false) by reflexivity.
      rewrite E3, E1. change (-1 <? 0) with true. cbv iota.
      unfold PKC_OUT_FREE.
      assert (E2 : (len - 0 <=? CONN_IO_BUFFER_SIZE - out_buffer_pos c)
                   = true) by lia.
      rewrite E2. apply Hbuf; reflexivity.
  - (* something buffered: the flush fails and step 2 is skipped *)
    apply Z.eqb_neq in Epos. cbn [negb].
    assert (Hflush : exists w1,
      pkc_flush (S fuel) c None 0 NON_BLOCKING_FLUSH w = Some (-1, c, w1) /\
      trace w1 = trace w /\ oracle w1 = oracle w).
    { unfold pkc_flush. destruct (sockfd c <? 0).
      - eexists. split; [reflexivity|]. split; reflexivity.
      - cbn [is_blocking_flush flush_drain andb].
        rewrite raw_write_refused; [|assumption|assumption|apply Hblk].
        cbn [errno set_errno tick oracle].
        destruct (Hblk (tick w) (out_buffer_pos c)) as [_ ->].
        cbn. unfold mark_write_error. cbn.
        eexists. split; [reflexivity|]. split; reflexivity. }
    destruct Hflush as (w1 & -> & Ht1 & Ho1).
    unfold write_new_data.
    assert (E : (out_buffer_pos c =? 0) = false) by lia. rewrite E.
    destruct (0 <? len) eqn:Elen.
    + unfold PKC_OUT_FREE.
      assert (E2 : (len - 0 <=? CONN_IO_BUFFER_SIZE - out_buffer_pos c) = true)
        by lia.
      cbn [Z.ltb Z.compare]. rewrite E2. now apply Hbuf.
    + assert (data = [])
        by (destruct data; [reflexivity|];
            subst len; apply Z.ltb_ge in Elen; cbn [length] in Elen; lia).
      subst data. do 2 eexists. split; [reflexivity|].
      rewrite app_nil_r. repeat split; try assumption; try lia.
Qed.

Lemma write_each_blocked (fuel : nat) (chunks : list (list byte)) :
  forall (c : pk_conn) (w : world),
    state c = CONN_CLEAR_DATA -> conn_wf c -> always_would_block w ->
    Z.of_nat (length (concat chunks)) <= PKC_OUT_FREE c ->
    exists c' w',
      write_each (S fuel) c chunks w = Some (c', w') /\
      pending c' = pending c ++ concat chunks /\
      trace w' = trace w /\ oracle w' = oracle w /\
      state c' = CONN_CLEAR_DATA /\ conn_wf c' /\ status c' = status c /\
      sockfd c' = sockfd c /\ wrote_bytes c' = wrote_bytes c.
Proof.
  induction chunks as [|d rest IH]; intros c w Hst Hwf Hblk Hfit.
  - exists c, w. simpl. rewrite app_nil_r.
    split; [reflexivity|]. split; [reflexivity|]. split; [reflexivity|].
    split; [reflexivity|]. split; [assumption|]. split; [assumption|].
    repeat split.
  - simpl concat in *. rewrite length_app, Nat2Z.inj_add in Hfit.
    destruct (write_blocked_step fuel c d w Hst Hwf Hblk ltac:(lia))
      as (c1 & w1 & Hrun & Hpend & Hpos & Htr & Ho & Hst1 & Hwf1 & Hs1 & Hwb1).
    assert (Hfd1 : sockfd c1 = sockfd c).
    { apply pkc_write_frame in Hrun.
      destruct Hrun as [[Hcf _] _]. apply Hcf. }
    assert (Hblk1 : always_would_block w1)
      by (unfold always_would_block; now rewrite Ho).
    destruct (IH c1 w1 Hst1 Hwf1 Hblk1) as
        (c' & w' & Hrun' & Hpend' & Htr' & Ho' & Hst' & Hwf' & Hs' & Hfd'
         & Hwb').
    { unfold PKC_OUT_FREE in *. lia. }
    exists c', w'. cbn [write_each]. rewrite Hrun, Z.eqb_refl.
    split; [exact Hrun'|].
    rewrite Hpend', Hpend, <- app_assoc.
    split; [reflexivity|]. split; [congruence|]. split; [congruence|].
    split; [assumption|]. split; [assumption|]. split; [congruence|].
    split; congruence.
Qed.

(** A non-blocking flush when the transport takes all that is
    buffered. *)
Lemma flush_ready_drains (fuel : nat) (c : pk_conn) (w : world) :
  state c = CONN_CLEAR_DATA -> conn_wf c -> 0 <= sockfd c ->
  (0 < out_buffer_pos c ->
   io_ret (oracle w (tick w) (out_buffer_pos c)) = out_buffer_pos c) ->
  exists c' w',
    pkc_flush (S fuel) c None 0 NON_BLOCKING_FLUSH w
      = Some (out_buffer_pos c, c', w') /\
    sent (sockfd c) w' = sent (sockfd c) w ++ pending c /\
    out_buffer_pos c' = 0 /\
    wrote_bytes c' = wrote_bytes c + out_buffer_pos c.
Proof.
  intros Hst Hwf Hfd Hready.
  destruct (Z.eq_dec (out_buffer_pos c) 0) as [E|E].
  - unfold pkc_flush. assert (E1 : (sockfd c <? 0) = false) by lia.
    rewrite E1. cbn [is_blocking_flush flush_drain andb].
    rewrite E. rewrite raw_write_nothing by assumption. cbn.
    do 2 eexists. split; [reflexivity|].
    unfold pending. rewrite E. cbn. rewrite app_nil_r.
    repeat split; lia.
  - assert (Hpos : 0 < out_buffer_pos c) by (destruct Hwf as [[? ?] _]; lia).
    specialize (Hready Hpos).
    rewrite flush_accepts_result by (assumption || lia).
    rewrite Hready. do 2 eexists. split; [reflexivity|].
    split; [rewrite sent_emit; simpl; now rewrite Z.eqb_refl|].
    split; [simpl; lia | reflexivity].
Qed.

(** X7.  Chunks submitted one after the other to a plain-data connection
    while every write attempt would block, and that fit together in the
    free space of the output buffer, are all accepted and none is sent:
    each call returns the length of its chunk and the buffer holds what it
    held followed by the chunks in their order.  When the transport then
    takes what it is given, one non-blocking flush sends it all: the bytes
    sent on the socket are those sent before, then those that were
    buffered, then the chunks, in order, and the buffer is empty. *)
Theorem blocked_writes_then_flush (fuel : nat) (chunks : list (list byte))
    (c : pk_conn) (w : world) :
  state c = CONN_CLEAR_DATA -> conn_wf c -> 0 <= sockfd c ->
  always_would_block w ->
  Z.of_nat (length (concat chunks)) <= PKC_OUT_FREE c ->
  exists c1 w1,
    write_each (S fuel) c chunks w = Some (c1, w1) /\
    pending c1 = pending c ++ concat chunks /\
    sent (sockfd c) w1 = sent (sockfd c) w /\
    status c1 = status c /\
    exists rv c2 w2,
      pkc_flush (S fuel) c1 None 0 NON_BLOCKING_FLUSH
                (set_oracle takes_all w1) = Some (rv, c2, w2) /\
      sent (sockfd c) w2 =
        sent (sockfd c) w ++ pending c ++ concat chunks /\
      out_buffer_pos c2 = 0 /\
      rv = out_buffer_pos c + Z.of_nat (length (concat chunks)).
Proof.
  intros Hst Hwf Hfd Hblk Hfit.
  destruct (write_each_blocked fuel chunks c w Hst Hwf Hblk Hfit)
    as (c1 & w1 & Hrun & Hpend & Htr & Ho & Hst1 & Hwf1 & Hs1 & Hfd1 & Hwb1).
  exists c1, w1. split; [exact Hrun|]. split; [exact Hpend|].
  split; [unfold sent; now rewrite Htr|]. split; [exact Hs1|].
  destruct (flush_ready_drains fuel c1 (set_oracle takes_all w1) Hst1 Hwf1)
    as (c2 & w2 & Hrun2 & Hsent2 & Hp2 & _).
  { lia. }
  { intros _. reflexivity. }
  exists (out_buffer_pos c1), c2, w2. split; [exact Hrun2|].
  rewrite Hfd1 in Hsent2. split.
  - rewrite Hsent2, Hpend. unfold sent. cbn [trace set_oracle].
    now rewrite Htr.
  - split; [exact Hp2|].
    (* the offset counts the bytes that wait *)
    assert (Hlen : forall x : pk_conn, conn_wf x ->
              Z.of_nat (length (pending x)) = out_buffer_pos x).
    { intros x [[? ?] ?]. unfold pending. apply bytes_at_length. lia. }
    rewrite <- (Hlen c1 Hwf1), Hpend, length_app, Nat2Z.inj_add.
    now rewrite (Hlen c Hwf).
Qed.

(** ** Read *)

Lemma read_in_handshake (c : pk_conn) (w : world) :
  state c = CONN_SSL_HANDSHAKE -> has_flag CONN_STATUS_BROKEN c = false ->
  pkc_read c w =
  (0, fst (pkc_do_handshake c w), snd (pkc_do_handshake c w)).
Proof.
  intros Hst Hb. unfold pkc_read. rewrite Hst, Hb. cbn [negb].
  now destruct (pkc_do_handshake c w).
Qed.

Lemma do_handshake_read_frame (c : pk_conn) (w : world) :
  let '(c', w') := pkc_do_handshake c w in
  read_frame c c' /\ read_bytes c' = read_bytes c /\
  read_kb c' = read_kb c /\ in_buffer_pos c' = in_buffer_pos c.
Proof.
  unfold pkc_do_handshake, SSL_do_handshake, transport_io,
    pkc_reset_error_state, SSL_get_error, pkc_end_handshake, raise_flag.
  cbv zeta. all_cases; unfold read_frame; cbn; tauto.
Qed.

Lemma read_result_frame (c : pk_conn) (r : io_result) (e : Z) (w : world) :
  0 <= read_bytes c < 1024 ->
  let '(rv, c', w') := read_result c r e w in
  rv = io_ret r /\ read_frame c c' /\
  0 <= read_bytes c' < 1024 /\
  read_total c' = read_total c + Z.max 0 rv /\
  in_buffer_pos c' = in_buffer_pos c + Z.max 0 rv.
Proof.
  intros Hrb. unfold read_result, read_total, pkc_start_handshake, raise_flag.
  destruct (0 <? io_ret r) eqn:Epos.
  - apply Z.ltb_lt in Epos.
    rewrite fold_kb_enough by lia.
    split; [reflexivity|]. split; [unfold read_frame; cbn; tauto|].
    cbn [read_bytes read_kb in_buffer_pos with_input].
    pose proof (Z.mod_pos_bound (read_bytes c + io_ret r) 1024 ltac:(lia)).
    pose proof (Z.div_mod (read_bytes c + io_ret r) 1024 ltac:(lia)).
    repeat split; lia.
  - apply Z.ltb_ge in Epos.
    all_cases; (split; [reflexivity|]);
      (split; [unfold read_frame; cbn; tauto|]);
      cbn [read_bytes read_kb in_buffer_pos with_status with_state];
      repeat split; lia.
Qed.

(** X8.  Every call of [pkc_read] on a connection whose byte counter is
    below 1024 leaves it below 1024, adds to the bytes counted by the
    two read counters exactly the bytes it returns (none when it returns
    0 or fails), advances the input offset by as much, and touches
    neither the socket handle, the output buffer and its offset, the
    write and report counters nor the TLS session. *)
Theorem read_keeps_counters (c : pk_conn) (w : world) :
  0 <= read_bytes c < 1024 ->
  let '(rv, c', w') := pkc_read c w in
  0 <= read_bytes c' < 1024 /\
  read_total c' = read_total c + Z.max 0 rv /\
  in_buffer_pos c' = in_buffer_pos c + Z.max 0 rv /\
  read_frame c c'.
Proof.
  intros Hrb.
  assert (Hplain : forall w0,
    let '(rv, c', w') :=
      (let '(r, w1) := PKS_read (PKC_IN_FREE c) w0 in
       read_result c r SSL_ERROR_NONE w1) in
    0 <= read_bytes c' < 1024 /\
    read_total c' = read_total c + Z.max 0 rv /\
    in_buffer_pos c' = in_buffer_pos c + Z.max 0 rv /\ read_frame c c').
  { intros w0. destruct (PKS_read (PKC_IN_FREE c) w0) as [r w1].
    pose proof (read_result_frame c r SSL_ERROR_NONE w1 Hrb) as H.
    destruct (read_result c r SSL_ERROR_NONE w1) as [[rv c'] w']. tauto. }
  unfold pkc_read. destruct (state c).
  - apply Hplain.
  - destruct (SSL_read (PKC_IN_FREE c) (pkc_reset_error_state w)) as [r w1].
    match goal with
    | |- context [read_result c r ?e w1] =>
        pose proof (read_result_frame c r e w1 Hrb) as H;
        destruct (read_result c r e w1) as [[rv c'] w']
    end. tauto.
  - destruct (negb (has_flag CONN_STATUS_BROKEN c)); [|apply Hplain].
    pose proof (do_handshake_read_frame c w) as H.
    destruct (pkc_do_handshake c w) as [c1 w1].
    destruct H as (Hf & Hrb1 & Hkb & Hpos).
    unfold read_total. cbn [Z.max Z.compare].
    split; [lia|]. split; [lia|]. split; [lia|]. exact Hf.
Qed.

(** A read that reaches the transport asks it once, for as many bytes as
    the input buffer has free. *)
Lemma read_reaches (c : pk_conn) (w : world) :
  reaches_transport c ->
  exists e w1,
    pkc_read c w = read_result c (oracle w (tick w) (PKC_IN_FREE c)) e w1 /\
    clock w1 = clock w /\ trace w1 = trace w /\ tick w1 = S (tick w).
Proof.
  intros Hr. unfold pkc_read, PKS_read, SSL_read, transport_io,
    pkc_reset_error_state.
  destruct (state c) eqn:Est.
  - eexists _, _. split; [reflexivity|]. cbn. tauto.
  - eexists _, _. split; [reflexivity|]. cbn. tauto.
  - destruct Hr as [Hr | Hr]; [congruence|]. rewrite Hr. cbn [negb].
    eexists _, _. split; [reflexivity|]. cbn. tauto.
Qed.

Lemma reaches_transport_dec (c : pk_conn) :
  reaches_transport c \/
  (state c = CONN_SSL_HANDSHAKE /\ has_flag CONN_STATUS_BROKEN c = false).
Proof.
  unfold reaches_transport.
  destruct (state c); destruct (has_flag CONN_STATUS_BROKEN c);
    try (left; left; discriminate); try (left; right; reflexivity).
  right. split; reflexivity.
Qed.

(** X9.  Over a transport that never hands a read more than it asked
    for, [pkc_read] keeps the input offset inside the input buffer: the
    offset never goes back and never passes the capacity, and the buffer
    keeps its size.  When the buffer is already full the call asks the
    transport for 0 bytes, takes nothing, and, if the transport answers
    that request with 0, marks the connection closed for reading. *)
Theorem read_stays_in_buffer (c : pk_conn) (w : world) :
  in_wf c -> reads_bounded w ->
  let '(rv, c', w') := pkc_read c w in
  in_wf c' /\ in_buffer_pos c <= in_buffer_pos c' /\
  rv <= PKC_IN_FREE c /\
  (reaches_transport c -> in_buffer_pos c = CONN_IO_BUFFER_SIZE ->
   rv = io_ret (oracle w (tick w) 0) /\
   (rv = 0 ->
    Z.land (status c') CONN_STATUS_CLS_READ = CONN_STATUS_CLS_READ)).
Proof.
  intros [Hpos Hlen] Hb.
  destruct (reaches_transport_dec c) as [Hr | [Hst Hbr]].
  - destruct (read_reaches c w Hr) as (e & w1 & Heq & _).
    rewrite Heq. clear Heq.
    assert (Hle : io_ret (oracle w (tick w) (PKC_IN_FREE c)) <= PKC_IN_FREE c)
      by (apply Hb; unfold PKC_IN_FREE; lia).
    pose proof (read_result_cases c (oracle w (tick w) (PKC_IN_FREE c)) e w1)
      as HC.
    set (r := oracle w (tick w) (PKC_IN_FREE c)) in *.
    assert (Hin : let '(rv, c', w') := read_result c r e w1 in
                  in_wf c' /\ in_buffer_pos c <= in_buffer_pos c').
    { unfold read_result, pkc_start_handshake, raise_flag, in_wf.
      unfold PKC_IN_FREE in Hle.
      destruct (0 <? io_ret r) eqn:Epos.
      - apply Z.ltb_lt in Epos.
        destruct (fold_kb _ _ _) as [rb' rkb'].
        cbn [in_buffer_pos in_buffer with_input].
        split; [split; [lia|] | lia].
        rewrite mem_write_length; [exact Hlen|].
        pose proof (bytes_at_length (io_data r) (io_ret r)) as Hbl.
        unfold bytes_at in *. rewrite length_firstn in *. lia.
      - all_cases; cbn; (split; [split; [lia | exact Hlen] | lia]). }
    destruct (read_result c r e w1) as [[rv c'] w'].
    destruct HC as (Hrv & _ & Hzero & _). destruct Hin as [Hwf Hmono].
    split; [exact Hwf|]. split; [exact Hmono|]. split; [lia|].
    intros _ Hfull. unfold PKC_IN_FREE in r. subst r.
    replace (CONN_IO_BUFFER_SIZE - in_buffer_pos c) with 0 in * by lia.
    split; [exact Hrv|]. intros H0. rewrite Hzero by lia.
    unfold raise_flag. cbn [status with_status]. apply land_raised.
  - rewrite (read_in_handshake c w Hst Hbr).
    pose proof (do_handshake_read_frame c w) as H.
    pose proof (do_handshake_frame c w) as H'.
    destruct (pkc_do_handshake c w) as [c1 w1]. cbn [fst snd].
    destruct H as (_ & _ & _ & Hp).
    destruct H' as ([(_ & Hbuf & _) _] & _).
    unfold in_wf, PKC_IN_FREE. rewrite Hp, Hbuf.
    split; [split; [lia | exact Hlen]|]. split; [lia|]. split; [lia|].
    intros [Hr | Hr]; congruence.
Qed.

(** X10.  A read that takes [k > 0] bytes from a transport that supplies
    them appends exactly those bytes to the bytes held in the input
    buffer, in order, returns [k], stamps the activity time, and changes
    neither the flags nor the state. *)
Theorem read_appends_received (c : pk_conn) (w : world) :
  in_wf c -> reaches_transport c ->
  let r := oracle w (tick w) (PKC_IN_FREE c) in
  0 < io_ret r <= PKC_IN_FREE c ->
  (Z.to_nat (io_ret r) <= length (io_data r))%nat ->
  let '(rv, c', w') := pkc_read c w in
  rv = io_ret r /\
  received c' = received c ++ bytes_at (io_data r) rv /\
  in_wf c' /\ activity c' = clock w /\
  status c' = status c /\ state c' = state c /\ trace w' = trace w.
Proof.
  intros [Hpos Hlen] Hr r Hk Hdata.
  destruct (read_reaches c w Hr) as (e & w1 & Heq & Hclk & Htr & _).
  rewrite Heq. clear Heq. fold r.
  unfold read_result. unfold PKC_IN_FREE in *.
  destruct (0 <? io_ret r) eqn:Epos; [|apply Z.ltb_ge in Epos; lia].
  destruct (fold_kb _ _ _) as [rb' rkb'].
  unfold received, in_wf, pk_time.
  cbn [in_buffer in_buffer_pos activity status state with_input].
  assert (Hbl : length (bytes_at (io_data r) (io_ret r))
                = Z.to_nat (io_ret r)).
  { unfold bytes_at. rewrite length_firstn. lia. }
  split; [reflexivity|]. split.
  - unfold bytes_at at 1.
    replace (Z.to_nat (in_buffer_pos c + io_ret r))
      with (Z.to_nat (in_buffer_pos c)
            + length (bytes_at (io_data r) (io_ret r)))%nat by lia.
    rewrite mem_write_prefix by lia. reflexivity.
  - split; [split; [lia|]|].
    + rewrite mem_write_length; [exact Hlen | lia].
    + repeat split; assumption.
Qed.

Lemma has_flag_false (f : Z) (c : pk_conn) :
  has_flag f c = false <-> Z.land (status c) f = 0.
Proof.
  unfold has_flag. destruct (Z.land (status c) f =? 0) eqn:E; cbn.
  - apply Z.eqb_eq in E. tauto.
  - apply Z.eqb_neq in E. split; [discriminate | tauto].
Qed.

Lemma read_steps_handshake (n : nat) :
  forall (c : pk_conn) (w : world),
    state c = CONN_SSL_HANDSHAKE ->
    has_flag CONN_STATUS_BROKEN c = false ->
    Z.land CONN_STATUS_WANT_READ CONN_STATUS_BROKEN = 0 ->
    (forall k, (k < n)%nat ->
       io_ret (oracle w (tick w + k)%nat 0) <> 1 /\
       io_ssl_error (oracle w (tick w + k)%nat 0) = SSL_ERROR_WANT_READ) ->
    io_ret (oracle w (tick w + n)%nat 0) = 1 ->
    exists c0,
      fst (read_steps (S n) c w) = pkc_end_handshake c0 /\
      has_flag CONN_STATUS_BROKEN c0 = false /\
      in_buffer c0 = in_buffer c /\ in_buffer_pos c0 = in_buffer_pos c /\
      read_total c0 = read_total c /\
      tick (snd (read_steps (S n) c w)) = (tick w + S n)%nat /\
      trace (snd (read_steps (S n) c w)) = trace w.
Proof.
  induction n as [|n IH]; intros c w Hst Hbr Hind Hwant Hdone.
  - exists c. rewrite Nat.add_0_r in Hdone.
    cbn [read_steps]. rewrite (read_in_handshake c w Hst Hbr).
    pose proof (do_handshake_done c w Hdone) as E.
    pose proof (do_handshake_tick c w) as [Ht _].
    pose proof (do_handshake_frame c w) as Hf.
    destruct (pkc_do_handshake c w) as [c1 w1]. cbn [fst snd] in *.
    destruct Hf as (_ & _ & _ & _ & _ & Htr).
    repeat split; try assumption; try reflexivity. lia.
  - change (read_steps (S (S n)) c w)
      with (let '(_, c1, w1) := pkc_read c w in read_steps (S n) c1 w1).
    rewrite (read_in_handshake c w Hst Hbr).
    destruct (Hwant O ltac:(lia)) as [H1 H2].
    rewrite Nat.add_0_r in H1, H2.
    pose proof (do_handshake_want_read c w H1 H2) as E.
    pose proof (do_handshake_tick c w) as [Ht Ho].
    pose proof (do_handshake_frame c w) as Hf.
    destruct (pkc_do_handshake c w) as [c1 w1]. cbn [fst snd] in *.
    destruct Hf as (_ & _ & _ & _ & _ & Htr). subst c1.
    destruct (IH (raise_flag CONN_STATUS_WANT_READ c) w1)
      as (c0 & E0 & Hb0 & Hbuf & Hpos & Htot & Htick & Htrace).
    + exact Hst.
    + apply has_flag_false. unfold raise_flag. cbn [status with_status].
      rewrite land_raised_other by exact Hind. now apply has_flag_false.
    + exact Hind.
    + intros k Hk. rewrite Ht, Ho.
      replace (S (tick w) + k)%nat with (tick w + S k)%nat by lia.
      apply Hwant. lia.
    + rewrite Ht, Ho.
      replace (S (tick w) + n)%nat with (tick w + S n)%nat by lia.
      exact Hdone.
    + exists c0. repeat split; try assumption.
      * rewrite Htick, Ht. lia.
      * congruence.
Qed.

(** X11.  While a TLS handshake is under way and not broken, [pkc_read]
    drives the handshake instead of reading.  When the library wants to
    read [n] times and then completes, [n + 1] calls of [pkc_read] end
    in TLS data with WantRead and WantWrite clear and Broken still
    unset, make exactly [n + 1] library calls, and leave the input
    buffer, its offset and the read counters as they were; and the
    first of these calls returns 0, which here does not mean end of
    file. *)
Theorem read_drives_handshake (n : nat) (c : pk_conn) (w : world) :
  state c = CONN_SSL_HANDSHAKE ->
  has_flag CONN_STATUS_BROKEN c = false ->
  Z.land CONN_STATUS_WANT_READ CONN_STATUS_BROKEN = 0 ->
  (forall k, (k < n)%nat ->
     io_ret (oracle w (tick w + k)%nat 0) <> 1 /\
     io_ssl_error (oracle w (tick w + k)%nat 0) = SSL_ERROR_WANT_READ) ->
  io_ret (oracle w (tick w + n)%nat 0) = 1 ->
  (let '(c', w') := read_steps (S n) c w in
   state c' = CONN_SSL_DATA /\
   Z.land (status c') CONN_STATUS_WANT_READ = 0 /\
   Z.land (status c') CONN_STATUS_WANT_WRITE = 0 /\
   has_flag CONN_STATUS_BROKEN c' = false /\
   in_buffer c' = in_buffer c /\ in_buffer_pos c' = in_buffer_pos c /\
   read_total c' = read_total c /\
   tick w' = (tick w + S n)%nat /\ trace w' = trace w) /\
  fst (fst (pkc_read c w)) = 0.
Proof.
  intros Hst Hbr Hind Hwant Hdone. split.
  - destruct (read_steps_handshake n c w Hst Hbr Hind Hwant Hdone)
      as (c0 & E0 & Hb0 & Hbuf & Hpos & Htot & Htick & Htrace).
    destruct (read_steps (S n) c w) as [c' w']. cbn [fst snd] in *.
    subst c'. destruct (end_handshake_clear c0) as (H1 & H2 & H3).
    split; [exact H1|]. split; [exact H2|]. split; [exact H3|].
    split.
    { apply has_flag_false. apply has_flag_false in Hb0.
      unfold pkc_end_handshake. cbn [status with_state with_status].
      rewrite <- Z.land_assoc, (Z.land_comm (Z.lnot _)), Z.land_assoc, Hb0.
      apply Z.land_0_l. }
    unfold pkc_end_handshake, read_total in *.
    cbn [in_buffer in_buffer_pos read_kb read_bytes with_state with_status].
    repeat split; assumption.
  - rewrite (read_in_handshake c w Hst Hbr). reflexivity.
Qed.

(** ** Raw writes on a TLS connection *)

(** X12.  In TLS data [pkc_raw_write] asks the library to write the
    length it remembered from a write that wanted to be retried, and the
    length of the caller only when none is remembered, so that with a
    length remembered the caller's length plays no part.  When the data
    holds at least as many bytes as are asked for, the call returns the
    answer of the library.  The length is remembered again, with
    WantWrite raised, exactly when the library answers want-write to a
    failed write; in every other case nothing is remembered and the
    flags are as they were.  A failed write with any TLS error other
    than none and want-write never leaves errno at 0.  A write that took
    [k > 0] bytes, no more than asked for, counts them and puts the first
    [k] bytes of the data, all [k] of them, on the socket. *)
Theorem raw_write_tls_pending (c : pk_conn) (d : list byte) (len : Z)
    (w : world) :
  state c = CONN_SSL_DATA ->
  let n := if 0 <? want_write c then want_write c else len in
  n <> 0 -> n <= Z.of_nat (length d) ->
  let r := oracle w (tick w) n in
  (0 < want_write c ->
   pkc_raw_write c d len w = pkc_raw_write c d (want_write c) w) /\
  let '(rv, c', w') := pkc_raw_write c d len w in
  rv = io_ret r /\ tick w' = S (tick w) /\
  (io_ret r < 0 -> io_ssl_error r = SSL_ERROR_WANT_WRITE ->
   want_write c' = n /\
   status c' = Z.lor (status c) CONN_STATUS_WANT_WRITE /\
   trace w' = trace w) /\
  (~ (io_ret r < 0 /\ io_ssl_error r = SSL_ERROR_WANT_WRITE) ->
   want_write c' = 0 /\ status c' = status c) /\
  (io_ret r < 0 -> io_ssl_error r <> SSL_ERROR_NONE ->
   io_ssl_error r <> SSL_ERROR_WANT_WRITE -> errno w' <> 0) /\
  (0 < io_ret r <= n ->
   wrote_bytes c' = wrote_bytes c + io_ret r /\
   sent (sockfd c) w' = sent (sockfd c) w ++ bytes_at d (io_ret r) /\
   Z.of_nat (length (bytes_at d (io_ret r))) = io_ret r).
Proof.
  intros Hst n Hn Hfit r. split.
  { intros Hw. unfold pkc_raw_write. rewrite Hst.
    assert (E : (0 <? want_write c) = true) by lia. now rewrite E. }
  unfold pkc_raw_write. rewrite Hst. fold n.
  apply Z.eqb_neq in Hn. rewrite Hn.
  unfold SSL_write, transport_io, pkc_reset_error_state, SSL_get_error.
  cbn [tick oracle set_errno]. fold r.
  unfold SSL_ERROR_NONE, SSL_ERROR_WANT_WRITE in *.
  destruct (io_ret r <? 0) eqn:Eneg.
  - apply Z.ltb_lt in Eneg.
    assert (E0 : (0 <? io_ret r) = false) by lia. rewrite E0.
    destruct (io_ssl_error r =? 0) eqn:En.
    { apply Z.eqb_eq in En. cbn. repeat split; try lia. }
    apply Z.eqb_neq in En.
    destruct (io_ssl_error r =? 3) eqn:Ew.
    { apply Z.eqb_eq in Ew. cbn. repeat split; try lia; tauto. }
    apply Z.eqb_neq in Ew. cbn [errno].
    destruct (io_errno r =? 0) eqn:Ee.
    + cbn. repeat split; try lia; try discriminate.
    + apply Z.eqb_neq in Ee. cbn. repeat split; try lia.
  - apply Z.ltb_ge in Eneg. unfold count_wrote.
    destruct (0 <? io_ret r) eqn:Epos.
    + rewrite sent_emit. cbn. rewrite Z.eqb_refl.
      repeat split; try lia.
      apply bytes_at_length. lia.
    + apply Z.ltb_ge in Epos. cbn. repeat split; try lia.
Qed.

(** ** Reports and the bytes counted *)

(** X13.  [pkc_report_progress] with a well-formed plain-data companion,
    over a well-behaved transport, never loses count of a byte: the
    bytes reported, in KB, together with the bytes written and not yet
    reported are after the call what they were before it, whether or not
    a report was made.  After a report fewer than 1024 bytes remain
    unreported, when the counter was not negative.  Nothing else changes
    in the reporting connection; the companion is still a well-formed
    plain-data connection, and it and the world are only touched as one
    [pkc_write] on the companion touches them, so that no byte goes out
    on any socket but the companion's. *)
Theorem report_progress_conserves (fuel : nat) (c : pk_conn) (sid : list byte)
    (fe : pk_conn) (w : world) (c' fe' : pk_conn) (w' : world) :
  state fe = CONN_CLEAR_DATA -> conn_wf fe -> well_behaved w ->
  pkc_report_progress fuel c sid fe w = Some (c', fe', w') ->
  written_total c' = written_total c /\
  (CONN_REPORT_INCREMENT * 1024 <= wrote_bytes c -> 0 <= wrote_bytes c ->
   0 <= wrote_bytes c' < 1024 /\ reported_kb c <= reported_kb c') /\
  (wrote_bytes c < CONN_REPORT_INCREMENT * 1024 ->
   c' = c /\ fe' = fe /\ w' = w) /\
  status c' = status c /\ sockfd c' = sockfd c /\ state c' = state c /\
  out_buffer c' = out_buffer c /\ out_buffer_pos c' = out_buffer_pos c /\
  write_frame fe w fe' w' /\
  conn_wf fe' /\ state fe' = CONN_CLEAR_DATA /\
  (forall fd, fd <> sockfd fe -> sent fd w' = sent fd w).
Proof.
  unfold pkc_report_progress, written_total. intros Hst Hwf Hwb Hrun.
  destruct (CONN_REPORT_INCREMENT * 1024 <=? wrote_bytes c) eqn:E.
  - apply Z.leb_le in E.
    match type of Hrun with
    | context [pkc_write fuel fe ?b ?l w] =>
        destruct (pkc_write fuel fe b l w) as [[[rv fe1] w1]|] eqn:Ew;
        [|discriminate]
    end.
    injection Hrun as <- <- <-.
    assert (Hok : conn_wf fe1 /\ state fe1 = CONN_CLEAR_DATA).
    { destruct (pkc_write_plain _ _ _ _ _ _ _ _ Hst Hwf Hwb eq_refl Ew)
        as (_ & [[_ (Hs & _ & Hw & _)]|Hneg]); [tauto|].
      destruct (pkc_write_failed _ _ _ _ _ _ _ _
                  Hst Hwf Hwb eq_refl Ew Hneg)
        as (c2 & w2 & k & r & Hk & (Hs2 & _ & Hwf2 & Ho2 & _) & _ & Hfl & _).
      assert (Hwb2 : well_behaved w2)
        by (unfold well_behaved; now rewrite Ho2).
      match type of Hfl with
      | pkc_flush _ _ _ ?l _ _ = _ => assert (Hl2 : 0 <= l) by lia
      end.
      destruct (flush_plain_wf _ _ _ _ _ _ _ _ _ Hs2 Hwf2 Hwb2 Hl2 Hfl)
        as (Ha & Hb & _).
      tauto. }
    apply pkc_write_frame in Ew. destruct Ew as [Hf _].
    cbn [reported_kb wrote_bytes with_reported_kb with_wrote_bytes status
         sockfd state out_buffer out_buffer_pos].
    pose proof (Z.quot_rem' (wrote_bytes c) 1024) as Hqr.
    split; [lia|]. split.
    { intros _ Hnn.
      rewrite Z.rem_mod_nonneg, Z.quot_div_nonneg by lia.
      pose proof (Z.mod_pos_bound (wrote_bytes c) 1024 ltac:(lia)).
      pose proof (Z.div_pos (wrote_bytes c) 1024 Hnn ltac:(lia)). lia. }
    split; [lia|].
    repeat (split; [reflexivity|]). split; [exact Hf|].
    split; [apply Hok|]. split; [apply Hok|].
    intros fd Hfd.
    apply (world_frame_other (sockfd fe)); [apply Hf | exact Hfd].
  - apply Z.leb_gt in E. injection Hrun as <- <- <-.
    split; [reflexivity|]. split; [lia|]. split; [tauto|].
    repeat (split; [reflexivity|]). split; [apply write_frame_refl|].
    split; [exact Hwf|]. split; [exact Hst|].
    reflexivity.
Qed.


(** ** The blocking mode of the socket *)

Lemma blocking_mode_trace (fd : Z) (w w' : world) :
  trace w' = trace w -> blocking_mode fd w' = blocking_mode fd w.
Proof. unfold blocking_mode. now intros ->. Qed.

Lemma raw_write_mode (c : pk_conn) (d : list byte) (len : Z) (w : world)
    (fd : Z) :
  blocking_mode fd (snd (pkc_raw_write c d len w)) = blocking_mode fd w.
Proof.
  pose proof (raw_write_frame c d len w) as H.
  destruct (pkc_raw_write c d len w) as [[rv c1] w1]. cbn [snd].
  destruct H as (_ & _ & _ & _ & [Htr | [bytes Htr]]).
  - now apply blocking_mode_trace.
  - unfold blocking_mode. rewrite Htr, fold_left_app. reflexivity.
Qed.

(** The drain loop changes the blocking mode of no socket. *)
Lemma flush_drain_mode (fuel : nat) :
  forall (mode : flush_mode) (c : pk_conn) (w : world) (fl ll : Z)
         (wrote fl' ll' : Z) (c' : pk_conn) (w' : world) (fd : Z),
    flush_drain fuel mode c w fl ll = Some (wrote, fl', ll', c', w') ->
    blocking_mode fd w' = blocking_mode fd w.
Proof.
  induction fuel as [|fuel IH];
    intros mode c w fl ll wrote fl' ll' c' w' fd Hrun; [discriminate|].
  simpl in Hrun.
  pose proof (raw_write_mode c (out_buffer c) (out_buffer_pos c) w fd) as HR.
  destruct (pkc_raw_write c (out_buffer c) (out_buffer_pos c) w)
    as [[wr c1] w1]. cbn [snd] in HR.
  assert (Hagain : forall c2 fl2,
    (if is_blocking_flush mode && (0 <? out_buffer_pos c2)
     then if 0 <? ll then flush_drain fuel mode c2 w1 fl2 (ll - 1)
          else Some (wr, fl2, ll - 1, c2, w1)
     else Some (wr, fl2, ll, c2, w1)) = Some (wrote, fl', ll', c', w') ->
    blocking_mode fd w' = blocking_mode fd w).
  { intros c2 fl2 Hgo.
    destruct (is_blocking_flush mode && (0 <? out_buffer_pos c2)).
    - destruct (0 <? ll).
      + apply (IH _ _ _ _ _ _ _ _ _ _ fd) in Hgo. congruence.
      + injection Hgo as <- <- <- <- <-. exact HR.
    - injection Hgo as <- <- <- <- <-. exact HR. }
  destruct (0 <? wr).
  - match type of Hrun with
    | context [flush_drain fuel mode ?c2 w1 ?fl2 (ll - 1)] =>
        exact (Hagain c2 fl2 Hrun)
    end.
  - destruct (hard_errno w1).
    + injection Hrun as <- <- <- <- <-. exact HR.
    + exact (Hagain c1 fl Hrun).
Qed.

(** X14.  A blocking flush on a valid socket that returns leaves the
    socket in non-blocking mode, with one exception: when the drain loop
    stops at its retry ceiling the call returns -1 with errno EIO and
    the socket is left in blocking mode.  The socket handle of the
    connection is the same in both cases. *)
Theorem blocking_flush_socket_mode (fuel : nat) (c : pk_conn)
    (data : option (list byte)) (len : Z) (w : world)
    (rv : Z) (c' : pk_conn) (w' : world) :
  0 <= sockfd c ->
  pkc_flush fuel c data len BLOCKING_FLUSH w = Some (rv, c', w') ->
  sockfd c' = sockfd c /\
  (blocking_mode (sockfd c) w' = Some false \/
   (rv = -1 /\ errno w' = EIO /\ blocking_mode (sockfd c) w' = Some true)).
Proof.
  intros Hfd Hrun.
  pose proof (pkc_flush_frame _ _ _ _ _ _ _ _ _ Hrun) as [[[Hs _] _] _].
  split; [exact Hs|].
  pose proof (flush_blocking_restores _ _ _ _ _ _ _ _ Hfd Hrun) as Hmode.
  unfold pkc_flush in Hrun.
  assert (E : (sockfd c <? 0) = false) by lia. rewrite E in Hrun.
  destruct (flush_drain _ _ _ _ _ _) as [[[[[wrote fl] ll] c2] w2]|] eqn:Ed;
    [|discriminate].
  destruct (ll <=? 0).
  - injection Hrun as <- <- <-. right.
    split; [reflexivity|]. split; [reflexivity|].
    apply (flush_drain_mode _ _ _ _ _ _ _ _ _ _ _ (sockfd c)) in Ed.
    cbn [is_blocking_flush] in Ed.
    unfold set_blocking in Ed. rewrite blocking_mode_emit in Ed.
    cbn [mode_after] in Ed. rewrite Z.eqb_refl in Ed.
    unfold blocking_mode in *. exact Ed.
  - destruct Hmode as [Hm | [Hrv He]].
    + left. now rewrite <- Hs.
    + left. clear Ed.
      assert (Hexit : forall flx cx wx,
        Some (flx, cx, set_non_blocking (sockfd cx) wx) = Some (rv, c', w') ->
        blocking_mode (sockfd c') w' = Some false).
      { intros flx cx wx Hx. injection Hx as <- <- <-.
        unfold set_non_blocking. rewrite blocking_mode_emit. simpl.
        now rewrite Z.eqb_refl. }
      rewrite <- Hs. simpl in Hrun.
      destruct (wrote <? 0); [eapply Hexit; exact Hrun|].
      destruct data as [d|]; [|eapply Hexit; exact Hrun].
      destruct (out_buffer_pos c2 =? 0); [|eapply Hexit; exact Hrun].
      destruct (flush_direct _ _ _ _ _ _ _ _ _) as [[[[b f3] c3] w3]|];
        [|discriminate].
      destruct (b <? 0); eapply Hexit; exact Hrun.
Qed.


End PkconnMoreFacts.

(** * Connections set up and torn down *)

Section PkconnRestFacts.

Context {K : pkconn_h}.
Variable ERR_CONNECT_CONNECT : Z.
Variable pk_state : pk_global_state.

Lemma mask_again (s B F : Z) :
  Z.lor (Z.land (Z.lor (Z.land s (Z.lnot B)) F) (Z.lnot B)) F
  = Z.lor (Z.land s (Z.lnot B)) F.
Proof.
  apply Z.bits_inj'. intros n Hn.
  rewrite !Z.lor_spec, !Z.land_spec, Z.lor_spec, Z.land_spec,
    !Z.lnot_spec by lia.
  destruct (Z.testbit s n), (Z.testbit B n), (Z.testbit F n); reflexivity.
Qed.

(** X15.  [pkc_reset_conn] closes the socket exactly when the connection
    holds a valid one and frees the TLS session exactly when it holds
    one, in that order, and does nothing else to the world; it keeps the
    two buffers, forgets the session and stamps the activity time.  A
    second reset with the same flags, in whatever world and at whatever
    time it is made, closes nothing and frees nothing: it leaves the
    world exactly as it finds it, and of the connection it changes only
    the activity stamp, which takes the time of that call. *)
Theorem reset_releases_once (c : pk_conn) (F : Z) (w : world) :
  let '(c1, w1) := pkc_reset_conn c F w in
  trace w1 = trace w
             ++ (if 0 <=? sockfd c then [EvClose (sockfd c)] else [])
             ++ match ssl c with Some h => [EvSslFree h] | None => [] end /\
  tick w1 = tick w /\ errno w1 = errno w /\ pk_error w1 = pk_error w /\
  in_buffer c1 = in_buffer c /\ out_buffer c1 = out_buffer c /\
  ssl c1 = None /\ want_write c1 = 0 /\ activity c1 = pk_time w /\
  forall w2 : world,
    pkc_reset_conn c1 F w2 = (with_activity (pk_time w2) c1, w2).
Proof.
  unfold pkc_reset_conn, PKS_close, SSL_free, pk_time, emit, with_activity.
  destruct (0 <=? sockfd c), (ssl c); cbn;
    rewrite ?app_nil_r, <- ?app_assoc, mask_again; repeat split.
Qed.

Lemma reset_conn_keeps (c : pk_conn) (F : Z) (w : world) :
  let w' := snd (pkc_reset_conn c F w) in
  tick w' = tick w /\ oracle w' = oracle w /\ pk_error w' = pk_error w /\
  sockfd (fst (pkc_reset_conn c F w)) = -1.
Proof.
  unfold pkc_reset_conn. simpl.
  destruct (0 <=? sockfd c), (ssl c); simpl; auto.
Qed.

(** X16.  When any of the three calls that set up a listening socket
    fails, [pkc_listen] returns [ERR_CONNECT_LISTEN] and records it as
    the library error; the connection is exactly what the reset left,
    with no socket; and the socket the kernel handed out, if any, is
    closed again, so that nothing leaks. *)
Theorem listen_failure_releases (c : pk_conn) (ai : addrinfo) (backlog : Z)
    (w : world) :
  ~ listen_succeeds backlog w ->
  let '(c0, w0) :=
    pkc_reset_conn c
      (Z.lor (Z.lor CONN_STATUS_CHANGING CONN_STATUS_ALLOCATED)
             CONN_STATUS_LISTENING) w in
  let '(rv, c', w') := pkc_listen c ai backlog w in
  rv = ERR_CONNECT_LISTEN /\ pk_error w' = ERR_CONNECT_LISTEN /\
  c' = c0 /\ sockfd c' = -1 /\
  trace w' = trace w0 ++ closes_created (io_ret (oracle w (tick w) 0)).
Proof.
  intros Hfail. unfold pkc_listen.
  pose proof (reset_conn_keeps c
    (Z.lor (Z.lor CONN_STATUS_CHANGING CONN_STATUS_ALLOCATED)
           CONN_STATUS_LISTENING) w) as Hk.
  destruct (pkc_reset_conn c _ w) as [c0 w0]. cbn [fst snd] in Hk.
  destruct Hk as (Ht & Ho & _ & Hfd).
  assert (Hc0 : with_sockfd (-1) c0 = c0).
  { destruct c0. cbn in *. now subst. }
  unfold listen_succeeds in Hfail. rewrite <- Ht, <- Ho in *.
  unfold PKS_socket, PKS_bind, PKS_listen, getsockname, PKS_fail,
    PKS_close, transport_io, closes_created, set_pk_error, emit, bind_port.
  cbv zeta. cbn [io_ret tick oracle fst snd].
  destruct (io_ret (oracle w0 (tick w0) 0) <? 0) eqn:E1.
  { apply Z.ltb_lt in E1.
    replace (0 <=? io_ret (oracle w0 (tick w0) 0)) with false
      by (symmetry; apply Z.leb_gt; lia).
    cbn. rewrite app_nil_r, Hc0. repeat split; assumption. }
  apply Z.ltb_ge in E1.
  replace (0 <=? io_ret (oracle w0 (tick w0) 0)) with true
    by (symmetry; apply Z.leb_le; lia).
  destruct (io_ret (oracle w0 (S (tick w0)) 0) <? 0) eqn:E2.
  { cbn. rewrite Hc0. repeat split; assumption. }
  apply Z.ltb_ge in E2. cbn [io_ret tick oracle fst snd].
  destruct (io_ret (oracle w0 (S (S (tick w0))) backlog) <? 0) eqn:E3.
  { cbn. rewrite Hc0. repeat split; assumption. }
  apply Z.ltb_ge in E3. exfalso. apply Hfail. repeat split; assumption.
Qed.

(** X17.  [pkc_connect] ends in one of two ways.  When the socket is
    created, both timeouts are set and the connect succeeds, it returns
    the new socket, which is a valid handle and becomes the connection's
    own; four calls were made, nothing was closed beyond what the reset
    closed, and the library error is untouched.  Otherwise it returns
    [ERR_CONNECT_CONNECT] and records it as the library error; the
    connection is exactly what the reset left, with no socket, and the
    socket the kernel handed out, if any, is closed again. *)
Theorem connect_outcomes (c : pk_conn) (ai : addrinfo) (w : world) :
  let '(c0, w0) :=
    pkc_reset_conn c (Z.lor CONN_STATUS_CHANGING CONN_STATUS_ALLOCATED) w in
  let s := io_ret (oracle w (tick w) 0) in
  let '(rv, c', w') := pkc_connect ERR_CONNECT_CONNECT pk_state c ai w in
  (connect_succeeds pk_state w ->
   rv = s /\ 0 <= rv /\ c' = with_sockfd s c0 /\ sockfd c' = s /\
   trace w' = trace w0 /\ pk_error w' = pk_error w /\
   tick w' = (4 + tick w)%nat) /\
  (~ connect_succeeds pk_state w ->
   rv = ERR_CONNECT_CONNECT /\ pk_error w' = ERR_CONNECT_CONNECT /\
   c' = c0 /\ sockfd c' = -1 /\
   trace w' = trace w0 ++ closes_created s).
Proof.
  unfold pkc_connect.
  pose proof (reset_conn_keeps c
    (Z.lor CONN_STATUS_CHANGING CONN_STATUS_ALLOCATED) w) as Hk.
  destruct (pkc_reset_conn c _ w) as [c0 w0]. cbn [fst snd] in Hk.
  destruct Hk as (Ht & Ho & Hpe & Hfd).
  assert (Hc0 : with_sockfd (-1) c0 = c0).
  { destruct c0. cbn in *. now subst. }
  unfold connect_succeeds. rewrite <- Ht, <- Ho, <- Hpe.
  unfold PKS_socket, PKS_setsockopt, PKS_connect, PKS_fail,
    PKS_close, transport_io, closes_created, set_pk_error, emit.
  cbv zeta. cbn [io_ret tick oracle fst snd Nat.add].
  set (s := io_ret (oracle w0 (tick w0) 0)).
  set (a := io_ret (oracle w0 (S (tick w0)) (socket_timeout_s pk_state))).
  set (b := io_ret (oracle w0 (S (S (tick w0))) (socket_timeout_s pk_state))).
  set (d := io_ret (oracle w0 (S (S (S (tick w0)))) 0)).
  destruct (s <? 0) eqn:E1.
  { apply Z.ltb_lt in E1.
    replace (0 <=? s) with false by (symmetry; apply Z.leb_gt; lia).
    cbn. rewrite app_nil_r, Hc0. split; [lia|]. intros _.
    repeat split; assumption. }
  apply Z.ltb_ge in E1.
  replace (0 <=? s) with true by (symmetry; apply Z.leb_le; lia).
  destruct (a <? 0) eqn:E2.
  { apply Z.ltb_lt in E2. cbn. rewrite Hc0. split; [lia|]. intros _.
    repeat split; assumption. }
  apply Z.ltb_ge in E2. cbn [io_ret tick oracle fst snd].
  fold b. destruct (b <? 0) eqn:E3.
  { apply Z.ltb_lt in E3. cbn. rewrite Hc0. split; [lia|]. intros _.
    repeat split; assumption. }
  apply Z.ltb_ge in E3. cbn [io_ret tick oracle fst snd].
  fold d. destruct (d <? 0) eqn:E4.
  { apply Z.ltb_lt in E4. cbn. rewrite Hc0. split; [lia|]. intros _.
    repeat split; assumption. }
  apply Z.ltb_ge in E4. split.
  - intros _. cbn. repeat split; try reflexivity; try assumption.
  - intros Hn. exfalso. apply Hn. repeat split; assumption.
Qed.

(** ** Waiting *)

Lemma wait_interrupted_dec (r : io_result) :
  ((io_ret r <? 0) && (io_errno r =? EINTR) = true <-> wait_interrupted r).
Proof.
  unfold wait_interrupted.
  rewrite andb_true_iff, Z.ltb_lt, Z.eqb_eq. tauto.
Qed.

Lemma wait_loop_result (n : nat) :
  forall (extra : nat) (fd timeout_ms : Z) (w : world),
    (forall k, (k < n)%nat ->
       wait_interrupted (oracle w (tick w + k)%nat timeout_ms)) ->
    ~ wait_interrupted (oracle w (tick w + n)%nat timeout_ms) ->
    exists w',
      wait_loop (S n + extra) fd timeout_ms w
      = Some (io_ret (oracle w (tick w + n)%nat timeout_ms), w') /\
      tick w' = (tick w + S n)%nat /\ trace w' = trace w /\
      errno w' = io_errno (oracle w (tick w + n)%nat timeout_ms).
Proof.
  induction n as [|n IH]; intros extra fd timeout_ms w Hint Hend.
  - rewrite Nat.add_0_r in *. cbn [Nat.add wait_loop].
    unfold wait_fd, transport_io. cbn [errno].
    rewrite <- wait_interrupted_dec in Hend.
    apply not_true_is_false in Hend.
    cbn [io_ret]. rewrite Hend.
    eexists. split; [reflexivity|]. cbn. repeat split. lia.
  - change (wait_loop (S (S n) + extra) fd timeout_ms w)
      with (let '(rv, w1) := wait_fd fd timeout_ms w in
            if (rv <? 0) && (errno w1 =? EINTR)
            then wait_loop (S n + extra) fd timeout_ms w1
            else Some (rv, w1)).
    unfold wait_fd, transport_io. cbn [errno].
    pose proof (Hint O ltac:(lia)) as H0. rewrite Nat.add_0_r in H0.
    apply wait_interrupted_dec in H0. rewrite H0.
    match goal with
    | |- context [wait_loop _ fd timeout_ms ?w1] =>
        destruct (IH extra fd timeout_ms w1) as (w' & Hrun & Ht & Htr & He)
    end.
    + intros k Hk. cbn [tick oracle].
      replace (S (tick w) + k)%nat with (tick w + S k)%nat by lia.
      apply Hint. lia.
    + cbn [tick oracle].
      replace (S (tick w) + n)%nat with (tick w + S n)%nat by lia.
      exact Hend.
    + cbn [tick oracle] in *.
      replace (S (tick w) + n)%nat with (tick w + S n)%nat in * by lia.
      exists w'. rewrite Hrun. repeat split; try assumption. lia.
Qed.

Lemma wait_loop_forever (fuel : nat) :
  forall (fd timeout_ms : Z) (w : world),
    (forall k, wait_interrupted (oracle w (tick w + k)%nat timeout_ms)) ->
    wait_loop fuel fd timeout_ms w = None.
Proof.
  induction fuel as [|fuel IH]; intros fd timeout_ms w Hint; [reflexivity|].
  cbn [wait_loop]. unfold wait_fd, transport_io. cbn [errno].
  pose proof (Hint O) as H0. rewrite Nat.add_0_r in H0.
  apply wait_interrupted_dec in H0. rewrite H0.
  apply IH. intros k. cbn [tick oracle].
  replace (S (tick w) + k)%nat with (tick w + S k)%nat by lia.
  apply Hint.
Qed.

(** X18.  [pkc_wait] waits again only while the wait is interrupted
    (a negative result with errno EINTR).  When the first [n] waits are
    interrupted and the next one is not, the call makes exactly [n + 1]
    waits and returns the result of the last, whatever it is, with the
    errno that wait left; the only other thing it does is to put the
    socket in non-blocking mode before the waits and in blocking mode
    after them, so that the socket is left blocking. *)
Theorem wait_returns_first_answer (n extra : nat) (c : pk_conn)
    (timeout_ms : Z) (w : world) :
  (forall k, (k < n)%nat ->
     wait_interrupted (oracle w (tick w + k)%nat timeout_ms)) ->
  ~ wait_interrupted (oracle w (tick w + n)%nat timeout_ms) ->
  exists w',
    pkc_wait (S n + extra) c timeout_ms w
    = Some (io_ret (oracle w (tick w + n)%nat timeout_ms), w') /\
    tick w' = (tick w + S n)%nat /\
    errno w' = io_errno (oracle w (tick w + n)%nat timeout_ms) /\
    trace w' = trace w ++ [EvNonBlocking (sockfd c); EvBlocking (sockfd c)] /\
    blocking_mode (sockfd c) w' = Some true.
Proof.
  intros Hint Hend. unfold pkc_wait.
  destruct (wait_loop_result n extra (sockfd c) timeout_ms
              (set_non_blocking (sockfd c) w))
    as (w1 & Hrun & Ht & Htr & He); [exact Hint | exact Hend |].
  cbn [set_non_blocking emit tick oracle trace] in *.
  rewrite Hrun. eexists. split; [reflexivity|].
  unfold set_blocking. rewrite blocking_mode_emit.
  cbn [emit tick errno trace mode_after]. rewrite Htr, Z.eqb_refl.
  rewrite <- app_assoc. repeat split; assumption.
Qed.

(** X19.  [pkc_wait] has no retry ceiling: against a wait that is
    interrupted every time, no number of rounds makes it return. *)
Theorem wait_never_gives_up (fuel : nat) (c : pk_conn) (timeout_ms : Z)
    (w : world) :
  (forall k, wait_interrupted (oracle w (tick w + k)%nat timeout_ms)) ->
  pkc_wait fuel c timeout_ms w = None.
Proof.
  intros Hint. unfold pkc_wait.
  rewrite wait_loop_forever; [reflexivity|]. exact Hint.
Qed.


(** ** Starting TLS *)

Lemma has_flag_raised (f : Z) (c : pk_conn) :
  f <> 0 -> has_flag f (raise_flag f c) = true.
Proof.
  intros Hf. unfold has_flag, raise_flag. cbn [status with_status].
  rewrite land_raised. apply Z.eqb_neq in Hf. now rewrite Hf.
Qed.

(** X20.  When the TLS library refuses to create the session or any of
    the settings made on it, [pkc_start_ssl] returns -1 and leaves the
    connection without a session and otherwise exactly as it was: no
    handshake is started, the state and the flags are untouched.  The
    session just created, if there was one, is freed again; no other
    session is freed, also not one the connection held before. *)
Theorem start_ssl_setup_failure (c : pk_conn) (hostname : option (list byte))
    (w : world) :
  ~ ssl_setup_succeeds pk_state c hostname w ->
  let s := io_ret (oracle w (tick w) 0) in
  let '(rv, c', w') := pkc_start_ssl pk_state c hostname w in
  rv = -1 /\ c' = with_ssl None c /\
  trace w' = trace w ++ (if s =? 0 then [] else [EvSslFree (Z.to_nat s)]) /\
  (tick w' <= 6 + tick w)%nat.
Proof.
  intros Hfail. unfold ssl_setup_succeeds in Hfail.
  unfold pkc_start_ssl, SSL_new, SSL_setter, SSL_free, transport_io, emit.
  cbv zeta. cbn [io_ret tick oracle fst snd Nat.add] in *.
  destruct (io_ret (oracle w (tick w) 0) =? 0) eqn:E0.
  { cbn. rewrite app_nil_r. repeat split. lia. }
  apply Z.eqb_neq in E0.
  cbn [ssl with_ssl sockfd trace tick errno pk_error clock oracle ephemeral
       socks].
  destruct (ssl_mode =? _) eqn:E1; cbn [negb];
    [|cbn; repeat split; lia].
  apply Z.eqb_eq in E1.
  cbn [ssl with_ssl sockfd trace tick errno pk_error clock oracle ephemeral
       socks io_ret].
  destruct (io_ret (oracle w (S (S (tick w))) 0) =? 1) eqn:E2; cbn [negb];
    [|cbn; repeat split; lia].
  apply Z.eqb_eq in E2.
  cbn [ssl with_ssl sockfd trace tick errno pk_error clock oracle ephemeral
       socks io_ret].
  destruct (io_ret (oracle w (S (S (S (tick w)))) 0) =? 1) eqn:E3; cbn [negb];
    [|cbn; repeat split; lia].
  apply Z.eqb_eq in E3.
  cbn [ssl with_ssl sockfd trace tick errno pk_error clock oracle ephemeral
       socks io_ret].
  destruct (io_ret (oracle w (S (S (S (S (tick w))))) (sockfd c)) =? 1)
    eqn:E4; cbn [negb]; [|cbn; repeat split; lia].
  apply Z.eqb_eq in E4.
  destruct (sni_hostname pk_state hostname) as [name|] eqn:Esni.
  - cbn [ssl with_ssl sockfd trace tick errno pk_error clock oracle ephemeral
         socks io_ret].
    destruct (io_ret (oracle w (S (S (S (S (S (tick w)))))) 0) =? 1)
      eqn:E5; cbn [negb]; [|cbn; repeat split; lia].
    apply Z.eqb_eq in E5. exfalso. apply Hfail.
    repeat split; try assumption. intros _. exact E5.
  - exfalso. apply Hfail. repeat split; try assumption. congruence.
Qed.

(** X21.  When the session is created and every setting is accepted,
    [pkc_start_ssl] keeps the new session, starts the handshake with
    WantWrite raised and drives it one step, making one more library
    call.  If that step completes the handshake the connection is in
    TLS data with WantRead and WantWrite clear; if the library wants to
    read or to write, the connection stays in TLS handshake with the
    matching flag raised beside WantWrite; on any other answer Broken is
    raised, errno is ECONNRESET and the call returns -1, the session
    being kept and not freed.  In every case the call returns -1 when
    Broken is set afterwards and 0 when it is not, and adds no event. *)
Theorem start_ssl_handshake (c : pk_conn) (hostname : option (list byte))
    (w : world) :
  ssl_setup_succeeds pk_state c hostname w ->
  let s := io_ret (oracle w (tick w) 0) in
  let hs := oracle w (ssl_setup_calls pk_state hostname + tick w)%nat 0 in
  let '(rv, c', w') := pkc_start_ssl pk_state c hostname w in
  ssl c' = Some (Z.to_nat s) /\ trace w' = trace w /\
  tick w' = S (ssl_setup_calls pk_state hostname + tick w) /\
  rv = (if has_flag CONN_STATUS_BROKEN c' then -1 else 0) /\
  (io_ret hs = 1 ->
   state c' = CONN_SSL_DATA /\
   Z.land (status c') CONN_STATUS_WANT_READ = 0 /\
   Z.land (status c') CONN_STATUS_WANT_WRITE = 0) /\
  (io_ret hs <> 1 -> io_ssl_error hs = SSL_ERROR_WANT_READ ->
   state c' = CONN_SSL_HANDSHAKE /\
   status c' = Z.lor (Z.lor (status c) CONN_STATUS_WANT_WRITE)
                     CONN_STATUS_WANT_READ) /\
  (io_ret hs <> 1 -> io_ssl_error hs = SSL_ERROR_WANT_WRITE ->
   state c' = CONN_SSL_HANDSHAKE /\
   status c' = Z.lor (Z.lor (status c) CONN_STATUS_WANT_WRITE)
                     CONN_STATUS_WANT_WRITE) /\
  (io_ret hs <> 1 -> io_ssl_error hs <> SSL_ERROR_WANT_READ ->
   io_ssl_error hs <> SSL_ERROR_WANT_WRITE ->
   state c' = CONN_SSL_HANDSHAKE /\
   status c' = Z.lor (Z.lor (status c) CONN_STATUS_WANT_WRITE)
                     CONN_STATUS_BROKEN /\
   errno w' = ECONNRESET /\
   (CONN_STATUS_BROKEN <> 0 -> rv = -1)).
Proof.
  intros (H0 & H1 & H2 & H3 & H4 & H5). unfold ssl_setup_calls.
  unfold pkc_start_ssl, SSL_new, SSL_setter, SSL_free, transport_io, emit.
  cbv zeta. cbn [io_ret tick oracle fst snd Nat.add] in *.
  apply Z.eqb_neq in H0. rewrite H0.
  cbn [ssl with_ssl sockfd trace tick errno pk_error clock oracle ephemeral
       socks io_ret].
  apply Z.eqb_eq in H1. rewrite H1. cbn [negb].
  cbn [ssl with_ssl sockfd trace tick errno pk_error clock oracle ephemeral
       socks io_ret].
  rewrite H2, H3, H4. cbn [Z.eqb Pos.eqb negb].
  set (c2 := pkc_start_handshake _ _).
  assert (Hc2 : status c2 = Z.lor (status c) CONN_STATUS_WANT_WRITE /\
                ssl c2 = Some (Z.to_nat (io_ret (oracle w (tick w) 0))) /\
                state c2 = CONN_SSL_HANDSHAKE).
  { subst c2. unfold pkc_start_handshake, raise_flag. cbn. tauto. }
  destruct Hc2 as (Hst2 & Hssl2 & Hstate). clearbody c2.
  assert (Hgen : forall w6 : world,
    trace w6 = trace w ->
    let hs := oracle w6 (tick w6) 0 in
    let '(c', w') := pkc_do_handshake c2 w6 in
    ssl c' = ssl c2 /\ trace w' = trace w /\ tick w' = S (tick w6) /\
    (io_ret hs = 1 ->
     state c' = CONN_SSL_DATA /\
     Z.land (status c') CONN_STATUS_WANT_READ = 0 /\
     Z.land (status c') CONN_STATUS_WANT_WRITE = 0) /\
    (io_ret hs <> 1 -> io_ssl_error hs = SSL_ERROR_WANT_READ ->
     state c' = state c2 /\
     status c' = Z.lor (status c2) CONN_STATUS_WANT_READ) /\
    (io_ret hs <> 1 -> io_ssl_error hs = SSL_ERROR_WANT_WRITE ->
     state c' = state c2 /\
     status c' = Z.lor (status c2) CONN_STATUS_WANT_WRITE) /\
    (io_ret hs <> 1 -> io_ssl_error hs <> SSL_ERROR_WANT_READ ->
     io_ssl_error hs <> SSL_ERROR_WANT_WRITE ->
     state c' = state c2 /\
     status c' = Z.lor (status c2) CONN_STATUS_BROKEN /\
     errno w' = ECONNRESET /\
     (CONN_STATUS_BROKEN <> 0 -> has_flag CONN_STATUS_BROKEN c' = true))).
  { intros w6 Htr hs. subst hs.
    unfold pkc_do_handshake, SSL_do_handshake, transport_io,
      pkc_reset_error_state, SSL_get_error, set_errno.
    cbv zeta. cbn [io_ret tick oracle trace].
    destruct (io_ret (oracle w6 (tick w6) 0) =? 1) eqn:Ed.
    { apply Z.eqb_eq in Ed. destruct (end_handshake_clear c2) as (A & B & C).
      cbn [trace tick]. repeat split; try assumption; try congruence. }
    apply Z.eqb_neq in Ed.
    destruct (io_ssl_error (oracle w6 (tick w6) 0) =? SSL_ERROR_WANT_READ)
      eqn:Er.
    { apply Z.eqb_eq in Er. unfold raise_flag.
      cbn [trace tick ssl state status with_status].
      repeat split; try assumption; try congruence;
        rewrite Er in *; discriminate. }
    apply Z.eqb_neq in Er.
    destruct (io_ssl_error (oracle w6 (tick w6) 0) =? SSL_ERROR_WANT_WRITE)
      eqn:Ew.
    { apply Z.eqb_eq in Ew. unfold raise_flag.
      cbn [trace tick ssl state status with_status].
      repeat split; try assumption; try congruence. }
    apply Z.eqb_neq in Ew.
    split; [reflexivity|]. split; [exact Htr|]. split; [reflexivity|].
    split; [congruence|]. split; [congruence|]. split; [congruence|].
    intros _ _ _. unfold raise_flag. cbn [state status with_status errno].
    split; [reflexivity|]. split; [reflexivity|]. split; [reflexivity|].
    intros Hb. apply (has_flag_raised _ c2 Hb). }
  assert (Hend : forall (w6 : world) (c3 : pk_conn) (w7 : world) (i : nat),
    tick w6 = i -> oracle w6 = oracle w -> trace w6 = trace w ->
    pkc_do_handshake c2 w6 = (c3, w7) ->
    let hs := oracle w i 0 in
    let rv := if has_flag CONN_STATUS_BROKEN c3 then -1 else 0 in
    ssl c3 = Some (Z.to_nat (io_ret (oracle w (tick w) 0))) /\
    trace w7 = trace w /\ tick w7 = S i /\
    rv = (if has_flag CONN_STATUS_BROKEN c3 then -1 else 0) /\
    (io_ret hs = 1 ->
     state c3 = CONN_SSL_DATA /\
     Z.land (status c3) CONN_STATUS_WANT_READ = 0 /\
     Z.land (status c3) CONN_STATUS_WANT_WRITE = 0) /\
    (io_ret hs <> 1 -> io_ssl_error hs = SSL_ERROR_WANT_READ ->
     state c3 = CONN_SSL_HANDSHAKE /\
     status c3 = Z.lor (Z.lor (status c) CONN_STATUS_WANT_WRITE)
                       CONN_STATUS_WANT_READ) /\
    (io_ret hs <> 1 -> io_ssl_error hs = SSL_ERROR_WANT_WRITE ->
     state c3 = CONN_SSL_HANDSHAKE /\
     status c3 = Z.lor (Z.lor (status c) CONN_STATUS_WANT_WRITE)
                       CONN_STATUS_WANT_WRITE) /\
    (io_ret hs <> 1 -> io_ssl_error hs <> SSL_ERROR_WANT_READ ->
     io_ssl_error hs <> SSL_ERROR_WANT_WRITE ->
     state c3 = CONN_SSL_HANDSHAKE /\
     status c3 = Z.lor (Z.lor (status c) CONN_STATUS_WANT_WRITE)
                       CONN_STATUS_BROKEN /\
     errno w7 = ECONNRESET /\
     (CONN_STATUS_BROKEN <> 0 -> rv = -1))).
  { intros w6 c3 w7 i Hi Ho Htr Hrun hs rv. subst hs rv.
    pose proof (Hgen w6 Htr) as HG. rewrite Hrun in HG.
    rewrite Hi, Ho in HG. cbv zeta in HG.
    destruct HG as (A & B & C & D & E & F & G).
    split; [congruence|]. split; [exact B|]. split; [exact C|].
    split; [reflexivity|]. split; [exact D|].
    split; [intros X Y; destruct (E X Y); split; congruence|].
    split; [intros X Y; destruct (F X Y); split; congruence|].
    intros X Y Z'. destruct (G X Y Z') as (g1 & g2 & g3 & g4).
    split; [congruence|]. split; [congruence|]. split; [exact g3|].
    intros Hb. now rewrite (g4 Hb). }
  destruct (sni_hostname pk_state hostname) as [name|] eqn:Esni.
  - cbn [ssl with_ssl sockfd trace tick errno pk_error clock oracle
         ephemeral socks io_ret].
    rewrite (H5 ltac:(discriminate)). cbn [Z.eqb Pos.eqb negb].
    match goal with
    | |- context [pkc_do_handshake c2 ?w6] =>
        destruct (pkc_do_handshake c2 w6) as [c3 w7] eqn:Erun;
        apply (Hend w6 c3 w7 _ eq_refl eq_refl eq_refl Erun)
    end.
  - cbn [Z.eqb Pos.eqb negb].
    match goal with
    | |- context [pkc_do_handshake c2 ?w6] =>
        destruct (pkc_do_handshake c2 w6) as [c3 w7] eqn:Erun;
        apply (Hend w6 c3 w7 _ eq_refl eq_refl eq_refl Erun)
    end.
Qed.

End PkconnRestFacts.

(** * The statements on explicit inputs *)

(** ** Reset *)

Lemma reset_conn_baseline_witness :
  @is_flag_set (sample_h 50) 2176 /\
  (let c' :=
     fst (@pkc_reset_conn (sample_h 50)
            (with_status 1088 (fresh_conn 7 CONN_SSL_DATA 50)) 2176
            (world_of all_fine)) in
   sockfd c' = -1 /\ out_buffer_pos c' = 0 /\
   state c' = CONN_CLEAR_DATA /\ status c' = 2176).
Proof.
  split; [reflexivity|].
  pose proof (@reset_conn_baseline (sample_h 50)
                (with_status 1088 (fresh_conn 7 CONN_SSL_DATA 50)) 2176
                (world_of all_fine) eq_refl) as H.
  cbv zeta in H |- *.
  destruct H as (H1 & _ & H3 & _ & _ & _ & _ & _ & _ & H10 & _ & _ & H13).
  split; [exact H1|]. split; [exact H3|]. split; [exact H10|].
  apply H13. reflexivity.
Defined.

(** ** Handshake *)

Lemma handshake_twice_then_done :
  let cn :=
    fst (@handshake_steps (sample_h 50) 3
           (fresh_conn 7 CONN_SSL_HANDSHAKE 50) (world_of wants_read_twice)) in
  state cn = CONN_SSL_DATA /\
  Z.land (status cn) (@CONN_STATUS_WANT_READ (sample_h 50)) = 0 /\
  Z.land (status cn) (@CONN_STATUS_WANT_WRITE (sample_h 50)) = 0.
Proof.
  apply (proj2 (@do_handshake_outcomes (sample_h 50)
                  (fresh_conn 7 CONN_SSL_HANDSHAKE 50)
                  (world_of wants_read_twice)) 2%nat).
  - intros k Hk. destruct k as [|[|k]].
    + split; [discriminate | reflexivity].
    + split; [discriminate | reflexivity].
    + lia.
  - reflexivity.
Defined.

(** ** Flush without a socket *)

Lemma flush_invalid_socket_witness :
  sockfd (fresh_conn (-1) CONN_CLEAR_DATA 50) < 0 /\
  exists w',
    @pkc_flush (sample_h 50) 0 (fresh_conn (-1) CONN_CLEAR_DATA 50)
      (Some [x41]) 1 BLOCKING_FLUSH (world_of would_block)
    = Some (-1, fresh_conn (-1) CONN_CLEAR_DATA 50, w') /\
    trace w' = [].
Proof.
  split; [reflexivity|].
  destruct (@flush_invalid_socket (sample_h 50) 0
              (fresh_conn (-1) CONN_CLEAR_DATA 50) (Some [x41]) 1
              BLOCKING_FLUSH (world_of would_block) eq_refl)
    as (w' & H1 & H2 & _).
  exists w'. split; [exact H1 | exact H2].
Defined.

(** ** Listen *)

Lemma listen_result_witness :
  listen_succeeds 5 (world_of listen_ok) /\
  (let '(rv, c', w') :=
     @pkc_listen (sample_h 50) (fresh_conn (-1) CONN_CLEAR_DATA 50)
       (mk_addrinfo 2 1 6 0) 5 (world_of listen_ok) in
   sockfd c' = 5 /\ rv = 49152).
Proof.
  assert (Hs : listen_succeeds 5 (world_of listen_ok))
    by (unfold listen_succeeds; simpl; lia).
  split; [exact Hs|].
  pose proof (@listen_result (sample_h 50)
                (fresh_conn (-1) CONN_CLEAR_DATA 50) (mk_addrinfo 2 1 6 0) 5
                (world_of listen_ok) Hs
                ltac:(simpl; lia) ltac:(simpl; lia)) as H.
  destruct (@pkc_listen (sample_h 50) (fresh_conn (-1) CONN_CLEAR_DATA 50)
              (mk_addrinfo 2 1 6 0) 5 (world_of listen_ok))
    as [[rv c'] w'].
  destruct H as (H1 & H2 & _). split; [exact H1|].
  apply H2. discriminate.
Defined.

(** A concrete port was requested, every call succeeds, and the result
    is that port, not 1. *)
Lemma listen_concrete_port_counterexample :
  listen_succeeds 5 (world_of listen_ok) /\
  ~ @listen_result_by_request (sample_h 50)
      (fresh_conn (-1) CONN_CLEAR_DATA 50) (mk_addrinfo 2 1 6 8080) 5
      (world_of listen_ok).
Proof.
  split; [unfold listen_succeeds; simpl; lia|].
  unfold listen_result_by_request. vm_compute.
  intros [_ H]. assert (E : 8080%Z = 1%Z) by (apply H; discriminate).
  discriminate.
Qed.

(** ** Read *)

Lemma read_outcomes_witness :
  Z.land (@CONN_STATUS_CLS_READ (sample_h 50))
         (@CONN_STATUS_BROKEN (sample_h 50)) = 0 /\
  @reaches_transport (sample_h 50) (fresh_conn 7 CONN_CLEAR_DATA 50) /\
  (let '(rv, c', w') :=
     @pkc_read (sample_h 50) (fresh_conn 7 CONN_CLEAR_DATA 50)
       (world_of end_of_file) in
   rv = 0 /\ status c' = 144).
Proof.
  assert (Hr : @reaches_transport (sample_h 50)
                 (fresh_conn 7 CONN_CLEAR_DATA 50))
    by (left; discriminate).
  split; [reflexivity|]. split; [exact Hr|].
  pose proof (@read_outcomes (sample_h 50) (fresh_conn 7 CONN_CLEAR_DATA 50)
                (world_of end_of_file) eq_refl Hr) as H.
  cbv zeta in H.
  destruct (@pkc_read (sample_h 50) (fresh_conn 7 CONN_CLEAR_DATA 50)
              (world_of end_of_file)) as [[rv c'] w'].
  destruct H as (H1 & _ & H3 & _). split; [exact H1|].
  apply (H3 eq_refl).
Defined.

(** A TLS read that fails with a protocol error while [errno] is 0: the
    platform error code says "retry", and yet Broken is raised. *)
Lemma read_tls_error_counterexample :
  ~ @read_classified_by_errno (sample_h 50) (fresh_conn 7 CONN_SSL_DATA 50)
      (world_of tls_failure).
Proof.
  unfold read_classified_by_errno. vm_compute.
  intros (_ & H & _). specialize (H eq_refl eq_refl). discriminate.
Qed.

(** ** Bandwidth reports *)



(** ** Write *)



Lemma write_blocked_overflow_witness :
  always_would_block (world_of would_block) /\
  exists w',
    @pkc_write (sample_h 50) 1 (fresh_conn 7 CONN_CLEAR_DATA 50)
      (repeat x41 100) 100 (world_of would_block)
    = Some (-1, fresh_conn 7 CONN_CLEAR_DATA 50, w') /\
    trace w' = [EvBlocking 7; EvNonBlocking 7].
Proof.
  assert (Hb : always_would_block (world_of would_block))
    by (intros n len; split; reflexivity).
  split; [exact Hb|].
  destruct (@write_blocked_overflow (sample_h 50) 0
              (fresh_conn 7 CONN_CLEAR_DATA 50) (repeat x41 100)
              (world_of would_block) eq_refl eq_refl eq_refl
              ltac:(simpl; lia) eq_refl Hb) as (w' & H1 & H2 & _).
  exists w'. split; [exact H1 | exact H2].
Defined.

(** The scenario itself: 100 bytes, capacity 50, blocked transport.  The
    buffer does not fill to 50; it stays empty. *)
Lemma write_overflow_counterexample :
  ~ @write_fills_buffer (sample_h 50) 10 (fresh_conn 7 CONN_CLEAR_DATA 50)
      (repeat x41 100) (world_of would_block) 50.
Proof.
  intros (rv & c' & w' & H & Hp). vm_compute in H.
  injection H as <- <- <-. discriminate.
Qed.

(** ** The iteration ceiling of the blocking flush *)

(** C8 at a failing input.  Ten bytes wait in the buffer of a plain-data
    connection on socket 7 and every write is interrupted: the blocking
    flush gives up at the ceiling after 1001 attempts, returns -1 with
    errno EIO, and socket 7 is still in blocking mode. *)
Lemma flush_storm_leaves_socket_blocking :
  exists c' w',
    @pkc_flush (sample_h 50) 1001
      (with_output (repeat x41 50) 10 (fresh_conn 7 CONN_CLEAR_DATA 50))
      None 0 BLOCKING_FLUSH (world_of interrupted) = Some (-1, c', w') /\
    errno w' = EIO /\ tick w' = 1001%nat /\
    trace w' = [EvBlocking 7] /\
    blocking_mode 7 w' = Some true.
Proof. vm_compute. do 2 eexists. repeat split. Qed.

(** C3 at a failing input.  A connection whose TLS handshake has failed
    (state TLS handshake, Broken set) and whose output buffer is empty is
    asked for a blocking flush of one new byte: every raw write returns 0
    with errno 0 without a call to the transport, the second loop runs
    into the ceiling, sets errno to EIO, and the call returns 0, which is
    not negative, with the byte not sent. *)
Lemma flush_ceiling_returns_zero :
  exists c' w',
    @pkc_flush (sample_h 50) 1002
      (with_status 192 (fresh_conn 7 CONN_SSL_HANDSHAKE 50))
      (Some [x41]) 1 BLOCKING_FLUSH (world_of would_block) = Some (0, c', w') /\
    errno w' = EIO /\ tick w' = 0%nat /\ sent 7 w' = [] /\
    out_buffer_pos c' = 0.
Proof. vm_compute. do 2 eexists. repeat split. Qed.

(** * The further statements on explicit inputs *)

(** ** Write and flush *)

Lemma write_leaves_rest_alone_witness :
  well_behaved (world_of takes_all) /\
  exists rv c' w',
    @pkc_write (sample_h 50) 5 (fresh_conn 7 CONN_CLEAR_DATA 50)
      [x41; x42] 2 (world_of takes_all) = Some (rv, c', w') /\
    write_frame (fresh_conn 7 CONN_CLEAR_DATA 50) (world_of takes_all) c' w' /\
    (rv = 2 \/ rv = -1) /\ @conn_wf (sample_h 50) c' /\
    sent 8 w' = [].
Proof.
  assert (Hwb : well_behaved (world_of takes_all))
    by (intros n len Hlen; simpl; lia).
  split; [exact Hwb|].
  pose proof (@write_leaves_rest_alone (sample_h 50) 5
                (fresh_conn 7 CONN_CLEAR_DATA 50) [x41; x42]
                (world_of takes_all) _ _ _ eq_refl
                ltac:(unfold conn_wf; simpl; lia) Hwb eq_refl)
    as (H1 & H2 & H3 & _ & H4).
  eexists _, _, _. split; [reflexivity|]. split; [exact H1|].
  split; [exact H2|]. split; [exact H3|].
  exact (proj1 (H4 8 ltac:(simpl; lia))).
Defined.

Lemma flush_partial_drain_witness :
  exists c' w',
    @pkc_flush (sample_h 50) 1 conn_with_abc None 0 NON_BLOCKING_FLUSH
      (world_of two_at_a_time) = Some (2, c', w') /\
    sent 7 w' = [x41; x42] /\ pending c' = [x43] /\
    out_buffer_pos c' = 1.
Proof.
  destruct (@flush_partial_drain (sample_h 50) 0 conn_with_abc None 0
              (world_of two_at_a_time) eq_refl
              ltac:(unfold conn_wf; simpl; lia) ltac:(simpl; lia)
              ltac:(simpl; lia))
    as (c' & w' & Hrun & Hs & Hp & Ho & _).
  exists c', w'. split; [exact Hrun|]. split; [exact Hs|].
  split; [exact Hp | exact Ho].
Defined.

Lemma flush_keeps_stream_witness :
  well_behaved (world_of two_at_a_time) /\
  exists rv c' w',
    @pkc_flush (sample_h 50) 1001 conn_with_abc None 0 BLOCKING_FLUSH
      (world_of two_at_a_time) = Some (rv, c', w') /\
    sent 7 w' ++ pending c' = [x41; x42; x43].
Proof.
  assert (Hwb : well_behaved (world_of two_at_a_time))
    by (intros n len Hlen; simpl; lia).
  split; [exact Hwb|].
  destruct (@flush_keeps_stream (sample_h 50) conn_with_abc BLOCKING_FLUSH
              (world_of two_at_a_time) eq_refl
              ltac:(unfold conn_wf; simpl; lia) Hwb)
    as (rv & c' & w' & Hrun & Hs & _).
  exists rv, c', w'. split; [exact Hrun | exact Hs].
Defined.

Lemma write_direct_then_buffer_witness :
  exists c' w',
    @pkc_write (sample_h 50) 1 (fresh_conn 7 CONN_CLEAR_DATA 50)
      [x41; x42; x43] 3 (world_of two_at_a_time) = Some (3, c', w') /\
    sent 7 w' = [x41; x42] /\ pending c' = [x43].
Proof.
  destruct (@write_direct_then_buffer (sample_h 50) 0
              (fresh_conn 7 CONN_CLEAR_DATA 50) [x41; x42; x43]
              (world_of two_at_a_time) eq_refl
              ltac:(unfold conn_wf; simpl; lia) eq_refl
              ltac:(simpl; lia) ltac:(simpl; lia))
    as (c' & w' & Hrun & _ & Hs & Hp & _).
  exists c', w'. split; [exact Hrun|]. split; [exact Hs | exact Hp].
Defined.

Lemma blocked_writes_then_flush_witness :
  always_would_block (world_of would_block) /\
  exists c1 w1,
    @write_each (sample_h 50) 1 (fresh_conn 7 CONN_CLEAR_DATA 50)
      [[x41]; [x42; x43]] (world_of would_block) = Some (c1, w1) /\
    pending c1 = [x41; x42; x43] /\
    exists rv c2 w2,
      @pkc_flush (sample_h 50) 1 c1 None 0 NON_BLOCKING_FLUSH
        (set_oracle takes_all w1) = Some (rv, c2, w2) /\
      sent 7 w2 = [x41; x42; x43] /\ rv = 3.
Proof.
  assert (Hb : always_would_block (world_of would_block))
    by (intros n len; split; reflexivity).
  split; [exact Hb|].
  destruct (@blocked_writes_then_flush (sample_h 50) 0 [[x41]; [x42; x43]]
              (fresh_conn 7 CONN_CLEAR_DATA 50) (world_of would_block)
              eq_refl ltac:(unfold conn_wf; simpl; lia) ltac:(simpl; lia)
              Hb ltac:(simpl; unfold PKC_OUT_FREE; simpl; lia))
    as (c1 & w1 & Hrun & Hp & _ & _ & rv & c2 & w2 & Hf & Hs & _ & Hrv).
  exists c1, w1. split; [exact Hrun|]. split; [exact Hp|].
  exists rv, c2, w2. split; [exact Hf|]. split; [exact Hs | exact Hrv].
Defined.

Lemma blocking_flush_socket_mode_witness :
  exists rv c' w',
    @pkc_flush (sample_h 50) 5 conn_with_abc None 0 BLOCKING_FLUSH
      (world_of would_block) = Some (rv, c', w') /\
    sockfd c' = 7 /\ blocking_mode 7 w' = Some false.
Proof.
  pose proof (@blocking_flush_socket_mode (sample_h 50) 5 conn_with_abc
                None 0 (world_of would_block) _ _ _
                ltac:(simpl; lia) eq_refl) as (H1 & H2).
  eexists _, _, _. split; [reflexivity|]. split; [exact H1|].
  destruct H2 as [H2 | (_ & He & _)]; [exact H2|].
  vm_compute in He. discriminate He.
Defined.

(** ** Read *)

Lemma read_keeps_counters_witness :
  let '(rv, c', w') :=
    @pkc_read (sample_h 50)
      (with_input (repeat x00 50) 0 0 1023 0 (fresh_conn 7 CONN_CLEAR_DATA 50))
      (world_of serves_three) in
  rv = 3 /\ read_kb c' = 1 /\ read_bytes c' = 2 /\
  read_total c' = 1023 + 3.
Proof.
  pose proof (@read_keeps_counters (sample_h 50)
                (with_input (repeat x00 50) 0 0 1023 0
                   (fresh_conn 7 CONN_CLEAR_DATA 50))
                (world_of serves_three) ltac:(simpl; lia)) as H.
  destruct (@pkc_read (sample_h 50) _ (world_of serves_three))
    as [[rv c'] w'] eqn:E.
  vm_compute in E. injection E as <- <- <-.
  destruct H as (_ & H & _).
  split; [reflexivity|]. split; [reflexivity|]. split; [reflexivity|].
  exact H.
Defined.

Lemma read_stays_in_buffer_witness :
  reads_bounded (world_of serves_three) /\
  let '(rv, c', w') :=
    @pkc_read (sample_h 50)
      (with_input (repeat x00 50) 50 0 0 0 (fresh_conn 7 CONN_CLEAR_DATA 50))
      (world_of serves_three) in
  rv = 0 /\ in_buffer_pos c' = 50 /\ Z.land (status c') 16 = 16.
Proof.
  assert (Hb : reads_bounded (world_of serves_three))
    by (intros n len Hlen; simpl; lia).
  split; [exact Hb|].
  pose proof (@read_stays_in_buffer (sample_h 50)
                (with_input (repeat x00 50) 50 0 0 0
                   (fresh_conn 7 CONN_CLEAR_DATA 50))
                (world_of serves_three)
                ltac:(unfold in_wf; simpl; lia) Hb) as H.
  destruct (@pkc_read (sample_h 50) _ (world_of serves_three))
    as [[rv c'] w'].
  destruct H as ([[_ Hle] _] & Hge & _ & H).
  destruct (H ltac:(left; discriminate) eq_refl) as [Hrv Hcls].
  change (rv = 0) in Hrv.
  split; [exact Hrv|]. split; [simpl in Hge, Hle; lia|].
  exact (Hcls Hrv).
Defined.

Lemma read_appends_received_witness :
  let '(rv, c', w') :=
    @pkc_read (sample_h 50) (fresh_conn 7 CONN_CLEAR_DATA 50)
      (world_of serves_three) in
  rv = 3 /\ @received c' = [x41; x42; x43] /\ activity c' = 1000.
Proof.
  pose proof (@read_appends_received (sample_h 50)
                (fresh_conn 7 CONN_CLEAR_DATA 50) (world_of serves_three)
                ltac:(unfold in_wf; simpl; lia) ltac:(left; discriminate)
                ltac:(unfold PKC_IN_FREE; simpl; lia)
                ltac:(simpl; lia)) as H.
  destruct (@pkc_read (sample_h 50) _ (world_of serves_three))
    as [[rv c'] w'].
  destruct H as (H1 & H2 & _ & H3 & _).
  rewrite H1 in H2.
  split; [exact H1|]. split; [exact H2 | exact H3].
Defined.

Lemma read_drives_handshake_witness :
  let '(c', w') :=
    @read_steps (sample_h 50) 3 (fresh_conn 7 CONN_SSL_HANDSHAKE 50)
      (world_of wants_read_twice) in
  state c' = CONN_SSL_DATA /\ in_buffer_pos c' = 0 /\ tick w' = 3%nat.
Proof.
  pose proof (@read_drives_handshake (sample_h 50) 2
                (fresh_conn 7 CONN_SSL_HANDSHAKE 50)
                (world_of wants_read_twice) eq_refl eq_refl eq_refl) as H.
  destruct H as [H _].
  - intros k Hk. destruct k as [|[|k]].
    + split; [discriminate | reflexivity].
    + split; [discriminate | reflexivity].
    + lia.
  - reflexivity.
  - destruct (@read_steps (sample_h 50) 3 _ (world_of wants_read_twice))
      as [c' w'].
    destruct H as (H1 & _ & _ & _ & _ & H2 & _ & H3 & _).
    split; [exact H1|]. split; [exact H2 | exact H3].
Defined.

(** ** Raw writes and reports *)

Lemma raw_write_tls_pending_witness :
  let c := with_want_write 4 (fresh_conn 7 CONN_SSL_DATA 50) in
  let '(rv, c', w') :=
    @pkc_raw_write (sample_h 50) c [x41; x42; x43; x44; x45] 5
      (world_of takes_all) in
  rv = 4 /\ want_write c' = 0 /\ wrote_bytes c' = 4 /\
  sent 7 w' = [x41; x42; x43; x44].
Proof.
  intros c.
  pose proof (@raw_write_tls_pending (sample_h 50) c
                [x41; x42; x43; x44; x45] 5 (world_of takes_all) eq_refl
                ltac:(simpl; lia) ltac:(simpl; lia)) as [_ H].
  destruct (@pkc_raw_write (sample_h 50) c _ 5 (world_of takes_all))
    as [[rv c'] w'].
  destruct H as (H1 & _ & _ & H2 & _ & H3).
  split; [exact H1|].
  split; [apply H2; intros [Hneg _]; simpl in Hneg; lia|].
  destruct (H3 ltac:(simpl; lia)) as (H4 & H5 & _).
  split; [exact H4 | exact H5].
Defined.

Lemma report_progress_conserves_witness :
  exists c' fe' w',
    @pkc_report_progress (sample_h 50) 5
      (with_wrote_bytes 20000 (fresh_conn 7 CONN_CLEAR_DATA 50)) [x41]
      (fresh_conn 8 CONN_CLEAR_DATA 50) (world_of takes_all)
    = Some (c', fe', w') /\
    written_total c' = 20000 /\ 0 <= wrote_bytes c' < 1024 /\
    sent 7 w' = [].
Proof.
  pose proof (@report_progress_conserves (sample_h 50) 5
                (with_wrote_bytes 20000 (fresh_conn 7 CONN_CLEAR_DATA 50))
                [x41] (fresh_conn 8 CONN_CLEAR_DATA 50) (world_of takes_all)
                _ _ _ eq_refl ltac:(unfold conn_wf; simpl; lia)
                ltac:(intros n len Hlen; simpl; lia) eq_refl)
    as (H1 & H2 & _ & _ & _ & _ & _ & _ & _ & _ & _ & H3).
  eexists _, _, _. split; [reflexivity|]. split; [exact H1|].
  split; [exact (proj1 (H2 ltac:(simpl; lia) ltac:(simpl; lia)))|].
  exact (H3 7 ltac:(simpl; lia)).
Defined.

(** ** Listen, connect, wait *)

Lemma listen_failure_releases_witness :
  let '(rv, c', w') :=
    @pkc_listen (sample_h 50) (fresh_conn 7 CONN_CLEAR_DATA 50)
      (mk_addrinfo 2 1 6 8080) 10 (world_of socket_then_refuse) in
  rv = -40003 /\ pk_error w' = -40003 /\ sockfd c' = -1 /\
  trace w' = [EvClose 7; EvClose 5].
Proof.
  pose proof (@listen_failure_releases (sample_h 50)
                (fresh_conn 7 CONN_CLEAR_DATA 50) (mk_addrinfo 2 1 6 8080) 10
                (world_of socket_then_refuse)) as H.
  destruct (@pkc_reset_conn (sample_h 50) _ _ (world_of socket_then_refuse))
    as [c0 w0] eqn:E0.
  vm_compute in E0. injection E0 as <- <-.
  destruct (@pkc_listen (sample_h 50) _ _ 10 (world_of socket_then_refuse))
    as [[rv c'] w'].
  destruct H as (H1 & H2 & _ & H3 & H4).
  { intros (_ & Hb & _). simpl in Hb. lia. }
  split; [exact H1|]. split; [exact H2|]. split; [exact H3 | exact H4].
Defined.

Lemma connect_outcomes_witness :
  let '(rv, c', w') :=
    @pkc_connect (sample_h 50) (-40001) sample_state
      (fresh_conn (-1) CONN_CLEAR_DATA 50) (mk_addrinfo 2 1 6 443)
      (world_of listen_ok) in
  rv = 5 /\ sockfd c' = 5 /\ trace w' = [].
Proof.
  pose proof (@connect_outcomes (sample_h 50) (-40001) sample_state
                (fresh_conn (-1) CONN_CLEAR_DATA 50) (mk_addrinfo 2 1 6 443)
                (world_of listen_ok)) as H.
  destruct (@pkc_reset_conn (sample_h 50) _ _ (world_of listen_ok))
    as [c0 w0] eqn:E0.
  vm_compute in E0. injection E0 as <- <-.
  destruct (@pkc_connect (sample_h 50) _ _ _ _ (world_of listen_ok))
    as [[rv c'] w'].
  destruct H as [H _].
  destruct H as (H1 & _ & _ & H2 & H3 & _).
  { repeat split; simpl; lia. }
  split; [exact H1|]. split; [exact H2 | exact H3].
Defined.

Lemma wait_returns_first_answer_witness :
  exists w',
    pkc_wait 3 (fresh_conn 7 CONN_CLEAR_DATA 50) 100
      (world_of interrupted_twice) = Some (1, w') /\
    tick w' = 3%nat /\ blocking_mode 7 w' = Some true.
Proof.
  destruct (wait_returns_first_answer 2 0 (fresh_conn 7 CONN_CLEAR_DATA 50)
              100 (world_of interrupted_twice))
    as (w' & Hrun & Ht & _ & _ & Hm).
  - intros k Hk. destruct k as [|[|k]].
    + split; [simpl; lia | reflexivity].
    + split; [simpl; lia | reflexivity].
    + lia.
  - intros [Hneg _]. simpl in Hneg. lia.
  - exists w'. split; [exact Hrun|]. split; [exact Ht | exact Hm].
Defined.

Lemma wait_never_gives_up_witness :
  pkc_wait 100 (fresh_conn 7 CONN_CLEAR_DATA 50) 100 (world_of interrupted)
  = None.
Proof.
  apply wait_never_gives_up.
  intros k. split; [simpl; lia | reflexivity].
Defined.

(** ** Starting TLS *)

Lemma start_ssl_setup_failure_witness :
  let '(rv, c', w') :=
    @pkc_start_ssl (sample_h 50) sample_state
      (fresh_conn 7 CONN_CLEAR_DATA 50) None (world_of session_then_refuse) in
  rv = -1 /\ ssl c' = None /\ state c' = CONN_CLEAR_DATA /\
  trace w' = [EvSslFree 9].
Proof.
  pose proof (@start_ssl_setup_failure (sample_h 50) sample_state
                (fresh_conn 7 CONN_CLEAR_DATA 50) None
                (world_of session_then_refuse)) as H.
  destruct (@pkc_start_ssl (sample_h 50) _ _ None
              (world_of session_then_refuse)) as [[rv c'] w'].
  destruct H as (H1 & H2 & H3 & _).
  { intros (_ & Hm & _). vm_compute in Hm. discriminate Hm. }
  subst c'. split; [exact H1|]. split; [reflexivity|].
  split; [reflexivity | exact H3].
Defined.

Lemma start_ssl_handshake_witness :
  let '(rv, c', w') :=
    @pkc_start_ssl (sample_h 50) sample_state
      (fresh_conn 7 CONN_CLEAR_DATA 50) None (world_of tls_ready) in
  ssl c' = Some 9%nat /\ state c' = CONN_SSL_DATA /\ trace w' = [].
Proof.
  pose proof (@start_ssl_handshake (sample_h 50) sample_state
                (fresh_conn 7 CONN_CLEAR_DATA 50) None
                (world_of tls_ready)) as H.
  destruct (@pkc_start_ssl (sample_h 50) _ _ None (world_of tls_ready))
    as [[rv c'] w'].
  destruct H as (H1 & H2 & _ & _ & H3 & _).
  { repeat split; try reflexivity. intros Hn. now elim Hn. }
  split; [exact H1|]. split; [exact (proj1 (H3 eq_refl)) | exact H2].
Defined.
